(** * Batching core of the sprite renderer (AbstractBatchRenderer.js)

    A shallow embedding of [packages/core/src/batch/AbstractBatchRenderer.js]:
    the element buffer ([render]), the texture slot assigner
    ([buildTexturesAndDrawCalls]), the draw call builder ([buildDrawCalls]),
    the geometry packer ([packInterleavedGeometry]), the growable buffer pool
    ([getAttributeBuffer], [getIndexBuffer]) and the flush orchestrator
    ([flush]), followed by the properties established about them.

    Conventions of the embedding.
    - JavaScript objects that are shared and mutated in place (base textures,
      scratch buffers, pooled draw calls and texture arrays) live in explicit
      stores inside the renderer state; a reference is the key of the store
      (or the index in the pool) and aliasing is aliasing of keys.
    - A thrown [TypeError] (property access on [null] / [undefined]) is the
      result [None]; every operation that can throw returns [option].
    - JavaScript numbers that are always whole (cursors, lengths, counters)
      are [nat]; numbers that can be negative are [Z]; the numbers of an
      element (positions, texture coordinates, opacity) and the buffered
      vertex count are the rationals [Q] they denote.
    - The packer computes with doubles: the result of its [/], [*] and [+]
      is the result on the rationals rounded to the nearest double
      ([binary64]), the quotient by zero being an infinity or NaN, and a
      number stored through a [Float32Array] is rounded to the nearest
      single ([binary32]); such a result is a [Float].  The buffered vertex
      count is a sum of halves of array lengths, which doubles add without
      rounding.
    - Calls into the graphics context are recorded, in order, in the event
      log [gl]. *)

From Stdlib Require Import QArith Qround Qabs Qpower.
From stdpp Require Import base option numbers list gmap fin_maps.

Local Open Scope nat_scope.

(** ** JavaScript helpers *)

(** [arr[i] = v] on an ordinary (growable) array.  Inside the array the slot
    is overwritten; past its end the array is extended, the skipped slots
    being holes ([None]). *)
Definition js_set {A} (arr : list (option A)) (i : nat) (v : option A) : list (option A) :=
  if decide (i < length arr) then <[i := v]> arr
  else arr ++ replicate (i - length arr) None ++ [v].

(** [arr[i]] on an ordinary array: a hole, [null] and an index past the end
    all read as "no object". *)
Definition js_get {A} (arr : list (option A)) (i : nat) : option A :=
  mjoin (arr !! i).

(** Whole numbers as JavaScript numbers. *)
Definition Qnat (n : nat) : Q := inject_Z (Z.of_nat n).

(** [a > b], [a < b] and [a === 0] on numbers. *)
Definition Qgtb (a b : Q) : bool := negb (Qle_bool a b).
Definition Qltb (a b : Q) : bool := negb (Qle_bool b a).

(** [Math.min(a, b)]. *)
Definition js_min (a b : Q) : Q := if Qle_bool a b then a else b.

(** The integral part of a number (rounding toward zero), the first step
    of every integer conversion. *)
Definition Qtruncate (x : Q) : Z := Z.quot (Qnum x) (Zpos (Qden x)).

(** [ToInt32], [ToUint32] and [ToUint16] of an integral number. *)
Definition ToInt32 (z : Z) : Z := ((z + 2 ^ 31) mod 2 ^ 32 - 2 ^ 31)%Z.
Definition ToUint32 (z : Z) : Z := (z mod 2 ^ 32)%Z.
Definition ToUint16 (z : Z) : Z := (z mod 2 ^ 16)%Z.

(** [x << k] for [0 <= k < 32]: both the operand and the result are int32. *)
Definition js_shl (x : Z) (k : Z) : Z := ToInt32 (Z.shiftl (ToInt32 x) k).

(** *** IEEE numbers

    The result of a floating-point operation: NaN, an infinity, the negative
    zero, or the rational denoted by a finite number (the positive zero is
    [FNum 0]). *)
Inductive Float :=
  | FNaN
  | FInf (negative : bool)
  | FNegZero
  | FNum (value : Q).

(** Rounding to a whole number, ties to the even one. *)
Definition round_half_even (x : Q) : Z :=
  let f := Qfloor x in
  match (x - inject_Z f ?= 1 # 2)%Q with
  | Lt => f
  | Gt => (f + 1)%Z
  | Eq => if Z.even f then f else (f + 1)%Z
  end.

(** [floor (log2 x)] of a positive rational. *)
Definition ilog2 (x : Q) : Z :=
  let e := (Z.log2 (Qnum x) - Z.log2 (Zpos (Qden x)))%Z in
  if Qle_bool (2 ^ e) x then e else (e - 1)%Z.

(** Round-to-nearest, ties-to-even, into the binary format with [prec]
    significant bits whose smallest positive number is [2 ^ emin] and whose
    finite numbers lie below [2 ^ emax]: the magnitude is rounded to a
    multiple of the unit in the last place [2 ^ e]; what reaches [2 ^ emax]
    is an infinity, what rounds to nothing is a zero of the same sign. *)
Definition ieee_round (prec emin emax : Z) (x : Q) : Float :=
  if Qeq_bool x 0 then FNum 0
  else
    let a := Qabs x in
    let e := Z.max (ilog2 a - (prec - 1)) emin in
    let m := round_half_even (a / 2 ^ e) in
    let r := Qred (inject_Z m * 2 ^ e) in
    if Qle_bool (2 ^ emax) r then FInf (Qltb x 0)
    else if (m =? 0)%Z then (if Qltb x 0 then FNegZero else FNum 0)
    else FNum (if Qltb x 0 then Qred (- r) else r).

(** Doubles (JavaScript numbers) and singles ([Float32Array] elements). *)
Definition binary64 : Q → Float := ieee_round 53 (-1074) 1024.
Definition binary32 : Q → Float := ieee_round 24 (-149) 128.

(** [view[i] = x] on a [Float32Array]: the number is rounded to a single;
    [undefined] is stored as NaN. *)
Definition fround (x : option Q) : Float :=
  match x with
  | Some q => binary32 q
  | None => FNaN
  end.

(** [x + y] and [a / b] on numbers, [y], [a] and [b] being finite. *)
Definition js_add (x : Float) (y : Q) : Float :=
  match x with
  | FNum q => binary64 (q + y)
  | FNegZero => binary64 y
  | FNaN => FNaN
  | FInf negative => FInf negative
  end.

Definition js_div (a b : Q) : Float :=
  if Qeq_bool b 0 then (if Qeq_bool a 0 then FNaN else FInf (Qltb a 0))
  else if Qeq_bool a 0 then (if Qltb b 0 then FNegZero else FNum 0)
  else binary64 (a / b).

(** The integral part of a number as the integer conversions take it: NaN,
    the infinities and the zeros give 0. *)
Definition Ftruncate (x : Float) : Z :=
  match x with
  | FNum q => Qtruncate q
  | _ => 0%Z
  end.

(** A bounded [for (i = from; ...; ++i)] loop running [n] times; the body
    may throw. *)
Fixpoint for_loop {St} (body : nat → St → option St) (from n : nat) (s : St) : option St :=
  match n with
  | O => Some s
  | S n' => s' ← body from s; for_loop body (S from) n' s'
  end.

(** ** Data model *)

Definition texid := positive.
Definition bufid := positive.

(** The fields of [BaseTexture] that the batch renderer reads or stamps. *)
Record BaseTexture := mkBaseTexture {
  alphaMode : Z;
  _batchEnabled : nat;
  _batchLocation : Z;
  touched : nat
}.

Record Texture := mkTexture {
  valid : bool;
  baseTexture : texid
}.

(** A batchable display object. *)
Record Element := mkElement {
  _texture : Texture;
  vertexData : list Q;
  uvs : list Q;
  indices : list Z;
  worldAlpha : Q;
  _tintRGB : Z;
  blendMode : Z
}.

(** Modelled from the spec: [BatchDrawCall] and [BatchTextureArray] are
    declared in BatchDrawCall.js, which is not among the sources.  A draw
    call is "{texture array reference, blend mode, index-buffer start offset,
    index count, primitive type}"; a texture array is an "ordered set of
    ≤ MAX_TEXTURES distinct Texture references", "reset (count=0) between
    uses", together with the unit assigned to each ([ids], which
    [bindAndClearTexArray] reads).  [dc_texArray] refers to an entry of the
    [_textureArrays] pool by its index. *)
Record BatchDrawCall := mkBatchDrawCall {
  dc_texArray : option nat;
  dc_blend : Z;
  dc_type : Z;
  dc_start : nat;
  dc_size : nat
}.

Record BatchTextureArray := mkBatchTextureArray {
  ta_elements : list (option texid);
  ta_ids : list Z;
  ta_count : nat
}.

Definition DRAW_MODES_TRIANGLES : Z := 4.

(** Modelled from the spec: the two constructors; a new pooled object has
    no texture array, offset and counts zero, and no texture. *)
Definition new_BatchDrawCall : BatchDrawCall :=
  {| dc_texArray := None; dc_blend := 0; dc_type := DRAW_MODES_TRIANGLES;
     dc_start := 0; dc_size := 0 |}.

Definition new_BatchTextureArray : BatchTextureArray :=
  {| ta_elements := []; ta_ids := []; ta_count := 0 |}.

(** Modelled from the spec: [ViewableBuffer] (geometry/ViewableBuffer.js,
    not among the sources) is the attribute scratch buffer, "raw bytes,
    viewable as interleaved float/packed-int lanes"; the index scratch buffer
    is a [Uint16Array].  Both start zero-filled.

    One 32-bit lane of a [ViewableBuffer]: written through [float32View]
    (the single stored) or through [uint32View]. *)
Inductive Lane :=
  | F32 (x : Float)
  | U32 (c : Z).

Record ViewableBuffer := mkViewableBuffer {
  byteLength : Z;
  lanes : list Lane
}.

Definition new_ViewableBuffer (bytes : Z) : ViewableBuffer :=
  {| byteLength := bytes; lanes := replicate (Z.to_nat (bytes / 4)) (U32 0) |}.

Definition new_Uint16Array (n : Z) : list Z := replicate (Z.to_nat n) 0%Z.

(** A plain object used as a size-class cache: its numeric keys and its
    [length] property (absent unless something assigns it). *)
Record BufferCache := mkBufferCache {
  bc_length : option Z;
  bc_slots : gmap Z bufid
}.

Definition Geometry := unit.

(** Calls received by the graphics context and its sub-systems. *)
Inductive GpuEvent :=
  | BufferUpdate (geometry : nat) (data : list Lane)
  | IndexBufferUpdate (geometry : nat) (data : list Z)
  | GeometryBind (geometry : nat)
  | UpdateBuffers
  | TextureBind (tex : option texid) (location : option Z)
  | SetBlendMode (blend : Z)
  | DrawElements (type : Z) (count : nat) (byteOffset : nat).

Record Renderer := mkRenderer {
  size : nat;
  vertexSize : nat;
  MAX_TEXTURES : nat;
  CAN_UPLOAD_SAME_BUFFER : bool;
  _vertexCount : Q;
  _indexCount : nat;
  _bufferedElements : list (option Element);
  _bufferedTextures : list (option texid);
  _bufferSize : nat;
  _packedGeometries : list (option Geometry);
  _packedGeometryPoolSize : nat;
  _flushId : nat;
  _aBuffers : BufferCache;
  _iBuffers : BufferCache;
  _drawCalls : list BatchDrawCall;
  _textureArrays : list BatchTextureArray;
  _tempBoundTextures : list (option texid);
  _dcIndex : nat;
  _aIndex : nat;
  _iIndex : nat;
  _attributeBuffer : option bufid;
  _indexBuffer : option bufid;
  viewableBuffers : gmap bufid ViewableBuffer;
  uint16Arrays : gmap bufid (list Z);
  baseTextures : gmap texid BaseTexture;
  _globalBatch : nat;
  textureGC_count : nat;
  gl : list GpuEvent
}.

Definition set_MAX_TEXTURES (v : nat) (s : Renderer) : Renderer :=
  {| size := size s; vertexSize := vertexSize s; MAX_TEXTURES := v; CAN_UPLOAD_SAME_BUFFER :=
     CAN_UPLOAD_SAME_BUFFER s; _vertexCount := _vertexCount s; _indexCount := _indexCount s;
     _bufferedElements := _bufferedElements s; _bufferedTextures := _bufferedTextures s;
     _bufferSize := _bufferSize s; _packedGeometries := _packedGeometries s;
     _packedGeometryPoolSize := _packedGeometryPoolSize s; _flushId := _flushId s; _aBuffers
     := _aBuffers s; _iBuffers := _iBuffers s; _drawCalls := _drawCalls s; _textureArrays :=
     _textureArrays s; _tempBoundTextures := _tempBoundTextures s; _dcIndex := _dcIndex s;
     _aIndex := _aIndex s; _iIndex := _iIndex s; _attributeBuffer := _attributeBuffer s;
     _indexBuffer := _indexBuffer s; viewableBuffers := viewableBuffers s; uint16Arrays :=
     uint16Arrays s; baseTextures := baseTextures s; _globalBatch := _globalBatch s;
     textureGC_count := textureGC_count s; gl := gl s |}.
Definition set_vertexCount (v : Q) (s : Renderer) : Renderer :=
  {| size := size s; vertexSize := vertexSize s; MAX_TEXTURES := MAX_TEXTURES s;
     CAN_UPLOAD_SAME_BUFFER := CAN_UPLOAD_SAME_BUFFER s; _vertexCount := v; _indexCount :=
     _indexCount s; _bufferedElements := _bufferedElements s; _bufferedTextures :=
     _bufferedTextures s; _bufferSize := _bufferSize s; _packedGeometries :=
     _packedGeometries s; _packedGeometryPoolSize := _packedGeometryPoolSize s; _flushId :=
     _flushId s; _aBuffers := _aBuffers s; _iBuffers := _iBuffers s; _drawCalls := _drawCalls
     s; _textureArrays := _textureArrays s; _tempBoundTextures := _tempBoundTextures s;
     _dcIndex := _dcIndex s; _aIndex := _aIndex s; _iIndex := _iIndex s; _attributeBuffer :=
     _attributeBuffer s; _indexBuffer := _indexBuffer s; viewableBuffers := viewableBuffers
     s; uint16Arrays := uint16Arrays s; baseTextures := baseTextures s; _globalBatch :=
     _globalBatch s; textureGC_count := textureGC_count s; gl := gl s |}.
Definition set_indexCount (v : nat) (s : Renderer) : Renderer :=
  {| size := size s; vertexSize := vertexSize s; MAX_TEXTURES := MAX_TEXTURES s;
     CAN_UPLOAD_SAME_BUFFER := CAN_UPLOAD_SAME_BUFFER s; _vertexCount := _vertexCount s;
     _indexCount := v; _bufferedElements := _bufferedElements s; _bufferedTextures :=
     _bufferedTextures s; _bufferSize := _bufferSize s; _packedGeometries :=
     _packedGeometries s; _packedGeometryPoolSize := _packedGeometryPoolSize s; _flushId :=
     _flushId s; _aBuffers := _aBuffers s; _iBuffers := _iBuffers s; _drawCalls := _drawCalls
     s; _textureArrays := _textureArrays s; _tempBoundTextures := _tempBoundTextures s;
     _dcIndex := _dcIndex s; _aIndex := _aIndex s; _iIndex := _iIndex s; _attributeBuffer :=
     _attributeBuffer s; _indexBuffer := _indexBuffer s; viewableBuffers := viewableBuffers
     s; uint16Arrays := uint16Arrays s; baseTextures := baseTextures s; _globalBatch :=
     _globalBatch s; textureGC_count := textureGC_count s; gl := gl s |}.
Definition set_bufferedElements (v : list (option Element)) (s : Renderer) : Renderer :=
  {| size := size s; vertexSize := vertexSize s; MAX_TEXTURES := MAX_TEXTURES s;
     CAN_UPLOAD_SAME_BUFFER := CAN_UPLOAD_SAME_BUFFER s; _vertexCount := _vertexCount s;
     _indexCount := _indexCount s; _bufferedElements := v; _bufferedTextures :=
     _bufferedTextures s; _bufferSize := _bufferSize s; _packedGeometries :=
     _packedGeometries s; _packedGeometryPoolSize := _packedGeometryPoolSize s; _flushId :=
     _flushId s; _aBuffers := _aBuffers s; _iBuffers := _iBuffers s; _drawCalls := _drawCalls
     s; _textureArrays := _textureArrays s; _tempBoundTextures := _tempBoundTextures s;
     _dcIndex := _dcIndex s; _aIndex := _aIndex s; _iIndex := _iIndex s; _attributeBuffer :=
     _attributeBuffer s; _indexBuffer := _indexBuffer s; viewableBuffers := viewableBuffers
     s; uint16Arrays := uint16Arrays s; baseTextures := baseTextures s; _globalBatch :=
     _globalBatch s; textureGC_count := textureGC_count s; gl := gl s |}.
Definition set_bufferedTextures (v : list (option texid)) (s : Renderer) : Renderer :=
  {| size := size s; vertexSize := vertexSize s; MAX_TEXTURES := MAX_TEXTURES s;
     CAN_UPLOAD_SAME_BUFFER := CAN_UPLOAD_SAME_BUFFER s; _vertexCount := _vertexCount s;
     _indexCount := _indexCount s; _bufferedElements := _bufferedElements s;
     _bufferedTextures := v; _bufferSize := _bufferSize s; _packedGeometries :=
     _packedGeometries s; _packedGeometryPoolSize := _packedGeometryPoolSize s; _flushId :=
     _flushId s; _aBuffers := _aBuffers s; _iBuffers := _iBuffers s; _drawCalls := _drawCalls
     s; _textureArrays := _textureArrays s; _tempBoundTextures := _tempBoundTextures s;
     _dcIndex := _dcIndex s; _aIndex := _aIndex s; _iIndex := _iIndex s; _attributeBuffer :=
     _attributeBuffer s; _indexBuffer := _indexBuffer s; viewableBuffers := viewableBuffers
     s; uint16Arrays := uint16Arrays s; baseTextures := baseTextures s; _globalBatch :=
     _globalBatch s; textureGC_count := textureGC_count s; gl := gl s |}.
Definition set_bufferSize (v : nat) (s : Renderer) : Renderer :=
  {| size := size s; vertexSize := vertexSize s; MAX_TEXTURES := MAX_TEXTURES s;
     CAN_UPLOAD_SAME_BUFFER := CAN_UPLOAD_SAME_BUFFER s; _vertexCount := _vertexCount s;
     _indexCount := _indexCount s; _bufferedElements := _bufferedElements s;
     _bufferedTextures := _bufferedTextures s; _bufferSize := v; _packedGeometries :=
     _packedGeometries s; _packedGeometryPoolSize := _packedGeometryPoolSize s; _flushId :=
     _flushId s; _aBuffers := _aBuffers s; _iBuffers := _iBuffers s; _drawCalls := _drawCalls
     s; _textureArrays := _textureArrays s; _tempBoundTextures := _tempBoundTextures s;
     _dcIndex := _dcIndex s; _aIndex := _aIndex s; _iIndex := _iIndex s; _attributeBuffer :=
     _attributeBuffer s; _indexBuffer := _indexBuffer s; viewableBuffers := viewableBuffers
     s; uint16Arrays := uint16Arrays s; baseTextures := baseTextures s; _globalBatch :=
     _globalBatch s; textureGC_count := textureGC_count s; gl := gl s |}.
Definition set_packedGeometries (v : list (option Geometry)) (s : Renderer) : Renderer :=
  {| size := size s; vertexSize := vertexSize s; MAX_TEXTURES := MAX_TEXTURES s;
     CAN_UPLOAD_SAME_BUFFER := CAN_UPLOAD_SAME_BUFFER s; _vertexCount := _vertexCount s;
     _indexCount := _indexCount s; _bufferedElements := _bufferedElements s;
     _bufferedTextures := _bufferedTextures s; _bufferSize := _bufferSize s;
     _packedGeometries := v; _packedGeometryPoolSize := _packedGeometryPoolSize s; _flushId
     := _flushId s; _aBuffers := _aBuffers s; _iBuffers := _iBuffers s; _drawCalls :=
     _drawCalls s; _textureArrays := _textureArrays s; _tempBoundTextures :=
     _tempBoundTextures s; _dcIndex := _dcIndex s; _aIndex := _aIndex s; _iIndex := _iIndex
     s; _attributeBuffer := _attributeBuffer s; _indexBuffer := _indexBuffer s;
     viewableBuffers := viewableBuffers s; uint16Arrays := uint16Arrays s; baseTextures :=
     baseTextures s; _globalBatch := _globalBatch s; textureGC_count := textureGC_count s; gl
     := gl s |}.
Definition set_packedGeometryPoolSize (v : nat) (s : Renderer) : Renderer :=
  {| size := size s; vertexSize := vertexSize s; MAX_TEXTURES := MAX_TEXTURES s;
     CAN_UPLOAD_SAME_BUFFER := CAN_UPLOAD_SAME_BUFFER s; _vertexCount := _vertexCount s;
     _indexCount := _indexCount s; _bufferedElements := _bufferedElements s;
     _bufferedTextures := _bufferedTextures s; _bufferSize := _bufferSize s;
     _packedGeometries := _packedGeometries s; _packedGeometryPoolSize := v; _flushId :=
     _flushId s; _aBuffers := _aBuffers s; _iBuffers := _iBuffers s; _drawCalls := _drawCalls
     s; _textureArrays := _textureArrays s; _tempBoundTextures := _tempBoundTextures s;
     _dcIndex := _dcIndex s; _aIndex := _aIndex s; _iIndex := _iIndex s; _attributeBuffer :=
     _attributeBuffer s; _indexBuffer := _indexBuffer s; viewableBuffers := viewableBuffers
     s; uint16Arrays := uint16Arrays s; baseTextures := baseTextures s; _globalBatch :=
     _globalBatch s; textureGC_count := textureGC_count s; gl := gl s |}.
Definition set_flushId (v : nat) (s : Renderer) : Renderer :=
  {| size := size s; vertexSize := vertexSize s; MAX_TEXTURES := MAX_TEXTURES s;
     CAN_UPLOAD_SAME_BUFFER := CAN_UPLOAD_SAME_BUFFER s; _vertexCount := _vertexCount s;
     _indexCount := _indexCount s; _bufferedElements := _bufferedElements s;
     _bufferedTextures := _bufferedTextures s; _bufferSize := _bufferSize s;
     _packedGeometries := _packedGeometries s; _packedGeometryPoolSize :=
     _packedGeometryPoolSize s; _flushId := v; _aBuffers := _aBuffers s; _iBuffers :=
     _iBuffers s; _drawCalls := _drawCalls s; _textureArrays := _textureArrays s;
     _tempBoundTextures := _tempBoundTextures s; _dcIndex := _dcIndex s; _aIndex := _aIndex
     s; _iIndex := _iIndex s; _attributeBuffer := _attributeBuffer s; _indexBuffer :=
     _indexBuffer s; viewableBuffers := viewableBuffers s; uint16Arrays := uint16Arrays s;
     baseTextures := baseTextures s; _globalBatch := _globalBatch s; textureGC_count :=
     textureGC_count s; gl := gl s |}.
Definition set_aBuffers (v : BufferCache) (s : Renderer) : Renderer :=
  {| size := size s; vertexSize := vertexSize s; MAX_TEXTURES := MAX_TEXTURES s;
     CAN_UPLOAD_SAME_BUFFER := CAN_UPLOAD_SAME_BUFFER s; _vertexCount := _vertexCount s;
     _indexCount := _indexCount s; _bufferedElements := _bufferedElements s;
     _bufferedTextures := _bufferedTextures s; _bufferSize := _bufferSize s;
     _packedGeometries := _packedGeometries s; _packedGeometryPoolSize :=
     _packedGeometryPoolSize s; _flushId := _flushId s; _aBuffers := v; _iBuffers :=
     _iBuffers s; _drawCalls := _drawCalls s; _textureArrays := _textureArrays s;
     _tempBoundTextures := _tempBoundTextures s; _dcIndex := _dcIndex s; _aIndex := _aIndex
     s; _iIndex := _iIndex s; _attributeBuffer := _attributeBuffer s; _indexBuffer :=
     _indexBuffer s; viewableBuffers := viewableBuffers s; uint16Arrays := uint16Arrays s;
     baseTextures := baseTextures s; _globalBatch := _globalBatch s; textureGC_count :=
     textureGC_count s; gl := gl s |}.
Definition set_iBuffers (v : BufferCache) (s : Renderer) : Renderer :=
  {| size := size s; vertexSize := vertexSize s; MAX_TEXTURES := MAX_TEXTURES s;
     CAN_UPLOAD_SAME_BUFFER := CAN_UPLOAD_SAME_BUFFER s; _vertexCount := _vertexCount s;
     _indexCount := _indexCount s; _bufferedElements := _bufferedElements s;
     _bufferedTextures := _bufferedTextures s; _bufferSize := _bufferSize s;
     _packedGeometries := _packedGeometries s; _packedGeometryPoolSize :=
     _packedGeometryPoolSize s; _flushId := _flushId s; _aBuffers := _aBuffers s; _iBuffers
     := v; _drawCalls := _drawCalls s; _textureArrays := _textureArrays s; _tempBoundTextures
     := _tempBoundTextures s; _dcIndex := _dcIndex s; _aIndex := _aIndex s; _iIndex :=
     _iIndex s; _attributeBuffer := _attributeBuffer s; _indexBuffer := _indexBuffer s;
     viewableBuffers := viewableBuffers s; uint16Arrays := uint16Arrays s; baseTextures :=
     baseTextures s; _globalBatch := _globalBatch s; textureGC_count := textureGC_count s; gl
     := gl s |}.
Definition set_drawCalls (v : list BatchDrawCall) (s : Renderer) : Renderer :=
  {| size := size s; vertexSize := vertexSize s; MAX_TEXTURES := MAX_TEXTURES s;
     CAN_UPLOAD_SAME_BUFFER := CAN_UPLOAD_SAME_BUFFER s; _vertexCount := _vertexCount s;
     _indexCount := _indexCount s; _bufferedElements := _bufferedElements s;
     _bufferedTextures := _bufferedTextures s; _bufferSize := _bufferSize s;
     _packedGeometries := _packedGeometries s; _packedGeometryPoolSize :=
     _packedGeometryPoolSize s; _flushId := _flushId s; _aBuffers := _aBuffers s; _iBuffers
     := _iBuffers s; _drawCalls := v; _textureArrays := _textureArrays s; _tempBoundTextures
     := _tempBoundTextures s; _dcIndex := _dcIndex s; _aIndex := _aIndex s; _iIndex :=
     _iIndex s; _attributeBuffer := _attributeBuffer s; _indexBuffer := _indexBuffer s;
     viewableBuffers := viewableBuffers s; uint16Arrays := uint16Arrays s; baseTextures :=
     baseTextures s; _globalBatch := _globalBatch s; textureGC_count := textureGC_count s; gl
     := gl s |}.
Definition set_textureArrays (v : list BatchTextureArray) (s : Renderer) : Renderer :=
  {| size := size s; vertexSize := vertexSize s; MAX_TEXTURES := MAX_TEXTURES s;
     CAN_UPLOAD_SAME_BUFFER := CAN_UPLOAD_SAME_BUFFER s; _vertexCount := _vertexCount s;
     _indexCount := _indexCount s; _bufferedElements := _bufferedElements s;
     _bufferedTextures := _bufferedTextures s; _bufferSize := _bufferSize s;
     _packedGeometries := _packedGeometries s; _packedGeometryPoolSize :=
     _packedGeometryPoolSize s; _flushId := _flushId s; _aBuffers := _aBuffers s; _iBuffers
     := _iBuffers s; _drawCalls := _drawCalls s; _textureArrays := v; _tempBoundTextures :=
     _tempBoundTextures s; _dcIndex := _dcIndex s; _aIndex := _aIndex s; _iIndex := _iIndex
     s; _attributeBuffer := _attributeBuffer s; _indexBuffer := _indexBuffer s;
     viewableBuffers := viewableBuffers s; uint16Arrays := uint16Arrays s; baseTextures :=
     baseTextures s; _globalBatch := _globalBatch s; textureGC_count := textureGC_count s; gl
     := gl s |}.
Definition set_tempBoundTextures (v : list (option texid)) (s : Renderer) : Renderer :=
  {| size := size s; vertexSize := vertexSize s; MAX_TEXTURES := MAX_TEXTURES s;
     CAN_UPLOAD_SAME_BUFFER := CAN_UPLOAD_SAME_BUFFER s; _vertexCount := _vertexCount s;
     _indexCount := _indexCount s; _bufferedElements := _bufferedElements s;
     _bufferedTextures := _bufferedTextures s; _bufferSize := _bufferSize s;
     _packedGeometries := _packedGeometries s; _packedGeometryPoolSize :=
     _packedGeometryPoolSize s; _flushId := _flushId s; _aBuffers := _aBuffers s; _iBuffers
     := _iBuffers s; _drawCalls := _drawCalls s; _textureArrays := _textureArrays s;
     _tempBoundTextures := v; _dcIndex := _dcIndex s; _aIndex := _aIndex s; _iIndex :=
     _iIndex s; _attributeBuffer := _attributeBuffer s; _indexBuffer := _indexBuffer s;
     viewableBuffers := viewableBuffers s; uint16Arrays := uint16Arrays s; baseTextures :=
     baseTextures s; _globalBatch := _globalBatch s; textureGC_count := textureGC_count s; gl
     := gl s |}.
Definition set_dcIndex (v : nat) (s : Renderer) : Renderer :=
  {| size := size s; vertexSize := vertexSize s; MAX_TEXTURES := MAX_TEXTURES s;
     CAN_UPLOAD_SAME_BUFFER := CAN_UPLOAD_SAME_BUFFER s; _vertexCount := _vertexCount s;
     _indexCount := _indexCount s; _bufferedElements := _bufferedElements s;
     _bufferedTextures := _bufferedTextures s; _bufferSize := _bufferSize s;
     _packedGeometries := _packedGeometries s; _packedGeometryPoolSize :=
     _packedGeometryPoolSize s; _flushId := _flushId s; _aBuffers := _aBuffers s; _iBuffers
     := _iBuffers s; _drawCalls := _drawCalls s; _textureArrays := _textureArrays s;
     _tempBoundTextures := _tempBoundTextures s; _dcIndex := v; _aIndex := _aIndex s; _iIndex
     := _iIndex s; _attributeBuffer := _attributeBuffer s; _indexBuffer := _indexBuffer s;
     viewableBuffers := viewableBuffers s; uint16Arrays := uint16Arrays s; baseTextures :=
     baseTextures s; _globalBatch := _globalBatch s; textureGC_count := textureGC_count s; gl
     := gl s |}.
Definition set_aIndex (v : nat) (s : Renderer) : Renderer :=
  {| size := size s; vertexSize := vertexSize s; MAX_TEXTURES := MAX_TEXTURES s;
     CAN_UPLOAD_SAME_BUFFER := CAN_UPLOAD_SAME_BUFFER s; _vertexCount := _vertexCount s;
     _indexCount := _indexCount s; _bufferedElements := _bufferedElements s;
     _bufferedTextures := _bufferedTextures s; _bufferSize := _bufferSize s;
     _packedGeometries := _packedGeometries s; _packedGeometryPoolSize :=
     _packedGeometryPoolSize s; _flushId := _flushId s; _aBuffers := _aBuffers s; _iBuffers
     := _iBuffers s; _drawCalls := _drawCalls s; _textureArrays := _textureArrays s;
     _tempBoundTextures := _tempBoundTextures s; _dcIndex := _dcIndex s; _aIndex := v;
     _iIndex := _iIndex s; _attributeBuffer := _attributeBuffer s; _indexBuffer :=
     _indexBuffer s; viewableBuffers := viewableBuffers s; uint16Arrays := uint16Arrays s;
     baseTextures := baseTextures s; _globalBatch := _globalBatch s; textureGC_count :=
     textureGC_count s; gl := gl s |}.
Definition set_iIndex (v : nat) (s : Renderer) : Renderer :=
  {| size := size s; vertexSize := vertexSize s; MAX_TEXTURES := MAX_TEXTURES s;
     CAN_UPLOAD_SAME_BUFFER := CAN_UPLOAD_SAME_BUFFER s; _vertexCount := _vertexCount s;
     _indexCount := _indexCount s; _bufferedElements := _bufferedElements s;
     _bufferedTextures := _bufferedTextures s; _bufferSize := _bufferSize s;
     _packedGeometries := _packedGeometries s; _packedGeometryPoolSize :=
     _packedGeometryPoolSize s; _flushId := _flushId s; _aBuffers := _aBuffers s; _iBuffers
     := _iBuffers s; _drawCalls := _drawCalls s; _textureArrays := _textureArrays s;
     _tempBoundTextures := _tempBoundTextures s; _dcIndex := _dcIndex s; _aIndex := _aIndex
     s; _iIndex := v; _attributeBuffer := _attributeBuffer s; _indexBuffer := _indexBuffer s;
     viewableBuffers := viewableBuffers s; uint16Arrays := uint16Arrays s; baseTextures :=
     baseTextures s; _globalBatch := _globalBatch s; textureGC_count := textureGC_count s; gl
     := gl s |}.
Definition set_attributeBuffer (v : option bufid) (s : Renderer) : Renderer :=
  {| size := size s; vertexSize := vertexSize s; MAX_TEXTURES := MAX_TEXTURES s;
     CAN_UPLOAD_SAME_BUFFER := CAN_UPLOAD_SAME_BUFFER s; _vertexCount := _vertexCount s;
     _indexCount := _indexCount s; _bufferedElements := _bufferedElements s;
     _bufferedTextures := _bufferedTextures s; _bufferSize := _bufferSize s;
     _packedGeometries := _packedGeometries s; _packedGeometryPoolSize :=
     _packedGeometryPoolSize s; _flushId := _flushId s; _aBuffers := _aBuffers s; _iBuffers
     := _iBuffers s; _drawCalls := _drawCalls s; _textureArrays := _textureArrays s;
     _tempBoundTextures := _tempBoundTextures s; _dcIndex := _dcIndex s; _aIndex := _aIndex
     s; _iIndex := _iIndex s; _attributeBuffer := v; _indexBuffer := _indexBuffer s;
     viewableBuffers := viewableBuffers s; uint16Arrays := uint16Arrays s; baseTextures :=
     baseTextures s; _globalBatch := _globalBatch s; textureGC_count := textureGC_count s; gl
     := gl s |}.
Definition set_indexBuffer (v : option bufid) (s : Renderer) : Renderer :=
  {| size := size s; vertexSize := vertexSize s; MAX_TEXTURES := MAX_TEXTURES s;
     CAN_UPLOAD_SAME_BUFFER := CAN_UPLOAD_SAME_BUFFER s; _vertexCount := _vertexCount s;
     _indexCount := _indexCount s; _bufferedElements := _bufferedElements s;
     _bufferedTextures := _bufferedTextures s; _bufferSize := _bufferSize s;
     _packedGeometries := _packedGeometries s; _packedGeometryPoolSize :=
     _packedGeometryPoolSize s; _flushId := _flushId s; _aBuffers := _aBuffers s; _iBuffers
     := _iBuffers s; _drawCalls := _drawCalls s; _textureArrays := _textureArrays s;
     _tempBoundTextures := _tempBoundTextures s; _dcIndex := _dcIndex s; _aIndex := _aIndex
     s; _iIndex := _iIndex s; _attributeBuffer := _attributeBuffer s; _indexBuffer := v;
     viewableBuffers := viewableBuffers s; uint16Arrays := uint16Arrays s; baseTextures :=
     baseTextures s; _globalBatch := _globalBatch s; textureGC_count := textureGC_count s; gl
     := gl s |}.
Definition set_viewableBuffers (v : gmap bufid ViewableBuffer) (s : Renderer) : Renderer :=
  {| size := size s; vertexSize := vertexSize s; MAX_TEXTURES := MAX_TEXTURES s;
     CAN_UPLOAD_SAME_BUFFER := CAN_UPLOAD_SAME_BUFFER s; _vertexCount := _vertexCount s;
     _indexCount := _indexCount s; _bufferedElements := _bufferedElements s;
     _bufferedTextures := _bufferedTextures s; _bufferSize := _bufferSize s;
     _packedGeometries := _packedGeometries s; _packedGeometryPoolSize :=
     _packedGeometryPoolSize s; _flushId := _flushId s; _aBuffers := _aBuffers s; _iBuffers
     := _iBuffers s; _drawCalls := _drawCalls s; _textureArrays := _textureArrays s;
     _tempBoundTextures := _tempBoundTextures s; _dcIndex := _dcIndex s; _aIndex := _aIndex
     s; _iIndex := _iIndex s; _attributeBuffer := _attributeBuffer s; _indexBuffer :=
     _indexBuffer s; viewableBuffers := v; uint16Arrays := uint16Arrays s; baseTextures :=
     baseTextures s; _globalBatch := _globalBatch s; textureGC_count := textureGC_count s; gl
     := gl s |}.
Definition set_uint16Arrays (v : gmap bufid (list Z)) (s : Renderer) : Renderer :=
  {| size := size s; vertexSize := vertexSize s; MAX_TEXTURES := MAX_TEXTURES s;
     CAN_UPLOAD_SAME_BUFFER := CAN_UPLOAD_SAME_BUFFER s; _vertexCount := _vertexCount s;
     _indexCount := _indexCount s; _bufferedElements := _bufferedElements s;
     _bufferedTextures := _bufferedTextures s; _bufferSize := _bufferSize s;
     _packedGeometries := _packedGeometries s; _packedGeometryPoolSize :=
     _packedGeometryPoolSize s; _flushId := _flushId s; _aBuffers := _aBuffers s; _iBuffers
     := _iBuffers s; _drawCalls := _drawCalls s; _textureArrays := _textureArrays s;
     _tempBoundTextures := _tempBoundTextures s; _dcIndex := _dcIndex s; _aIndex := _aIndex
     s; _iIndex := _iIndex s; _attributeBuffer := _attributeBuffer s; _indexBuffer :=
     _indexBuffer s; viewableBuffers := viewableBuffers s; uint16Arrays := v; baseTextures :=
     baseTextures s; _globalBatch := _globalBatch s; textureGC_count := textureGC_count s; gl
     := gl s |}.
Definition set_baseTextures (v : gmap texid BaseTexture) (s : Renderer) : Renderer :=
  {| size := size s; vertexSize := vertexSize s; MAX_TEXTURES := MAX_TEXTURES s;
     CAN_UPLOAD_SAME_BUFFER := CAN_UPLOAD_SAME_BUFFER s; _vertexCount := _vertexCount s;
     _indexCount := _indexCount s; _bufferedElements := _bufferedElements s;
     _bufferedTextures := _bufferedTextures s; _bufferSize := _bufferSize s;
     _packedGeometries := _packedGeometries s; _packedGeometryPoolSize :=
     _packedGeometryPoolSize s; _flushId := _flushId s; _aBuffers := _aBuffers s; _iBuffers
     := _iBuffers s; _drawCalls := _drawCalls s; _textureArrays := _textureArrays s;
     _tempBoundTextures := _tempBoundTextures s; _dcIndex := _dcIndex s; _aIndex := _aIndex
     s; _iIndex := _iIndex s; _attributeBuffer := _attributeBuffer s; _indexBuffer :=
     _indexBuffer s; viewableBuffers := viewableBuffers s; uint16Arrays := uint16Arrays s;
     baseTextures := v; _globalBatch := _globalBatch s; textureGC_count := textureGC_count s;
     gl := gl s |}.
Definition set_globalBatch (v : nat) (s : Renderer) : Renderer :=
  {| size := size s; vertexSize := vertexSize s; MAX_TEXTURES := MAX_TEXTURES s;
     CAN_UPLOAD_SAME_BUFFER := CAN_UPLOAD_SAME_BUFFER s; _vertexCount := _vertexCount s;
     _indexCount := _indexCount s; _bufferedElements := _bufferedElements s;
     _bufferedTextures := _bufferedTextures s; _bufferSize := _bufferSize s;
     _packedGeometries := _packedGeometries s; _packedGeometryPoolSize :=
     _packedGeometryPoolSize s; _flushId := _flushId s; _aBuffers := _aBuffers s; _iBuffers
     := _iBuffers s; _drawCalls := _drawCalls s; _textureArrays := _textureArrays s;
     _tempBoundTextures := _tempBoundTextures s; _dcIndex := _dcIndex s; _aIndex := _aIndex
     s; _iIndex := _iIndex s; _attributeBuffer := _attributeBuffer s; _indexBuffer :=
     _indexBuffer s; viewableBuffers := viewableBuffers s; uint16Arrays := uint16Arrays s;
     baseTextures := baseTextures s; _globalBatch := v; textureGC_count := textureGC_count s;
     gl := gl s |}.
Definition set_gl (v : list GpuEvent) (s : Renderer) : Renderer :=
  {| size := size s; vertexSize := vertexSize s; MAX_TEXTURES := MAX_TEXTURES s;
     CAN_UPLOAD_SAME_BUFFER := CAN_UPLOAD_SAME_BUFFER s; _vertexCount := _vertexCount s;
     _indexCount := _indexCount s; _bufferedElements := _bufferedElements s;
     _bufferedTextures := _bufferedTextures s; _bufferSize := _bufferSize s;
     _packedGeometries := _packedGeometries s; _packedGeometryPoolSize :=
     _packedGeometryPoolSize s; _flushId := _flushId s; _aBuffers := _aBuffers s; _iBuffers
     := _iBuffers s; _drawCalls := _drawCalls s; _textureArrays := _textureArrays s;
     _tempBoundTextures := _tempBoundTextures s; _dcIndex := _dcIndex s; _aIndex := _aIndex
     s; _iIndex := _iIndex s; _attributeBuffer := _attributeBuffer s; _indexBuffer :=
     _indexBuffer s; viewableBuffers := viewableBuffers s; uint16Arrays := uint16Arrays s;
     baseTextures := baseTextures s; _globalBatch := _globalBatch s; textureGC_count :=
     textureGC_count s; gl := v |}.

(** ** Field updates of pooled objects *)

Definition set_dc_texArray (v : option nat) (d : BatchDrawCall) : BatchDrawCall :=
  {| dc_texArray := v; dc_blend := dc_blend d; dc_type := dc_type d;
     dc_start := dc_start d; dc_size := dc_size d |}.
Definition set_dc_blend (v : Z) (d : BatchDrawCall) : BatchDrawCall :=
  {| dc_texArray := dc_texArray d; dc_blend := v; dc_type := dc_type d;
     dc_start := dc_start d; dc_size := dc_size d |}.
Definition set_dc_start (v : nat) (d : BatchDrawCall) : BatchDrawCall :=
  {| dc_texArray := dc_texArray d; dc_blend := dc_blend d; dc_type := dc_type d;
     dc_start := v; dc_size := dc_size d |}.
Definition set_dc_size (v : nat) (d : BatchDrawCall) : BatchDrawCall :=
  {| dc_texArray := dc_texArray d; dc_blend := dc_blend d; dc_type := dc_type d;
     dc_start := dc_start d; dc_size := v |}.

Definition set_batchLocation (v : Z) (t : BaseTexture) : BaseTexture :=
  {| alphaMode := alphaMode t; _batchEnabled := _batchEnabled t;
     _batchLocation := v; touched := touched t |}.

(** [tex._batchEnabled = tick; tex.touched = touch]. *)
Definition stamp (tick touch : nat) (t : BaseTexture) : BaseTexture :=
  {| alphaMode := alphaMode t; _batchEnabled := tick;
     _batchLocation := _batchLocation t; touched := touch |}.

(** The batch system rewrites [_batchLocation] of some textures; [locs]
    lists the textures it rewrote. *)
Definition relocate (locs : gmap texid Z) (h : gmap texid BaseTexture) : gmap texid BaseTexture :=
  map_imap (λ t bt, Some (match locs !! t with
                          | Some l => set_batchLocation l bt
                          | None => bt
                          end)) h.

(** [drawCalls[k].field = ...]; throws when [drawCalls[k]] is [undefined]. *)
Definition withDrawCall (k : nat) (f : BatchDrawCall → BatchDrawCall) (s : Renderer) : option Renderer :=
  dc ← _drawCalls s !! k;
  Some (set_drawCalls (<[k := f dc]> (_drawCalls s)) s).

(** JavaScript truthiness of the number [alphaMode]. *)
Definition truthy (z : Z) : bool := negb (z =? 0)%Z.

(** ** Loop-local variables

    The [let] variables a method mutates inside its loop, gathered in a
    record that the loop body transforms. *)

(** The mutable locals of [packInterleavedGeometry] together with the
    contents of the two scratch buffers and of [_bufferedElements]. *)
Record PackState := mkPackState {
  p_aIndex : nat;
  p_iIndex : nat;
  p_packedVertices : Float;
  p_view : list Lane;
  p_indexBuffer : option (list Z);
  p_elements : list (option Element)
}.

(** The mutable locals of [buildDrawCalls].  The local [drawCall] always
    refers to [drawCalls[dcIndex]]: it is read from the pool at [dcIndex]
    whenever [dcIndex] changes. *)
Record DrawCallLocals := mkDrawCallLocals {
  l_dcIndex : nat;
  l_start : nat
}.

(** The mutable locals of [buildTexturesAndDrawCalls].  The local
    [texArray] always refers to [textureArrays[countTexArrays]]. *)
Record TextureLocals := mkTextureLocals {
  l_TICK : nat;
  l_countTexArrays : nat;
  l_tstart : nat
}.

Module Batch.
Section AbstractBatchRenderer.

(** *** Imports that are not part of these sources

    [nextPow2], [log2], [premultiplyBlendMode] and [premultiplyTint] come
    from [@pixi/utils].  [copyBoundTextures] and [boundArray] are the two
    methods of [renderer.batch] used here; they read the renderer and write
    only the array of bound textures, the [ids] of a texture array and the
    [_batchLocation] of textures, which is what they return. *)
Variable nextPow2 : Z → Z.
Variable log2 : Z → Z.
Variable premultiplyBlendMode : nat → Z → Z.
Variable premultiplyTint : Z → Q → Z.
Variable copyBoundTextures :
  Renderer → list (option texid) → nat → list (option texid) * gmap texid Z.
Variable boundArray :
  Renderer → BatchTextureArray → list (option texid) → nat → nat →
  list Z * list (option texid) * gmap texid Z.

(** *** Constructor, [initFlushBuffers], [contextChange], [onPrerender] *)

(** [for (k = 0; k < this.size / 4; k++)] runs [ceil(size / 4)] times. *)
Definition poolCeiling (size : nat) : nat := (size + 3) / 4.

(** The constructor followed by [initFlushBuffers].  [vertexSize] is
    assigned by the concrete plugin class; the environment supplies the
    existing base textures, [settings.SPRITE_BATCH_SIZE],
    [settings.CAN_UPLOAD_SAME_BUFFER] and the texture GC counter.  The
    shader, the shader generator, the geometry class and the WebGL state
    object play no part in batching and are left out. *)
Definition constructor (SPRITE_BATCH_SIZE vertexSize : nat) (CAN_UPLOAD_SAME_BUFFER : bool)
    (baseTextures : gmap texid BaseTexture) (textureGC_count : nat) : Renderer :=
  let size := SPRITE_BATCH_SIZE * 4 in
  {| size := size; vertexSize := vertexSize; MAX_TEXTURES := 1;
     CAN_UPLOAD_SAME_BUFFER := CAN_UPLOAD_SAME_BUFFER;
     _vertexCount := 0; _indexCount := 0;
     _bufferedElements := []; _bufferedTextures := []; _bufferSize := 0;
     _packedGeometries := []; _packedGeometryPoolSize := 2; _flushId := 0;
     _aBuffers := {| bc_length := None; bc_slots := ∅ |};
     _iBuffers := {| bc_length := None; bc_slots := ∅ |};
     _drawCalls := replicate (poolCeiling size) new_BatchDrawCall;
     _textureArrays := replicate (poolCeiling size) new_BatchTextureArray;
     _tempBoundTextures := [];
     _dcIndex := 0; _aIndex := 0; _iIndex := 0;
     _attributeBuffer := None; _indexBuffer := None;
     viewableBuffers := ∅; uint16Arrays := ∅;
     baseTextures := baseTextures; _globalBatch := 0;
     textureGC_count := textureGC_count; gl := [] |}.

(** [contextChange]; [maxTextures] is the value the device queries yield. *)
Definition contextChange (maxTextures : nat) (s : Renderer) : Renderer :=
  let s := set_MAX_TEXTURES maxTextures s in
  let s := set_packedGeometries
             (foldl (λ arr i, js_set arr i (Some tt)) (_packedGeometries s)
                    (seq 0 (_packedGeometryPoolSize s))) s in
  set_tempBoundTextures
    (foldl (λ arr i, js_set arr i None) (_tempBoundTextures s) (seq 0 (MAX_TEXTURES s))) s.

Definition onPrerender (s : Renderer) : Renderer := set_flushId 0 s.

(** *** Growable buffer pool *)

Definition set_bc_length (v : option Z) (c : BufferCache) : BufferCache :=
  {| bc_length := v; bc_slots := bc_slots c |}.
Definition set_bc_slot (k : Z) (b : bufid) (c : BufferCache) : BufferCache :=
  {| bc_length := bc_length c; bc_slots := <[k := b]> (bc_slots c) |}.

(** [if (cache.length <= roundedSizeIndex) this._iBuffers.length = roundedSizeIndex + 1]:
    the comparison is false while [length] is [undefined]. *)
Definition growLength (cache : BufferCache) (roundedSizeIndex : Z) (s : Renderer) : Renderer :=
  match bc_length cache with
  | Some l =>
      if (l <=? roundedSizeIndex)%Z
      then set_iBuffers (set_bc_length (Some (roundedSizeIndex + 1)%Z) (_iBuffers s)) s
      else s
  | None => s
  end.

Definition getAttributeBuffer (sz : Q) (s : Renderer) : bufid * Renderer :=
  let roundedP2 := nextPow2 (Qceiling (sz / 8)) in
  let roundedSizeIndex := log2 roundedP2 in
  let roundedSize := (roundedP2 * 8)%Z in
  let s := growLength (_aBuffers s) roundedSizeIndex s in
  match bc_slots (_aBuffers s) !! roundedSize with
  | Some buffer => (buffer, s)
  | None =>
      let buffer := fresh (dom (viewableBuffers s)) in
      let vb := new_ViewableBuffer (roundedSize * Z.of_nat (vertexSize s) * 4) in
      (buffer,
       set_aBuffers (set_bc_slot roundedSize buffer (_aBuffers s))
         (set_viewableBuffers (<[buffer := vb]> (viewableBuffers s)) s))
  end.

Definition getIndexBuffer (sz : Q) (s : Renderer) : bufid * Renderer :=
  let roundedP2 := nextPow2 (Qceiling (sz / 12)) in
  let roundedSizeIndex := log2 roundedP2 in
  let roundedSize := (roundedP2 * 12)%Z in
  let s := growLength (_iBuffers s) roundedSizeIndex s in
  match bc_slots (_iBuffers s) !! roundedSizeIndex with
  | Some buffer => (buffer, s)
  | None =>
      let buffer := fresh (dom (uint16Arrays s)) in
      (buffer,
       set_iBuffers (set_bc_slot roundedSizeIndex buffer (_iBuffers s))
         (set_uint16Arrays (<[buffer := new_Uint16Array roundedSize]> (uint16Arrays s)) s))
  end.

(** *** Geometry packer *)

(** The local [argb] of [packInterleavedGeometry]. *)
Definition argb (worldAlpha : Q) (_tintRGB alphaMode : Z) : Z :=
  let alpha := js_min worldAlpha 1 in
  if Qltb alpha 1 && truthy alphaMode
  then premultiplyTint _tintRGB alpha
  else (_tintRGB + js_shl (Ftruncate (binary64 (alpha * 255))) 24)%Z.

(** One turn of [for (let i = 0; i < vertexData.length; i += 2)], with
    [i = 2 * k]: six lanes are written at the attribute cursor, five of
    them through [float32View].  A write past the end of a typed array is
    ignored. *)
Definition packVertex (vertexData uvs : list Q) (color _batchLocation : Z)
    (k : nat) (st : nat * list Lane) : option (nat * list Lane) :=
  let i := 2 * k in
  let aIndex := st.1 in
  let view := st.2 in
  let view := <[aIndex := F32 (fround (vertexData !! i))]> view in
  let view := <[aIndex + 1 := F32 (fround (vertexData !! (i + 1)))]> view in
  let view := <[aIndex + 2 := F32 (fround (uvs !! i))]> view in
  let view := <[aIndex + 3 := F32 (fround (uvs !! (i + 1)))]> view in
  let view := <[aIndex + 4 := U32 (ToUint32 color)]> view in
  let view := <[aIndex + 5 := F32 (fround (Some (inject_Z _batchLocation)))]> view in
  Some (aIndex + 6, view).

(** [for (let i = 0; i < indices.length; i++) indexBuffer[iIndex++] = packedVertices + indices[i]]:
    the sum is a double, stored through a [Uint16Array]. *)
Fixpoint packIndices (packedVertices : Float) (indices : list Z) (iIndex : nat)
    (indexBuffer : list Z) : nat * list Z :=
  match indices with
  | [] => (iIndex, indexBuffer)
  | x :: rest =>
      packIndices packedVertices rest (S iIndex)
        (<[iIndex := ToUint16 (Ftruncate (js_add packedVertices (inject_Z x)))]> indexBuffer)
  end.

(** The body of the loop over [j]. *)
Definition packElement (textures : gmap texid BaseTexture) (j : nat) (st : PackState)
    : option PackState :=
  element ← js_get (p_elements st) j;
  tex ← textures !! baseTexture (_texture element);
  let color := argb (worldAlpha element) (_tintRGB element) (alphaMode tex) in
  av ← for_loop (packVertex (vertexData element) (uvs element) color (_batchLocation tex))
         0 (Nat.div2 (S (length (vertexData element)))) (p_aIndex st, p_view st);
  ii ← match indices element with
       | [] => Some (p_iIndex st, p_indexBuffer st)
       | _ => indexBuffer ← p_indexBuffer st;
              let r := packIndices (p_packedVertices st) (indices element)
                         (p_iIndex st) indexBuffer in
              Some (r.1, Some r.2)
       end;
  Some {| p_aIndex := av.1; p_iIndex := ii.1;
          p_packedVertices :=
            js_add (p_packedVertices st) (Qnat (length (vertexData element)) / 2);
          p_view := av.2; p_indexBuffer := ii.2;
          p_elements := js_set (p_elements st) j None |}.

Definition packInterleavedGeometry (start finish : nat) (s : Renderer) : option Renderer :=
  ab ← _attributeBuffer s;
  attributeBuffer ← viewableBuffers s !! ab;
  let indexBuffer := _indexBuffer s ≫= (λ ib, uint16Arrays s !! ib) in
  st ← for_loop (packElement (baseTextures s)) start (finish - start)
         {| p_aIndex := _aIndex s; p_iIndex := _iIndex s;
            p_packedVertices := js_div (Qnat (_aIndex s)) (Qnat (vertexSize s));
            p_view := lanes attributeBuffer; p_indexBuffer := indexBuffer;
            p_elements := _bufferedElements s |};
  let s := set_viewableBuffers
             (<[ab := {| byteLength := byteLength attributeBuffer; lanes := p_view st |}]>
                (viewableBuffers s)) s in
  let s := match _indexBuffer s, p_indexBuffer st with
           | Some ib, Some data => set_uint16Arrays (<[ib := data]> (uint16Arrays s)) s
           | _, _ => s
           end in
  Some (set_iIndex (p_iIndex st) (set_aIndex (p_aIndex st)
          (set_bufferedElements (p_elements st) s))).

(** *** Draw call builder *)

(** [drawCall.start = this._iIndex; this.packInterleavedGeometry(start, finish);
     drawCall.size = this._iIndex - drawCall.start]. *)
Definition packDrawCall (dcIndex start finish : nat) (s : Renderer) : option Renderer :=
  s ← withDrawCall dcIndex (set_dc_start (_iIndex s)) s;
  s ← packInterleavedGeometry start finish s;
  withDrawCall dcIndex (λ dc, set_dc_size (_iIndex s - dc_start dc) dc) s.

(** The body of the loop over [i]. *)
Definition buildDrawCallsStep (texArray : nat) (i : nat) (st : Renderer * DrawCallLocals)
    : option (Renderer * DrawCallLocals) :=
  let s := st.1 in
  let dcIndex := l_dcIndex st.2 in
  let start := l_start st.2 in
  sprite ← js_get (_bufferedElements s) i;
  tex ← baseTextures s !! baseTexture (_texture sprite);
  let spriteBlendMode :=
    premultiplyBlendMode (if truthy (alphaMode tex) then 1 else 0) (blendMode sprite) in
  drawCall ← _drawCalls s !! dcIndex;
  st ← (if (i <? start) && negb (dc_blend drawCall =? spriteBlendMode)%Z
        then
          s ← packDrawCall dcIndex start i s;
          s ← withDrawCall (S dcIndex) (set_dc_texArray (Some texArray)) s;
          Some (s, {| l_dcIndex := S dcIndex; l_start := i |})
        else Some st);
  s ← withDrawCall (l_dcIndex st.2) (set_dc_blend spriteBlendMode) st.1;
  Some (s, st.2).

Definition buildDrawCalls (texArray start finish : nat) (s : Renderer) : option Renderer :=
  let dcIndex := _dcIndex s in
  s ← withDrawCall dcIndex (λ dc, set_dc_blend (-1) (set_dc_texArray (Some texArray) dc)) s;
  st ← for_loop (buildDrawCallsStep texArray) start (finish - start)
         (s, {| l_dcIndex := dcIndex; l_start := start |});
  let s := st.1 in
  let dcIndex := l_dcIndex st.2 in
  let start := l_start st.2 in
  drawCall ← _drawCalls s !! dcIndex;
  st ← (if dc_start drawCall <? finish
        then s ← packDrawCall dcIndex start finish s; Some (s, S dcIndex)
        else Some (s, dcIndex));
  Some (set_dcIndex st.2 st.1).

(** *** Texture slot assigner *)

(** [batch.boundArray(texArray, boundTextures, TICK, MAX_TEXTURES)]. *)
Definition batch_boundArray (k TICK : nat) (s : Renderer) : option Renderer :=
  texArray ← _textureArrays s !! k;
  let r := boundArray s texArray (_tempBoundTextures s) TICK (MAX_TEXTURES s) in
  let texArray := {| ta_elements := ta_elements texArray; ta_ids := r.1.1;
                     ta_count := ta_count texArray |} in
  Some (set_baseTextures (relocate r.2 (baseTextures s))
          (set_tempBoundTextures r.1.2
             (set_textureArrays (<[k := texArray]> (_textureArrays s)) s))).

(** [batch.copyBoundTextures(boundTextures, MAX_TEXTURES)]. *)
Definition batch_copyBoundTextures (s : Renderer) : Renderer :=
  let r := copyBoundTextures s (_tempBoundTextures s) (MAX_TEXTURES s) in
  set_baseTextures (relocate r.2 (baseTextures s)) (set_tempBoundTextures r.1 s).

(** [texArray.elements[texArray.count++] = tex]. *)
Definition pushTexture (tex : texid) (a : BatchTextureArray) : BatchTextureArray :=
  {| ta_elements := js_set (ta_elements a) (ta_count a) (Some tex);
     ta_ids := ta_ids a; ta_count := S (ta_count a) |}.

(** The body of the loop over [i]. *)
Definition buildTexturesStep (touch : nat) (i : nat) (st : Renderer * TextureLocals)
    : option (Renderer * TextureLocals) :=
  let s := st.1 in
  let tex := js_get (_bufferedTextures s) i in
  let s := set_bufferedTextures (js_set (_bufferedTextures s) i None) s in
  tex ← tex;
  bt ← baseTextures s !! tex;
  if _batchEnabled bt =? l_TICK st.2 then Some (s, st.2)
  else
    texArray ← _textureArrays s !! l_countTexArrays st.2;
    st ← (if MAX_TEXTURES s <=? ta_count texArray
          then
            s ← batch_boundArray (l_countTexArrays st.2) (l_TICK st.2) s;
            s ← buildDrawCalls (l_countTexArrays st.2) (l_tstart st.2) i s;
            Some (s, {| l_TICK := S (l_TICK st.2);
                        l_countTexArrays := S (l_countTexArrays st.2);
                        l_tstart := i |})
          else Some (s, st.2));
    let s := st.1 in
    bt ← baseTextures s !! tex;
    let s := set_baseTextures (<[tex := stamp (l_TICK st.2) touch bt]> (baseTextures s)) s in
    texArray ← _textureArrays s !! l_countTexArrays st.2;
    Some (set_textureArrays
            (<[l_countTexArrays st.2 := pushTexture tex texArray]> (_textureArrays s)) s,
          st.2).

Definition buildTexturesAndDrawCalls (s : Renderer) : option Renderer :=
  let touch := textureGC_count s in
  let TICK := S (_globalBatch s) in
  let s := set_globalBatch TICK s in
  let s := batch_copyBoundTextures s in
  st ← for_loop (buildTexturesStep touch) 0 (_bufferSize s)
         (s, {| l_TICK := TICK; l_countTexArrays := 0; l_tstart := 0 |});
  let s := st.1 in
  texArray ← _textureArrays s !! l_countTexArrays st.2;
  st ← (if 0 <? ta_count texArray
        then
          s ← batch_boundArray (l_countTexArrays st.2) (l_TICK st.2) s;
          s ← buildDrawCalls (l_countTexArrays st.2) (l_tstart st.2) (_bufferSize s) s;
          Some (s, S (l_TICK st.2))
        else Some (s, l_TICK st.2));
  Some (set_globalBatch st.2 st.1).

(** *** Upload and drawing *)

(** The body of the loop of [bindAndClearTexArray]. *)
Definition bindAndClearStep (k : nat) (j : nat) (s : Renderer) : option Renderer :=
  texArray ← _textureArrays s !! k;
  let s := set_gl (gl s ++ [TextureBind (js_get (ta_elements texArray) j)
                                         (ta_ids texArray !! j)]) s in
  Some (set_textureArrays
          (<[k := {| ta_elements := js_set (ta_elements texArray) j None;
                     ta_ids := ta_ids texArray; ta_count := ta_count texArray |}]>
             (_textureArrays s)) s).

Definition bindAndClearTexArray (k : nat) (s : Renderer) : option Renderer :=
  texArray ← _textureArrays s !! k;
  s ← for_loop (bindAndClearStep k) 0 (ta_count texArray) s;
  texArray ← _textureArrays s !! k;
  Some (set_textureArrays
          (<[k := {| ta_elements := ta_elements texArray; ta_ids := ta_ids texArray;
                     ta_count := 0 |}]> (_textureArrays s)) s).

(** [packedGeometries[this._flushId]._buffer.update(attributeBuffer.rawBinaryData);
     packedGeometries[this._flushId]._indexBuffer.update(indexBuffer)]. *)
Definition uploadBuffers (s : Renderer) : option Renderer :=
  _ ← js_get (_packedGeometries s) (_flushId s);
  ab ← _attributeBuffer s;
  attributeBuffer ← viewableBuffers s !! ab;
  let indexBuffer := default [] (_indexBuffer s ≫= (λ ib, uint16Arrays s !! ib)) in
  Some (set_gl (gl s ++ [BufferUpdate (_flushId s) (lanes attributeBuffer);
                         IndexBufferUpdate (_flushId s) indexBuffer]) s).

Definition updateGeometry (s : Renderer) : option Renderer :=
  if CAN_UPLOAD_SAME_BUFFER s then
    s ← uploadBuffers s;
    Some (set_gl (gl s ++ [UpdateBuffers]) s)
  else
    let s := if _packedGeometryPoolSize s <=? _flushId s
             then set_packedGeometries (js_set (_packedGeometries s) (_flushId s) (Some tt))
                    (set_packedGeometryPoolSize (S (_packedGeometryPoolSize s)) s)
             else s in
    s ← uploadBuffers s;
    let s := set_gl (gl s ++ [GeometryBind (_flushId s); UpdateBuffers]) s in
    Some (set_flushId (S (_flushId s)) s).

(** The body of the loop of [drawBatches]; [curTexArray] is its local. *)
Definition drawBatchesStep (i : nat) (st : Renderer * option nat)
    : option (Renderer * option nat) :=
  let s := st.1 in
  drawCall ← _drawCalls s !! i;
  st ← (if decide (st.2 = dc_texArray drawCall) then Some st
        else
          texArray ← dc_texArray drawCall;
          s ← bindAndClearTexArray texArray s;
          Some (s, dc_texArray drawCall));
  let s := st.1 in
  Some (set_gl (gl s ++ [SetBlendMode (dc_blend drawCall);
                         DrawElements (dc_type drawCall) (dc_size drawCall)
                                      (dc_start drawCall * 2)]) s,
        st.2).

Definition drawBatches (s : Renderer) : option Renderer :=
  st ← for_loop drawBatchesStep 0 (_dcIndex s) (s, None);
  Some st.1.

(** *** Flush orchestrator and element buffer *)

Definition flush (s : Renderer) : option Renderer :=
  if Qeq_bool (_vertexCount s) 0 then Some s
  else
    let r := getAttributeBuffer (_vertexCount s) s in
    let s := set_attributeBuffer (Some r.1) r.2 in
    let r := getIndexBuffer (Qnat (_indexCount s)) s in
    let s := set_indexBuffer (Some r.1) r.2 in
    let s := set_dcIndex 0 (set_iIndex 0 (set_aIndex 0 s)) in
    s ← buildTexturesAndDrawCalls s;
    s ← updateGeometry s;
    s ← drawBatches s;
    Some (set_indexCount 0 (set_vertexCount 0 (set_bufferSize 0 s))).

Definition stop (s : Renderer) : option Renderer := flush s.

(** [this._bufferedTextures[this._bufferSize] = element._texture.baseTexture;
     this._bufferedElements[this._bufferSize++] = element], after the two
    counters have been advanced. *)
Definition buffer (element : Element) (s : Renderer) : Renderer :=
  let s := set_vertexCount (_vertexCount s + Qnat (length (vertexData element)) / 2) s in
  let s := set_indexCount (_indexCount s + length (indices element)) s in
  let s := set_bufferedTextures
             (js_set (_bufferedTextures s) (_bufferSize s)
                     (Some (baseTexture (_texture element)))) s in
  let s := set_bufferedElements
             (js_set (_bufferedElements s) (_bufferSize s) (Some element)) s in
  set_bufferSize (S (_bufferSize s)) s.

Definition render (element : Element) (s : Renderer) : option Renderer :=
  if negb (valid (_texture element)) then Some s
  else
    s ← (if Qgtb (_vertexCount s + Qnat (length (vertexData element)) / 2) (Qnat (size s))
         then flush s else Some s);
    Some (buffer element s).

End AbstractBatchRenderer.
End Batch.

(** ** A concrete environment

    Stand-ins for the imports, used to run the model on concrete inputs. *)

(** Modelled from the spec: [nextPow2] and [log2] of [@pixi/utils] are not
    among the sources; a size-class is "the smallest power-of-two block ≥
    the requested capacity", and [log2] is its exponent. *)
Definition nextPow2_ref (v : Z) : Z := (2 ^ Z.log2_up (Z.max v 1))%Z.
Definition log2_ref (v : Z) : Z := Z.log2 v.

(** Modelled from the spec: the table [premultiplyBlendMode] of
    [@pixi/utils], "a fixed lookup indexed by [alphaMode][blendMode]" giving
    "two different effective blend functions for premultiplied vs. straight
    alpha".  Row 1 keeps the premultiplied modes and folds the straight-alpha
    modes 17, 18, 19 onto 0, 1, 3; row 0 does the converse. *)
Definition premultiplyBlendMode_ref (row : nat) (blendMode : Z) : Z :=
  match row with
  | O => if (blendMode =? 0)%Z then 17 else if (blendMode =? 1)%Z then 18
         else if (blendMode =? 3)%Z then 19 else blendMode
  | _ => if (blendMode =? 17)%Z then 0 else if (blendMode =? 18)%Z then 1
         else if (blendMode =? 19)%Z then 3 else blendMode
  end%Z.

(** Modelled from the spec: [premultiplyTint] of [@pixi/utils] "must
    recompute RGB channels, not just scale alpha": every channel is scaled
    by alpha and rounded, the alpha byte is [alpha * 255]. *)
Definition premultiplyTint_ref (tint : Z) (alpha : Q) : Z :=
  let channel (c : Z) := Qtruncate (inject_Z c * alpha + (1 # 2))%Q in
  let R := channel (Z.land (Z.shiftr tint 16) 255) in
  let G := channel (Z.land (Z.shiftr tint 8) 255) in
  let B := channel (Z.land tint 255) in
  (js_shl (Qtruncate (alpha * 255)) 24 + Z.shiftl R 16 + Z.shiftl G 8 + B)%Z.

(** Modelled from the spec: [renderer.batch] (BatchSystem.js) is not among
    the sources; it "finalize[s] which of the previously-bound texture units
    can be reused versus which need rebinding".  This stand-in knows of no
    texture bound beforehand and binds the textures of an array to the units
    [0 .. count - 1], the outcome when nothing can be reused. *)
Definition copyBoundTextures_ref (s : Renderer) (arr : list (option texid)) (maxTextures : nat)
    : list (option texid) * gmap texid Z :=
  (foldl (λ a i, js_set a i None) arr (seq 0 maxTextures), ∅).

Definition boundArray_ref (s : Renderer) (texArray : BatchTextureArray)
    (boundTextures : list (option texid)) (batchId maxTextures : nat)
    : list Z * list (option texid) * gmap texid Z :=
  let units := seq 0 (ta_count texArray) in
  (Z.of_nat <$> units,
   foldl (λ a i, js_set a i (js_get (ta_elements texArray) i)) boundTextures units,
   foldl (λ m i, match js_get (ta_elements texArray) i with
                 | Some t => <[t := Z.of_nat i]> m
                 | None => m
                 end) ∅ units).

Module Run.
Abbreviation flush :=
  (Batch.flush nextPow2_ref log2_ref premultiplyBlendMode_ref premultiplyTint_ref
     copyBoundTextures_ref boundArray_ref).
Abbreviation render :=
  (Batch.render nextPow2_ref log2_ref premultiplyBlendMode_ref premultiplyTint_ref
     copyBoundTextures_ref boundArray_ref).

(** A premultiplied base texture as created by the texture loader. *)
Definition texture0 : BaseTexture :=
  {| alphaMode := 1; _batchEnabled := 0; _batchLocation := 0; touched := 0 |}.

(** A quad sprite: four vertices, two triangles. *)
Definition quad (tex : texid) (blend : Z) : Element :=
  {| _texture := {| valid := true; baseTexture := tex |};
     vertexData := [0; 0; 1; 0; 1; 1; 0; 1]%Q;
     uvs := [0; 0; 1; 0; 1; 1; 0; 1]%Q;
     indices := [0; 1; 2; 0; 2; 3]%Z;
     worldAlpha := 1; _tintRGB := 16777215; blendMode := blend |}.
Arguments quad tex%_positive blend%_Z.

(** A renderer for 16 vertices on a device with [maxTextures] units. *)
Definition renderer (maxTextures : nat) : Renderer :=
  Batch.contextChange maxTextures
    (Batch.constructor 4 6 true (<[1%positive := texture0]> (<[2%positive := texture0]> ∅)) 0).

(** Submit the elements in order, then flush. *)
Definition frame (els : list Element) (s : Renderer) : option Renderer :=
  s ← foldl (λ acc e, s ← acc; render e s) (Some s) els;
  flush s.

(** Two quads with different textures, buffered and not yet flushed. *)
Definition loaded : Renderer :=
  Batch.buffer (quad 2 0) (Batch.buffer (quad 1 0) (renderer 1)).

(** [loaded] at the point where [flush] has fetched the scratch buffers and
    reset the cursors. *)
Definition packing : Renderer :=
  let r := Batch.getAttributeBuffer nextPow2_ref log2_ref (_vertexCount loaded) loaded in
  let s := set_attributeBuffer (Some r.1) r.2 in
  let r := Batch.getIndexBuffer nextPow2_ref log2_ref (Qnat (_indexCount s)) s in
  set_dcIndex 0 (set_iIndex 0 (set_aIndex 0 (set_indexBuffer (Some r.1) r.2))).

(** [packing] after both quads have been packed. *)
Definition packed : Renderer :=
  default packing (Batch.packInterleavedGeometry premultiplyTint_ref 0 2 packing).

(** The renderer after one, two and three frames that each submit the same
    two quads with different textures to a device with one texture unit. *)
Definition twoTextures : list Element := [quad 1 0; quad 2 0].
Definition frame1 : option Renderer := frame twoTextures (renderer 1).
Definition frame2 : option Renderer := s ← frame1; frame twoTextures s.
Definition frame3 : option Renderer := s ← frame2; frame twoTextures s.
(** [packing] after the textures have been assigned and the draw calls
    built, and then after the upload: the state in which [drawBatches]
    runs. *)
Definition built : Renderer :=
  default packing
    (Batch.buildTexturesAndDrawCalls premultiplyBlendMode_ref premultiplyTint_ref
       copyBoundTextures_ref boundArray_ref packing).
Definition uploaded : Renderer := default built (Batch.updateGeometry built).

(** Four quads, as many vertices as the renderer holds. *)
Definition full : Renderer :=
  Batch.buffer (quad 2 0) (Batch.buffer (quad 1 0) loaded).

(** A straight-alpha base texture and an orange quad at the opacity 0.6 (the
    nearest double), buffered in a renderer that knows this texture. *)
Definition straight : BaseTexture :=
  {| alphaMode := 0; _batchEnabled := 0; _batchLocation := 0; touched := 0 |}.
Definition faded : Element :=
  {| _texture := {| valid := true; baseTexture := 3%positive |};
     vertexData := [0; 0; 1; 0; 1; 1; 0; 1]%Q;
     uvs := [0; 0; 1; 0; 1; 1; 0; 1]%Q;
     indices := [0; 1; 2; 0; 2; 3]%Z;
     worldAlpha := 5404319552844595 # 9007199254740992;
     _tintRGB := 16744512; blendMode := 0 |}.
Definition fadedLoaded : Renderer :=
  Batch.buffer faded
    (Batch.contextChange 1 (Batch.constructor 4 6 true (<[3%positive := straight]> ∅) 0)).
End Run.

(** ** Vocabulary of the statements *)

(** The value stored for the local index [x] of an element whose first
    vertex is packed as vertex number [packedVertices]. *)
Definition remapIndex (packedVertices : Float) (x : Z) : Z :=
  ToUint16 (Ftruncate (js_add packedVertices (inject_Z x))).

(** The indices of [els] after remapping, element by element; every element
    moves the vertex number on by its own vertex count. *)
Fixpoint remapIndices (packedVertices : Float) (els : list Element) : list Z :=
  match els with
  | [] => []
  | e :: rest =>
      (remapIndex packedVertices <$> indices e) ++
      remapIndices (js_add packedVertices (Qnat (length (vertexData e)) / 2)) rest
  end.

(** The invariant of a drawable element (data model): positions come in
    pairs and every index refers to one of the element's position pairs. *)
Definition vertexCount (e : Element) : nat := length (vertexData e) / 2.




(** The [drawElements] calls in an event log: index count and byte offset. *)
Definition drawElementsCalls (log : list GpuEvent) : list (nat * nat) :=
  omap (λ ev, match ev with
              | DrawElements _ count offset => Some (count, offset)
              | _ => None
              end) log.

(** Attribute lanes written for one element: six per turn of the loop. *)
Definition lanesOf (e : Element) : nat := 6 * Nat.div2 (S (length (vertexData e))).

(** Sum of [w] over the slots [0 .. n - 1] of a JavaScript array. *)
Fixpoint sumUpto {A} (w : option A → nat) (arr : list (option A)) (n : nat) : nat :=
  match n with
  | O => 0
  | S n' => sumUpto w arr n' + w (js_get arr n')
  end.

Definition lanesIn (oe : option Element) : nat := from_option lanesOf 0 oe.
Definition indicesIn (oe : option Element) : nat :=
  from_option (λ e, length (indices e)) 0 oe.
Definition verticesIn (oe : option Element) : nat := from_option vertexCount 0 oe.

(** The capacity (in lanes, resp. indices) of every scratch buffer that
    exists. *)
Definition shapeA (s : Renderer) : gmap bufid nat :=
  (λ vb, length (lanes vb)) <$> viewableBuffers s.
Definition shapeI (s : Renderer) : gmap bufid nat :=
  length <$> uint16Arrays s.

(** The state of a flush that has dealt with the elements before [start]:
    relative to the state [s0] in which packing began, the buffers and
    caches are the same objects with the same capacities, the elements from
    [start] on are untouched, and the cursors have advanced by no more than
    the elements before [start] account for. *)
Record packFits (s0 : Renderer) (start : nat) (s : Renderer) : Prop := {
  pf_bufferSize : _bufferSize s = _bufferSize s0;
  pf_vertexSize : vertexSize s = vertexSize s0;
  pf_attributeBuffer : _attributeBuffer s = _attributeBuffer s0;
  pf_indexBuffer : _indexBuffer s = _indexBuffer s0;
  pf_aBuffers : _aBuffers s = _aBuffers s0;
  pf_iBuffers : _iBuffers s = _iBuffers s0;
  pf_shapeA : shapeA s = shapeA s0;
  pf_shapeI : shapeI s = shapeI s0;
  pf_elements : ∀ j, start ≤ j →
    js_get (_bufferedElements s) j = js_get (_bufferedElements s0) j;
  pf_aIndex : _aIndex s ≤ _aIndex s0 + sumUpto lanesIn (_bufferedElements s0) start;
  pf_iIndex : _iIndex s ≤ _iIndex s0 + sumUpto indicesIn (_bufferedElements s0) start
}.

(** A renderer whose counters agree with the buffered elements and whose
    caches hold buffers of the size-class they are filed under.  The
    attribute layout is the default one of six lanes per vertex. *)
Record consistent (nextPow2 log2 : Z → Z) (s : Renderer) : Prop := {
  c_vertexSize : vertexSize s = 6;
  c_elements : ∀ j, j < _bufferSize s →
    ∃ e, js_get (_bufferedElements s) j = Some e ∧
         Nat.even (length (vertexData e)) = true;
  c_vertexCount :
    (_vertexCount s == Qnat (sumUpto verticesIn (_bufferedElements s) (_bufferSize s)))%Q;
  c_indexCount :
    _indexCount s = sumUpto indicesIn (_bufferedElements s) (_bufferSize s);
  c_aBuffers : ∀ k b, bc_slots (_aBuffers s) !! k = Some b →
    shapeA s !! b = Some (Z.to_nat (k * Z.of_nat (vertexSize s)));
  c_iBuffers : ∀ k b, bc_slots (_iBuffers s) !! k = Some b →
    ∃ c, k = log2 (nextPow2 c) ∧ shapeI s !! b = Some (Z.to_nat (nextPow2 c * 12))
}.

(** The six lanes written for vertex [k] of an element: position, texture
    coordinates, packed colour, texture unit. *)
Definition vertexRecord (color _batchLocation : Z) (vertexData uvs : list Q) (k : nat)
    : list Lane :=
  [F32 (fround (vertexData !! (2 * k))); F32 (fround (vertexData !! (2 * k + 1)));
   F32 (fround (uvs !! (2 * k))); F32 (fround (uvs !! (2 * k + 1)));
   U32 (ToUint32 color); F32 (fround (Some (inject_Z _batchLocation)))].

(** The lanes of all vertices of an element, with the colour and the texture
    unit read from its base texture in [T]. *)
Definition elementRecords (premultiplyTint : Z → Q → Z) (T : gmap texid BaseTexture)
    (e : Element) : list Lane :=
  match T !! baseTexture (_texture e) with
  | Some tex =>
      mjoin (vertexRecord
               (Batch.argb premultiplyTint (worldAlpha e) (_tintRGB e) (alphaMode tex))
               (_batchLocation tex) (vertexData e) (uvs e)
             <$> seq 0 (Nat.div2 (S (length (vertexData e)))))
  | None => []
  end.

Definition attributeLanes (premultiplyTint : Z → Q → Z) (T : gmap texid BaseTexture)
    (els : list Element) : list Lane :=
  mjoin (elementRecords premultiplyTint T <$> els).

(** The blend mode an element is drawn with: its nominal blend mode looked up
    in the row of [premultiplyBlendMode] chosen by its texture's alpha mode. *)
Definition effectiveBlend (premultiplyBlendMode : nat → Z → Z) (T : gmap texid BaseTexture)
    (e : Element) : option Z :=
  tex ← T !! baseTexture (_texture e);
  Some (premultiplyBlendMode (if truthy (alphaMode tex) then 1 else 0) (blendMode e)).

(** The event log without the texture bindings. *)
Definition isTextureBind (ev : GpuEvent) : bool :=
  match ev with TextureBind _ _ => true | _ => false end.

Definition withoutTextureBinds (log : list GpuEvent) : list GpuEvent :=
  filter (λ ev, isTextureBind ev = false) log.

(** The two calls [drawBatches] makes for one draw call. *)
Definition drawEvents (dc : BatchDrawCall) : list GpuEvent :=
  [SetBlendMode (dc_blend dc); DrawElements (dc_type dc) (dc_size dc) (dc_start dc * 2)].

(** The texture bindings [bindAndClearTexArray] makes for a texture array. *)
Definition bindEvents (ta : BatchTextureArray) : list GpuEvent :=
  (λ j, TextureBind (js_get (ta_elements ta) j) (ta_ids ta !! j)) <$> seq 0 (ta_count ta).

(** The texture array at pool index [t] exists and is empty. *)
Definition cleared (arrays : list BatchTextureArray) (t : nat) : Prop :=
  ∃ ta, arrays !! t = Some ta ∧ ta_count ta = 0.

(** The pool of geometry objects covers every slot a flush can ask for:
    the slots below [_packedGeometryPoolSize] exist, and [_flushId] points
    at one of them (or, where a flush takes a new slot each time, at most
    just past them). *)
Definition geometryPoolOK (s : Renderer) : Prop :=
  0 < _packedGeometryPoolSize s ∧
  (if CAN_UPLOAD_SAME_BUFFER s
   then _flushId s < _packedGeometryPoolSize s
   else _flushId s ≤ _packedGeometryPoolSize s) ∧
  ∀ i, i < _packedGeometryPoolSize s → js_get (_packedGeometries s) i = Some tt.

(** The events of one upload to the geometry in slot [slot]. *)
Definition uploadEvents (canUploadSameBuffer : bool) (slot : nat) (attributes : list Lane)
    (indexData : list Z) : list GpuEvent :=
  [BufferUpdate slot attributes; IndexBufferUpdate slot indexData] ++
  (if canUploadSameBuffer then [UpdateBuffers] else [GeometryBind slot; UpdateBuffers]).

(** What building a batch leaves alone: the settings, the counters of the
    element buffer, the graphics context and the geometry pool.  The pools
    of draw calls and of texture arrays keep their length, and the draw-call
    cursor stays within its pool. *)
Record buildKeeps (s0 s : Renderer) : Prop := {
  bk_size : size s = size s0;
  bk_vertexSize : vertexSize s = vertexSize s0;
  bk_MAX_TEXTURES : MAX_TEXTURES s = MAX_TEXTURES s0;
  bk_canUpload : CAN_UPLOAD_SAME_BUFFER s = CAN_UPLOAD_SAME_BUFFER s0;
  bk_vertexCount : _vertexCount s = _vertexCount s0;
  bk_indexCount : _indexCount s = _indexCount s0;
  bk_bufferSize : _bufferSize s = _bufferSize s0;
  bk_textureGC : textureGC_count s = textureGC_count s0;
  bk_drawCalls : length (_drawCalls s) = length (_drawCalls s0);
  bk_textureArrays : length (_textureArrays s) = length (_textureArrays s0);
  bk_gl : gl s = gl s0;
  bk_packedGeometries : _packedGeometries s = _packedGeometries s0;
  bk_packedGeometryPoolSize : _packedGeometryPoolSize s = _packedGeometryPoolSize s0;
  bk_flushId : _flushId s = _flushId s0;
  bk_dcIndex : _dcIndex s ≤ length (_drawCalls s)
}.

(** What the upload and the drawing leave alone: the settings, the element
    buffer, the scratch buffers and their caches, the built draw calls and
    the textures. *)
Record drawKeeps (s0 s : Renderer) : Prop := {
  dk_size : size s = size s0;
  dk_vertexSize : vertexSize s = vertexSize s0;
  dk_MAX_TEXTURES : MAX_TEXTURES s = MAX_TEXTURES s0;
  dk_canUpload : CAN_UPLOAD_SAME_BUFFER s = CAN_UPLOAD_SAME_BUFFER s0;
  dk_vertexCount : _vertexCount s = _vertexCount s0;
  dk_indexCount : _indexCount s = _indexCount s0;
  dk_bufferSize : _bufferSize s = _bufferSize s0;
  dk_textureGC : textureGC_count s = textureGC_count s0;
  dk_textureArrays : length (_textureArrays s) = length (_textureArrays s0);
  dk_drawCalls : _drawCalls s = _drawCalls s0;
  dk_dcIndex : _dcIndex s = _dcIndex s0;
  dk_aIndex : _aIndex s = _aIndex s0;
  dk_iIndex : _iIndex s = _iIndex s0;
  dk_attributeBuffer : _attributeBuffer s = _attributeBuffer s0;
  dk_indexBuffer : _indexBuffer s = _indexBuffer s0;
  dk_viewableBuffers : viewableBuffers s = viewableBuffers s0;
  dk_uint16Arrays : uint16Arrays s = uint16Arrays s0;
  dk_aBuffers : _aBuffers s = _aBuffers s0;
  dk_iBuffers : _iBuffers s = _iBuffers s0;
  dk_bufferedElements : _bufferedElements s = _bufferedElements s0;
  dk_bufferedTextures : _bufferedTextures s = _bufferedTextures s0;
  dk_tempBoundTextures : _tempBoundTextures s = _tempBoundTextures s0;
  dk_baseTextures : baseTextures s = baseTextures s0;
  dk_globalBatch : _globalBatch s = _globalBatch s0
}.

(** No base texture carries a tick newer than the global one. *)
Definition ticksBounded (s : Renderer) : Prop :=
  map_Forall (λ _ bt, _batchEnabled bt ≤ _globalBatch s) (baseTextures s).

(** Inside one call of [buildTexturesAndDrawCalls] that started at global
    tick [g0]: no tick is newer than [TICK], and a texture with a tick newer
    than [g0] has been touched with [touch]. *)
Definition stampedHeap (g0 touch TICK : nat) (h : gmap texid BaseTexture) : Prop :=
  ∀ t bt, h !! t = Some bt →
    _batchEnabled bt ≤ TICK ∧ (g0 < _batchEnabled bt → touched bt = touch).

(** The texture [t] has been given a tick newer than [g0]. *)
Definition stampedSince (g0 : nat) (h : gmap texid BaseTexture) (t : texid) : Prop :=
  ∃ bt, h !! t = Some bt ∧ g0 < _batchEnabled bt.

(** The invariant of the loop of [buildTexturesAndDrawCalls]. *)
Definition texturesLoop (s : Renderer) (i : nat) (st : Renderer * TextureLocals) : Prop :=
  _globalBatch s < l_TICK st.2 ∧
  stampedHeap (_globalBatch s) (textureGC_count s) (l_TICK st.2) (baseTextures st.1) ∧
  (∀ j tex, j < i → js_get (_bufferedTextures s) j = Some tex →
     stampedSince (_globalBatch s) (baseTextures st.1) tex) ∧
  (∀ j, i ≤ j → js_get (_bufferedTextures st.1) j = js_get (_bufferedTextures s) j) ∧
  (∀ j, j < i → js_get (_bufferedTextures st.1) j = None).

(** The state in which [flush] calls [buildTexturesAndDrawCalls]: the two
    scratch buffers fetched, the three cursors at zero. *)
Definition flushPrepared (nextPow2 log2 : Z → Z) (s : Renderer) : Renderer :=
  let r := Batch.getAttributeBuffer nextPow2 log2 (_vertexCount s) s in
  let s := set_attributeBuffer (Some r.1) r.2 in
  let r := Batch.getIndexBuffer nextPow2 log2 (Qnat (_indexCount s)) s in
  let s := set_indexBuffer (Some r.1) r.2 in
  set_dcIndex 0 (set_iIndex 0 (set_aIndex 0 s)).

(** The renderer and the locals of [buildTexturesAndDrawCalls] after [i]
    turns of its loop over the buffered textures. *)
Definition afterTurns (premultiplyBlendMode : nat → Z → Z) (premultiplyTint : Z → Q → Z)
    (copyBoundTextures :
       Renderer → list (option texid) → nat → list (option texid) * gmap texid Z)
    (boundArray :
       Renderer → BatchTextureArray → list (option texid) → nat → nat →
       list Z * list (option texid) * gmap texid Z)
    (s : Renderer) (i : nat) : option (Renderer * TextureLocals) :=
  let touch := textureGC_count s in
  let TICK := S (_globalBatch s) in
  let s := set_globalBatch TICK s in
  let s := Batch.batch_copyBoundTextures copyBoundTextures s in
  for_loop (Batch.buildTexturesStep premultiplyBlendMode premultiplyTint boundArray touch)
    0 i (s, {| l_TICK := TICK; l_countTexArrays := 0; l_tstart := 0 |}).



(** * Properties *)

(** ** Arrays, loops and number conversions *)

Lemma js_set_lookup_eq {A} (arr : list (option A)) (i : nat) (v : option A) :
  js_set arr i v !! i = Some v.
Proof.
  unfold js_set. case_decide as Hi.
  - by apply list_lookup_insert_eq.
  - rewrite lookup_app_r by lia.
    rewrite lookup_app_r by (rewrite length_replicate; lia).
    rewrite length_replicate.
    by replace (i - length arr - (i - length arr)) with 0 by lia.
Qed.

Lemma js_get_set_eq {A} (arr : list (option A)) (i : nat) (v : option A) :
  js_get (js_set arr i v) i = v.
Proof. unfold js_get. by rewrite js_set_lookup_eq. Qed.

Lemma js_get_set_ne {A} (arr : list (option A)) (i j : nat) (v : option A) :
  i ≠ j → js_get (js_set arr i v) j = js_get arr j.
Proof.
  intros Hne. unfold js_get, js_set. case_decide as Hi.
  - by rewrite list_lookup_insert_ne.
  - destruct (decide (j < length arr)) as [Hj|Hj].
    + by rewrite lookup_app_l.
    + rewrite (lookup_ge_None_2 arr j) by lia.
      rewrite lookup_app_r by lia.
      destruct (decide (j - length arr < i - length arr)) as [Hlt|Hge].
      * rewrite lookup_app_l by (rewrite length_replicate; lia).
        rewrite lookup_replicate_2 by lia. done.
      * rewrite lookup_app_r by (rewrite length_replicate; lia).
        rewrite length_replicate.
        rewrite lookup_ge_None_2; [done | simpl; lia].
Qed.

Lemma js_set_length {A} (arr : list (option A)) (i : nat) (v : option A) :
  length (js_set arr i v) = max (length arr) (S i).
Proof.
  unfold js_set. case_decide.
  - rewrite length_insert. lia.
  - rewrite !length_app, length_replicate. simpl. lia.
Qed.

Lemma for_loop_S {St} (body : nat → St → option St) (from n : nat) (s : St) :
  for_loop body from (S n) s = body from s ≫= for_loop body (S from) n.
Proof. reflexivity. Qed.

Lemma Qtruncate_floor (x : Q) : (0 <= x)%Q → Qtruncate x = Qfloor x.
Proof.
  destruct x as [n d]. unfold Qle, Qtruncate, Qfloor. simpl. intros Hn.
  apply Z.quot_div_nonneg; lia.
Qed.

Lemma js_min_le_1 (a : Q) : (js_min a 1 <= 1)%Q.
Proof.
  unfold js_min. destruct (Qle_bool a 1) eqn:E.
  - by apply Qle_bool_iff.
  - apply Qle_refl.
Qed.

Lemma js_min_nonneg (a : Q) : (0 <= a)%Q → (0 <= js_min a 1)%Q.
Proof. unfold js_min. destruct (Qle_bool a 1); [done | discriminate]. Qed.

Lemma Qltb_lt (a b : Q) : Qltb a b = true ↔ (a < b)%Q.
Proof.
  unfold Qltb. rewrite negb_true_iff. split.
  - intros E. apply Qnot_le_lt. intros H. apply Qle_bool_iff in H. congruence.
  - intros H. destruct (Qle_bool b a) eqn:E; [|done].
    apply Qle_bool_iff in E. exfalso. by apply (Qlt_not_le a b).
Qed.

Lemma Qgtb_gt (a b : Q) : Qgtb a b = true ↔ (b < a)%Q.
Proof. apply (Qltb_lt b a). Qed.

(** *** Rounding to a double *)


Lemma round_half_even_le (x : Q) (z : Z) : (x <= inject_Z z)%Q → (round_half_even x ≤ z)%Z.
Proof.
  intros Hx. unfold round_half_even.
  pose proof (Qfloor_resp_le _ _ Hx) as Hf. rewrite Qfloor_Z in Hf.
  assert ((x - inject_Z (Qfloor x) ?= 1 # 2)%Q = Lt ∨ (Qfloor x + 1 ≤ z)%Z) as [-> | Hlt].
  { destruct (Z.eq_dec (Qfloor x) z) as [E | E]; [left | right; lia].
    apply Qlt_alt. rewrite E.
    apply Qle_lt_trans with (inject_Z z - inject_Z z)%Q.
    - apply Qplus_le_l. done.
    - assert (inject_Z z - inject_Z z == 0)%Q as -> by ring. reflexivity. }
  - done.
  - destruct (_ ?= _)%Q; [destruct (Z.even _) | |]; lia.
Qed.

Lemma round_half_even_nonneg (x : Q) : (0 <= x)%Q → (0 ≤ round_half_even x)%Z.
Proof.
  intros Hx. unfold round_half_even.
  pose proof (Qfloor_resp_le _ _ Hx) as Hf. change (Qfloor 0) with 0%Z in Hf.
  destruct (_ ?= _)%Q; [destruct (Z.even _) | |]; lia.
Qed.

Lemma Qpower2_pos (e : Z) : (0 < 2 ^ e)%Q.
Proof. by apply Qpower_0_lt. Qed.

Lemma Qpower2_Z (n : Z) : (0 ≤ n)%Z → (2 ^ n == inject_Z (2 ^ n))%Q.
Proof. intros Hn. by rewrite Zpower_Qpower. Qed.

(** [ilog2] never overshoots. *)
Lemma ilog2_le (x : Q) : (0 < x)%Q → (2 ^ ilog2 x <= x)%Q.
Proof.
  intros Hx. unfold ilog2.
  set (e := (Z.log2 (Qnum x) - Z.log2 (Z.pos (Qden x)))%Z).
  destruct (Qle_bool (2 ^ e) x) eqn:E; [by apply Qle_bool_iff |].
  destruct x as [n d]. cbn [Qnum Qden] in *.
  assert (0 < n)%Z as Hn by (unfold Qlt in Hx; simpl in Hx; lia).
  pose proof (Z.log2_spec n Hn) as [Hn1 _].
  pose proof (Z.log2_spec (Z.pos d) (Pos2Z.is_pos d)) as [_ Hd2].
  pose proof (Z.log2_nonneg n) as Hln. pose proof (Z.log2_nonneg (Z.pos d)) as Hld.
  assert (e - 1 = Z.log2 n - (Z.log2 (Z.pos d) + 1))%Z as -> by (subst e; lia).
  rewrite Qpower_minus by done.
  rewrite !Qpower2_Z by lia.
  apply Qle_shift_div_r.
  - change 0%Q with (inject_Z 0). rewrite <- Zlt_Qlt. lia.
  - apply Qle_trans with (inject_Z n).
    + rewrite <- Zle_Qle. lia.
    + unfold Qle, Qmult, inject_Z. cbn [Qnum Qden].
      rewrite Pos.mul_1_r, Z.mul_1_r.
      apply Z.mul_le_mono_nonneg_l; [lia |].
      change (Z.log2 (Z.pos d) + 1)%Z with (Z.succ (Z.log2 (Z.pos d))). lia.
Qed.

Lemma ilog2_lt (x : Q) (k : Z) : (0 < x)%Q → (x < 2 ^ k)%Q → (ilog2 x < k)%Z.
Proof.
  intros Hx Hk. apply (Qpower_lt_compat_l_inv 2); [| done].
  apply Qle_lt_trans with x; [by apply ilog2_le | done].
Qed.

(** The unit in the last place of a double between 0 and a whole number
    below 2^53 is at most 1, and rounding keeps the number in that range. *)
Lemma binary64_scale_nonpos (x : Q) (K : Z) :
  (0 < x)%Q → (x <= inject_Z K)%Q → (K < 2 ^ 53)%Z →
  (Z.max (ilog2 (Qabs x) - (53 - 1)) (-1074) ≤ 0)%Z.
Proof.
  intros Hx0 HxK HK. assert (ilog2 (Qabs x) < 53)%Z; [| lia].
  assert (Qabs x == x)%Q as Ha by (apply Qabs_pos; by apply Qlt_le_weak).
  apply ilog2_lt; [by rewrite Ha |]. rewrite Ha.
  apply Qle_lt_trans with (inject_Z K); [done |].
  rewrite Qpower2_Z by lia. rewrite <- Zlt_Qlt. done.
Qed.

Lemma binary64_mantissa_le (x : Q) (K : Z) :
  (0 < x)%Q → (x <= inject_Z K)%Q → (K < 2 ^ 53)%Z →
  let e := Z.max (ilog2 (Qabs x) - (53 - 1)) (-1074) in
  let m := round_half_even (Qabs x / 2 ^ e) in
  (0 ≤ m ≤ K * 2 ^ (- e))%Z.
Proof.
  intros Hx0 HxK HK e m.
  pose proof (binary64_scale_nonpos x K Hx0 HxK HK) as He. fold e in He.
  assert (Qabs x == x)%Q as Ha by (apply Qabs_pos; by apply Qlt_le_weak).
  subst m. split.
  - apply round_half_even_nonneg. rewrite Ha.
    apply Qle_shift_div_l; [apply Qpower2_pos |]. rewrite Qmult_0_l. by apply Qlt_le_weak.
  - apply round_half_even_le. rewrite Ha.
    apply Qle_shift_div_r; [apply Qpower2_pos |].
    rewrite inject_Z_mult, <- Qpower2_Z by lia.
    rewrite <- Qmult_assoc, <- Qpower_plus by done.
    replace (- e + e)%Z with 0%Z by lia. by rewrite Qmult_1_r.
Qed.

Lemma binary64_value_le (x : Q) (K : Z) :
  (0 < x)%Q → (x <= inject_Z K)%Q → (K < 2 ^ 53)%Z →
  let e := Z.max (ilog2 (Qabs x) - (53 - 1)) (-1074) in
  let m := round_half_even (Qabs x / 2 ^ e) in
  (0 <= inject_Z m * 2 ^ e <= inject_Z K)%Q.
Proof.
  intros Hx0 HxK HK e m.
  pose proof (binary64_scale_nonpos x K Hx0 HxK HK) as He. fold e in He.
  pose proof (binary64_mantissa_le x K Hx0 HxK HK) as [Hm0 HmK].
  fold e in Hm0, HmK. fold m in Hm0, HmK. split.
  - apply Qmult_le_0_compat; [| apply Qlt_le_weak, Qpower2_pos].
    change 0%Q with (inject_Z 0). by rewrite <- Zle_Qle.
  - apply Qle_trans with (inject_Z (K * 2 ^ (- e)) * 2 ^ e)%Q.
    + apply Qmult_le_compat_r; [by rewrite <- Zle_Qle | apply Qlt_le_weak, Qpower2_pos].
    + rewrite inject_Z_mult, <- Qpower2_Z by lia.
      rewrite <- Qmult_assoc, <- Qpower_plus by done.
      replace (- e + e)%Z with 0%Z by lia. rewrite Qmult_1_r. apply Qle_refl.
Qed.

(** A double product or sum that lies between 0 and a whole number below
    2^53 rounds to a number in the same range. *)
Lemma binary64_range (x : Q) (K : Z) :
  (0 <= x)%Q → (x <= inject_Z K)%Q → (K < 2 ^ 53)%Z →
  ∃ y, binary64 x = FNum y ∧ (0 <= y)%Q ∧ (y <= inject_Z K)%Q.
Proof.
  intros Hx0 HxK HK. unfold binary64, ieee_round.
  destruct (Qeq_bool x 0) eqn:E0.
  { exists 0%Q. split; [done |]. split; [apply Qle_refl |].
    apply Qeq_bool_iff in E0. by rewrite <- E0. }
  assert (0 < x)%Q as Hpos.
  { apply Qle_lteq in Hx0 as [H | H]; [done |].
    apply Qeq_bool_neq in E0. exfalso. apply E0. by symmetry. }
  cbv zeta.
  pose proof (binary64_value_le x K Hpos HxK HK) as [Hr0 HrK].
  pose proof (binary64_mantissa_le x K Hpos HxK HK) as [Hm0 _].
  cbv zeta in Hr0, HrK, Hm0.
  set (e := Z.max (ilog2 (Qabs x) - (53 - 1)) (-1074)) in *.
  set (m := round_half_even (Qabs x / 2 ^ e)) in *.
  assert (Qle_bool (2 ^ 1024) (Qred (inject_Z m * 2 ^ e)) = false) as ->.
  { destruct (Qle_bool _ _) eqn:E; [| done]. exfalso.
    apply Qle_bool_iff in E. rewrite Qred_correct in E.
    assert (2 ^ 1024 <= inject_Z K)%Q as Hbad by (by apply Qle_trans with (inject_Z m * 2 ^ e)%Q).
    rewrite Qpower2_Z in Hbad by lia. rewrite <- Zle_Qle in Hbad.
    assert (2 ^ 53 < 2 ^ 1024)%Z by (by apply Z.pow_lt_mono_r). lia. }
  assert (Qltb x 0 = false) as ->.
  { unfold Qltb. apply negb_false_iff, Qle_bool_iff. done. }
  destruct (m =? 0)%Z.
  - exists 0%Q. split; [done |]. split; [apply Qle_refl |].
    by apply Qle_trans with (inject_Z m * 2 ^ e)%Q.
  - eexists. split; [reflexivity |]. by rewrite Qred_correct.
Qed.


(** The alpha byte, the integral part of the double [alpha * 255], is a
    whole number between 0 and 255. *)
Lemma alpha_byte_range (alpha : Q) :
  (0 <= alpha)%Q → (alpha <= 1)%Q →
  (0 ≤ Ftruncate (binary64 (alpha * 255)) ≤ 255)%Z.
Proof.
  intros H0 H1.
  assert (0 <= alpha * 255)%Q as Hlo.
  { apply Qmult_le_0_compat; [done | discriminate]. }
  assert (alpha * 255 <= inject_Z 255)%Q as Hhi.
  { change (alpha * 255 <= 1 * 255)%Q.
    apply Qmult_le_compat_r; [done | discriminate]. }
  destruct (binary64_range _ 255 Hlo Hhi) as (y & -> & Hy0 & Hy1); [done |].
  cbn [Ftruncate]. rewrite Qtruncate_floor by done. split.
  - change 0%Z with (Qfloor 0). by apply Qfloor_resp_le.
  - change 255%Z with (Qfloor (inject_Z 255)). by apply Qfloor_resp_le.
Qed.

(** [tint + (a << 24)], stored through a [Uint32Array], is the tint in the
    low 24 bits under the byte [a]. *)
Lemma tint_under_alpha (tint a : Z) :
  (0 ≤ tint < 2 ^ 24)%Z → (0 ≤ a ≤ 255)%Z →
  ToUint32 (tint + js_shl a 24) = (tint + a * 2 ^ 24)%Z.
Proof.
  intros Ht Ha. unfold ToUint32, js_shl, ToInt32.
  rewrite Z.shiftl_mul_pow2 by lia.
  change (2 ^ 31)%Z with 2147483648%Z. change (2 ^ 32)%Z with 4294967296%Z.
  change (2 ^ 24)%Z with 16777216%Z in *.
  Z.div_mod_to_equations. lia.
Qed.

(** The two fields of a packed colour. *)
Lemma low24_high8 (tint a : Z) :
  (0 ≤ tint < 2 ^ 24)%Z → (0 ≤ a ≤ 255)%Z →
  Z.land (tint + a * 2 ^ 24) 16777215 = tint ∧
  Z.shiftr (tint + a * 2 ^ 24) 24 = a.
Proof.
  intros Ht Ha. split.
  - change 16777215%Z with (Z.ones 24). rewrite Z.land_ones by lia.
    change (2 ^ 24)%Z with 16777216%Z in *. Z.div_mod_to_equations. lia.
  - rewrite Z.shiftr_div_pow2 by lia.
    change (2 ^ 24)%Z with 16777216%Z in *. Z.div_mod_to_equations. lia.
Qed.

Section Properties.

Variable nextPow2 : Z → Z.
Variable log2 : Z → Z.
Variable premultiplyBlendMode : nat → Z → Z.
Variable premultiplyTint : Z → Q → Z.
Variable copyBoundTextures :
  Renderer → list (option texid) → nat → list (option texid) * gmap texid Z.
Variable boundArray :
  Renderer → BatchTextureArray → list (option texid) → nat → nat →
  list Z * list (option texid) * gmap texid Z.

Local Abbreviation getAttributeBuffer := (Batch.getAttributeBuffer nextPow2 log2).
Local Abbreviation getIndexBuffer := (Batch.getIndexBuffer nextPow2 log2).
Local Abbreviation argb := (Batch.argb premultiplyTint).
Local Abbreviation packElement := (Batch.packElement premultiplyTint).
Local Abbreviation packInterleavedGeometry := (Batch.packInterleavedGeometry premultiplyTint).
Local Abbreviation packDrawCall := (Batch.packDrawCall premultiplyTint).
Local Abbreviation buildDrawCallsStep := (Batch.buildDrawCallsStep premultiplyBlendMode premultiplyTint).
Local Abbreviation buildDrawCalls := (Batch.buildDrawCalls premultiplyBlendMode premultiplyTint).
Local Abbreviation batch_boundArray := (Batch.batch_boundArray boundArray).
Local Abbreviation batch_copyBoundTextures := (Batch.batch_copyBoundTextures copyBoundTextures).
Local Abbreviation buildTexturesStep :=
  (Batch.buildTexturesStep premultiplyBlendMode premultiplyTint boundArray).
Local Abbreviation buildTexturesAndDrawCalls :=
  (Batch.buildTexturesAndDrawCalls premultiplyBlendMode premultiplyTint copyBoundTextures boundArray).
Local Abbreviation flush :=
  (Batch.flush nextPow2 log2 premultiplyBlendMode premultiplyTint copyBoundTextures boundArray).
Local Abbreviation render :=
  (Batch.render nextPow2 log2 premultiplyBlendMode premultiplyTint copyBoundTextures boundArray).

(** ** Element buffer *)

(** C6. Submitting an element whose texture is not valid is a silent no-op:
    [render] returns normally and the renderer is left exactly as it was, so
    nothing is appended, no counter moves and no flush takes place. *)
Theorem render_invalid_texture_noop (element : Element) (s : Renderer) :
  valid (_texture element) = false → render element s = Some s.
Proof. intros Hv. unfold Batch.render. by rewrite Hv. Qed.

(** C7. Submitting an element whose texture is valid.  When the buffered
    vertex count plus the element's vertex count exceeds [size], [flush]
    runs first (and an exception of the flush propagates); when the capacity
    is met exactly or not reached, no flush runs.  The element and its base
    texture are then stored at position [_bufferSize] of the two parallel
    arrays, the other positions keep their contents, [_bufferSize] grows by
    one, and the vertex and index totals grow by the element's counts. *)
Theorem render_ready_texture (element : Element) (s : Renderer) :
  valid (_texture element) = true →
  let n := (Qnat (length (vertexData element)) / 2)%Q in
  ((Qnat (size s) < _vertexCount s + n)%Q →
     render element s = flush s ≫= (λ s1, Some (Batch.buffer element s1))) ∧
  ((_vertexCount s + n <= Qnat (size s))%Q →
     render element s = Some (Batch.buffer element s)) ∧
  (∀ s1 : Renderer,
     let s' := Batch.buffer element s1 in
     _bufferSize s' = S (_bufferSize s1) ∧
     js_get (_bufferedElements s') (_bufferSize s1) = Some element ∧
     js_get (_bufferedTextures s') (_bufferSize s1) = Some (baseTexture (_texture element)) ∧
     (∀ k, k ≠ _bufferSize s1 →
        js_get (_bufferedElements s') k = js_get (_bufferedElements s1) k ∧
        js_get (_bufferedTextures s') k = js_get (_bufferedTextures s1) k) ∧
     _vertexCount s' = (_vertexCount s1 + n)%Q ∧
     _indexCount s' = _indexCount s1 + length (indices element) ∧
     gl s' = gl s1).
Proof.
  intros Hv n. split; [| split].
  - intros Hgt. unfold Batch.render. rewrite Hv. simpl.
    apply Qgtb_gt in Hgt. fold n. by rewrite Hgt.
  - intros Hle. unfold Batch.render. rewrite Hv. simpl.
    fold n. unfold Qgtb. apply Qle_bool_iff in Hle. by rewrite Hle.
  - intros s1 s'. subst s'. unfold Batch.buffer. cbn.
    repeat split.
    + apply js_get_set_eq.
    + apply js_get_set_eq.
    + by apply js_get_set_ne.
    + by apply js_get_set_ne.
Qed.

(** ** Flush orchestrator *)

(** C8 (as amended). A flush with a buffered vertex count of zero returns at
    once and leaves the renderer exactly as it was: nothing reaches the
    graphics context, no buffer is fetched, and every cursor keeps the value
    it had. *)
Theorem flush_empty_noop (s : Renderer) :
  (_vertexCount s == 0)%Q → flush s = Some s.
Proof.
  intros H0. unfold Batch.flush. apply Qeq_bool_iff in H0. by rewrite H0.
Qed.

(** ** Growable buffer pool *)

Lemma growLength_aBuffers (c : BufferCache) (k : Z) (s : Renderer) :
  _aBuffers (Batch.growLength c k s) = _aBuffers s ∧
  viewableBuffers (Batch.growLength c k s) = viewableBuffers s ∧
  uint16Arrays (Batch.growLength c k s) = uint16Arrays s ∧
  bc_slots (_iBuffers (Batch.growLength c k s)) = bc_slots (_iBuffers s) ∧
  vertexSize (Batch.growLength c k s) = vertexSize s.
Proof.
  unfold Batch.growLength. destruct (bc_length c); [|done].
  by destruct (_ <=? _)%Z.
Qed.

(** C9. Fetching a scratch buffer of capacity [C] twice in direct succession
    yields the same buffer object both times, and the second call changes
    nothing (no second allocation).  On a miss the first call allocates a
    fresh block of the size-class [nextPow2 (ceil (C / granule)) * granule]
    (8 vertex records, resp. 12 indices) and caches it; on a hit it returns
    the cached block and leaves the stores of buffers untouched. *)
Theorem buffer_pool_reuse (C : Q) (s : Renderer) :
  let a := getAttributeBuffer C s in
  let i := getIndexBuffer C s in
  let aClass := (nextPow2 (Qceiling (C / 8)) * 8)%Z in
  let iP2 := nextPow2 (Qceiling (C / 12)) in
  (getAttributeBuffer C a.2 = a ∧
   match bc_slots (_aBuffers s) !! aClass with
   | None =>
       (a.1 ∉ dom (viewableBuffers s)) ∧
       viewableBuffers a.2 !! a.1 =
         Some (new_ViewableBuffer (aClass * Z.of_nat (vertexSize s) * 4)) ∧
       bc_slots (_aBuffers a.2) !! aClass = Some a.1
   | Some cached =>
       a.1 = cached ∧ viewableBuffers a.2 = viewableBuffers s ∧
       bc_slots (_aBuffers a.2) = bc_slots (_aBuffers s)
   end) ∧
  (getIndexBuffer C i.2 = i ∧
   match bc_slots (_iBuffers s) !! log2 iP2 with
   | None =>
       (i.1 ∉ dom (uint16Arrays s)) ∧
       uint16Arrays i.2 !! i.1 = Some (new_Uint16Array (iP2 * 12)) ∧
       bc_slots (_iBuffers i.2) !! log2 iP2 = Some i.1
   | Some cached =>
       i.1 = cached ∧ uint16Arrays i.2 = uint16Arrays s ∧
       bc_slots (_iBuffers i.2) = bc_slots (_iBuffers s)
   end).
Proof.
  intros a i aClass iP2. split.
  - subst a. unfold Batch.getAttributeBuffer, Batch.growLength. cbv zeta. fold aClass.
    set (k := log2 (nextPow2 (Qceiling (C / 8)))).
    destruct (bc_length (_aBuffers s)) as [l|] eqn:El;
      [destruct (l <=? k)%Z eqn:E|];
      destruct (bc_slots (_aBuffers s) !! aClass) as [cached|] eqn:Hc;
      repeat (progress (cbn; rewrite ?El, ?E, ?Hc, ?lookup_insert_eq));
      repeat split; try done; try apply is_fresh.
  - subst i. unfold Batch.getIndexBuffer, Batch.growLength. cbv zeta. fold iP2.
    set (k := log2 iP2).
    destruct (bc_length (_iBuffers s)) as [l|] eqn:El;
      [destruct (l <=? k)%Z eqn:E|];
      destruct (bc_slots (_iBuffers s) !! k) as [cached|] eqn:Hc;
      repeat (progress (cbn; rewrite ?El, ?E, ?Hc, ?lookup_insert_eq,
                          ?(proj2 (Z.leb_gt (k + 1) k)) by lia));
      repeat split; try done; try apply is_fresh.
Qed.

(** ** Geometry packer: the packed colour *)

Lemma packVertex_color (vertexData uvs : list Q) (color loc : Z) (k aIndex : nat)
    (view : list Lane) :
  ∃ view', Batch.packVertex vertexData uvs color loc k (aIndex, view)
             = Some (aIndex + 6, view') ∧
           length view' = length view ∧
           (aIndex + 4 < length view → view' !! (aIndex + 4) = Some (U32 (ToUint32 color))).
Proof.
  unfold Batch.packVertex. cbn [fst snd]. eexists. split; [reflexivity |]. split.
  - by rewrite !length_insert.
  - intros Hlt. rewrite list_lookup_insert_ne by lia.
    apply list_lookup_insert_eq. rewrite !length_insert. lia.
Qed.

(** The colour of a premultiplied texture below full opacity. *)
Lemma argb_premultiplied (worldAlpha : Q) (tint alphaMode : Z) :
  alphaMode ≠ 0%Z → (worldAlpha < 1)%Q →
  js_min worldAlpha 1 = worldAlpha ∧
  argb worldAlpha tint alphaMode = premultiplyTint tint worldAlpha.
Proof.
  intros Hm Hlt. assert (js_min worldAlpha 1 = worldAlpha) as Ha.
  { unfold js_min. destruct (Qle_bool worldAlpha 1) eqn:E; [done |].
    exfalso. apply Qlt_le_weak, Qle_bool_iff in Hlt. congruence. }
  split; [done |]. unfold Batch.argb. rewrite Ha.
  apply Qltb_lt in Hlt. rewrite Hlt.
  unfold truthy. by rewrite (proj2 (Z.eqb_neq alphaMode 0)).
Qed.

(** The colour in every other case: the tint under the alpha byte. *)
Lemma argb_straight (worldAlpha : Q) (tint alphaMode : Z) :
  (0 ≤ tint < 2 ^ 24)%Z → (0 <= worldAlpha)%Q →
  alphaMode = 0%Z ∨ (1 <= worldAlpha)%Q →
  let byte := Ftruncate (binary64 (js_min worldAlpha 1 * 255)) in
  let color := ToUint32 (argb worldAlpha tint alphaMode) in
  Z.land color 16777215 = tint ∧ Z.shiftr color 24 = byte ∧ (0 ≤ byte ≤ 255)%Z.
Proof.
  intros Ht Hw Hcase byte color.
  destruct (alpha_byte_range (js_min worldAlpha 1)) as (Hlo & Hhi).
  { by apply js_min_nonneg. } { apply js_min_le_1. }
  fold byte in Hlo, Hhi.
  assert (color = (tint + byte * 2 ^ 24)%Z) as ->.
  { subst color. unfold Batch.argb.
    assert (Qltb (js_min worldAlpha 1) 1 && truthy alphaMode = false) as ->.
    { destruct Hcase as [-> | Hge]; [by rewrite andb_false_r |].
      apply andb_false_iff. left. unfold Qltb.
      apply negb_false_iff, Qle_bool_iff.
      unfold js_min. destruct (Qle_bool worldAlpha 1); [done | apply Qle_refl]. }
    by apply tint_under_alpha. }
  destruct (low24_high8 tint _ Ht (conj Hlo Hhi)) as [Hl Hh].
  by repeat split.
Qed.

(** ** Geometry packer: cursors and remapped indices *)

Lemma for_loop_packVertex (vd uv : list Q) (c loc : Z) (n : nat) :
  ∀ (from a : nat) (view : list Lane),
    ∃ view', for_loop (Batch.packVertex vd uv c loc) from n (a, view)
               = Some (a + 6 * n, view') ∧
             length view' = length view.
Proof.
  induction n as [|n IH]; intros from a view.
  - exists view. simpl. split; [f_equal; f_equal; lia | done].
  - destruct (packVertex_color vd uv c loc from a view) as (v1 & H1 & Hl1 & _).
    destruct (IH (S from) (a + 6) v1) as (v2 & H2 & Hl2).
    exists v2. rewrite for_loop_S, H1. cbn [mbind option_bind]. rewrite H2.
    split; [f_equal; f_equal; lia | congruence].
Qed.

Lemma packIndices_spec (pv : Float) (idxs : list Z) :
  ∀ (i : nat) (buf : list Z),
    Batch.packIndices pv idxs i buf
    = (i + length idxs, list_inserts i (remapIndex pv <$> idxs) buf).
Proof.
  induction idxs as [|x rest IH]; intros i buf; simpl.
  - f_equal. lia.
  - rewrite IH. f_equal; [lia |].
    by rewrite list_insert_inserts_lt by lia.
Qed.

Lemma packElement_spec (T : gmap texid BaseTexture) (j : nat) (st st' : PackState) :
  packElement T j st = Some st' →
  ∃ e, js_get (p_elements st) j = Some e ∧
       p_aIndex st' = p_aIndex st + lanesOf e ∧
       length (p_view st') = length (p_view st) ∧
       p_iIndex st' = p_iIndex st + length (indices e) ∧
       p_packedVertices st' = js_add (p_packedVertices st) (Qnat (length (vertexData e)) / 2) ∧
       p_elements st' = js_set (p_elements st) j None ∧
       p_indexBuffer st' =
         (list_inserts (p_iIndex st) (remapIndex (p_packedVertices st) <$> indices e))
           <$> p_indexBuffer st.
Proof.
  unfold Batch.packElement. intros H.
  destruct (js_get (p_elements st) j) as [e|] eqn:He; [|done].
  cbn [mbind option_bind] in H.
  destruct (T !! baseTexture (_texture e)) as [tex|]; [|done].
  cbn [mbind option_bind] in H.
  destruct (for_loop_packVertex (vertexData e) (uvs e)
              (argb (worldAlpha e) (_tintRGB e) (alphaMode tex)) (_batchLocation tex)
              (Nat.div2 (S (length (vertexData e)))) 0 (p_aIndex st) (p_view st))
    as (view' & Hv & Hlen).
  rewrite Hv in H. cbn [mbind option_bind] in H. exists e. split; [done |].
  destruct (indices e) as [|x rest] eqn:Hi.
  - cbn [mbind option_bind] in H. injection H as <-. cbn.
    unfold lanesOf. repeat split; try done; try lia.
    by destruct (p_indexBuffer st).
  - destruct (p_indexBuffer st) as [d|] eqn:Hd; [|done].
    cbn [mbind option_bind] in H.
    rewrite packIndices_spec in H. injection H as <-. cbn [fst snd].
    cbn [p_aIndex p_view p_iIndex p_packedVertices p_elements p_indexBuffer].
    unfold lanesOf. repeat split; try done; try lia.
Qed.

Lemma remapIndices_length (pv : Float) (els : list Element) :
  length (remapIndices pv els) = sum_list ((λ e, length (indices e)) <$> els).
Proof.
  revert pv. induction els as [|e rest IH]; intros pv; simpl; [done |].
  by rewrite length_app, length_fmap, IH.
Qed.

(** The loop of [packInterleavedGeometry] over [n] elements from [start]. *)
Lemma pack_loop_spec (T : gmap texid BaseTexture) (n : nat) :
  ∀ (start : nat) (st st' : PackState),
    for_loop (packElement T) start n st = Some st' →
    ∃ els : list Element,
      length els = n ∧
      (∀ k e, els !! k = Some e → js_get (p_elements st) (start + k) = Some e) ∧
      p_aIndex st' = p_aIndex st + sum_list (lanesOf <$> els) ∧
      length (p_view st') = length (p_view st) ∧
      p_iIndex st' = p_iIndex st + length (remapIndices (p_packedVertices st) els) ∧
      p_indexBuffer st' =
        (list_inserts (p_iIndex st) (remapIndices (p_packedVertices st) els))
          <$> p_indexBuffer st ∧
      (∀ j, j < start ∨ start + n ≤ j →
         js_get (p_elements st') j = js_get (p_elements st) j).
Proof.
  induction n as [|n IH]; intros start st st' H.
  - simpl in H. injection H as <-. exists []. simpl.
    repeat split; try done; try lia.
    by destruct (p_indexBuffer st).
  - rewrite for_loop_S in H.
    destruct (packElement T start st) as [st1|] eqn:H1; [|done].
    cbn [mbind option_bind] in H.
    destruct (packElement_spec _ _ _ _ H1) as (e & He & Ha & Hv & Hi & Hp & Hel & Hb).
    destruct (IH _ _ _ H) as (els & Hlen & Hels & Ha' & Hv' & Hi' & Hb' & Hfr).
    exists (e :: els). split; [cbn [length]; by rewrite Hlen |].
    split; [| split; [| split; [| split; [| split]]]].
    + intros k e' Hk. destruct k as [|k]; simpl in Hk.
      * injection Hk as <-. by rewrite Nat.add_0_r.
      * specialize (Hels k e' Hk). rewrite Hel in Hels.
        rewrite js_get_set_ne in Hels by lia.
        by replace (start + S k) with (S start + k) by lia.
    + change (sum_list (lanesOf <$> e :: els))
        with (lanesOf e + sum_list (lanesOf <$> els)). lia.
    + congruence.
    + cbn [remapIndices]. rewrite Hi', Hi, Hp, length_app, length_fmap. lia.
    + cbn [remapIndices]. rewrite Hb', Hb, Hp, Hi.
      destruct (p_indexBuffer st) as [d|]; [|done].
      cbn [fmap option_fmap option_map]. f_equal.
      rewrite list_inserts_app_l, length_fmap.
      by rewrite (Nat.add_comm (length (indices e))).
    + intros j Hj. rewrite Hfr by lia. rewrite Hel.
      apply js_get_set_ne. lia.
Qed.

(** What [packInterleavedGeometry] does to the renderer: it packs the
    elements [els] found at [start .. finish - 1], rewrites the two scratch
    buffers in place, clears the packed slots of [_bufferedElements] and
    advances the two cursors; nothing else changes. *)
Lemma packInterleavedGeometry_spec (start finish : nat) (s s' : Renderer) :
  packInterleavedGeometry start finish s = Some s' →
  ∃ (els : list Element) (ab : bufid) (vb vb' : ViewableBuffer)
    (elements' : list (option Element)),
    let base := js_div (Qnat (_aIndex s)) (Qnat (vertexSize s)) in
    let arrays' :=
      match _indexBuffer s with
      | Some ib =>
          match uint16Arrays s !! ib with
          | Some d => <[ib := list_inserts (_iIndex s) (remapIndices base els) d]>
                        (uint16Arrays s)
          | None => uint16Arrays s
          end
      | None => uint16Arrays s
      end in
    s' = set_iIndex (_iIndex s + length (remapIndices base els))
           (set_aIndex (_aIndex s + sum_list (lanesOf <$> els))
              (set_bufferedElements elements'
                 (set_uint16Arrays arrays'
                    (set_viewableBuffers (<[ab := vb']> (viewableBuffers s)) s)))) ∧
    length els = finish - start ∧
    (∀ k e, els !! k = Some e → js_get (_bufferedElements s) (start + k) = Some e) ∧
    _attributeBuffer s = Some ab ∧
    viewableBuffers s !! ab = Some vb ∧
    length (lanes vb') = length (lanes vb) ∧
    byteLength vb' = byteLength vb ∧
    (∀ j, j < start ∨ start + (finish - start) ≤ j →
       js_get elements' j = js_get (_bufferedElements s) j).
Proof.
  unfold Batch.packInterleavedGeometry. intros H.
  destruct (_attributeBuffer s) as [ab|] eqn:Hab; [|done].
  cbn [mbind option_bind] in H.
  destruct (viewableBuffers s !! ab) as [vb|] eqn:Hvb; [|done].
  cbn [mbind option_bind] in H.
  match type of H with
  | (for_loop ?b ?i ?n ?st ≫= _) = _ => destruct (for_loop b i n st) as [st'|] eqn:Hloop
  end; [|done].
  cbn [mbind option_bind] in H.
  destruct (pack_loop_spec _ _ _ _ _ Hloop)
    as (els & Hlen & Hels & Ha & Hv & Hi & Hb & Hfr).
  cbn [p_aIndex p_iIndex p_packedVertices p_view p_indexBuffer p_elements] in *.
  exists els, ab, vb, {| byteLength := byteLength vb; lanes := p_view st' |},
    (p_elements st').
  cbv zeta. split; [| by repeat split].
  injection H as <-. rewrite Ha, Hi. cbn [_indexBuffer set_viewableBuffers].
  destruct (_indexBuffer s) as [ib|] eqn:Hib; cbn [mbind option_bind] in Hb.
  - destruct (uint16Arrays s !! ib) as [d|] eqn:Hd; rewrite Hb;
      cbn [fmap option_fmap option_map]; [done |].
    clear. by destruct s.
  - clear. by destruct s.
Qed.

Lemma Qnat_le (a b : nat) : a ≤ b → (Qnat a <= Qnat b)%Q.
Proof. intros H. unfold Qnat. rewrite <- Zle_Qle. lia. Qed.

Lemma Qnat_mult (a b : nat) : (Qnat (a * b) == Qnat a * Qnat b)%Q.
Proof. unfold Qnat. by rewrite Nat2Z.inj_mul, inject_Z_mult. Qed.

Lemma Qnat_nonneg (a : nat) : (0 <= Qnat a)%Q.
Proof. unfold Qnat. change 0%Q with (inject_Z 0). rewrite <- Zle_Qle. lia. Qed.

Lemma Qnat_half (n : nat) :
  Nat.even n = true → (Qnat n / 2 == Qnat (n / 2))%Q.
Proof.
  intros He. apply Nat.even_spec in He as [m ->].
  rewrite (Nat.mul_comm 2 m), Nat.div_mul by done.
  unfold Qnat. rewrite Nat2Z.inj_mul, inject_Z_mult. simpl (inject_Z (Z.of_nat 2)).
  field.
Qed.

Lemma Qnat_plus (a b : nat) : (Qnat (a + b) == Qnat a + Qnat b)%Q.
Proof. unfold Qnat. by rewrite Nat2Z.inj_add, inject_Z_plus. Qed.










(** ** Draw call builder *)

Lemma for_loop_inv {St} (P : nat → St → Prop) (body : nat → St → option St) (n : nat) :
  ∀ (from : nat) (s s' : St),
    P from s →
    (∀ i st st', from ≤ i < from + n → P i st → body i st = Some st' → P (S i) st') →
    for_loop body from n s = Some s' →
    P (from + n) s'.
Proof.
  induction n as [|n IH]; intros from s s' HP Hstep H.
  - simpl in H. injection H as <-. by rewrite Nat.add_0_r.
  - rewrite for_loop_S in H. destruct (body from s) as [s1|] eqn:H1; [|done].
    cbn [mbind option_bind] in H.
    replace (from + S n) with (S from + n) by lia.
    apply (IH (S from) s1 s'); [| | done].
    + apply (Hstep from s s1); [lia | done | done].
    + intros i st st' Hi. apply Hstep. lia.
Qed.

(** A loop that runs to its end has run through every shorter loop. *)
Lemma for_loop_prefix {St} (body : nat → St → option St) (n : nat) :
  ∀ (from : nat) (s s' : St),
    for_loop body from n s = Some s' →
    ∀ i, i ≤ n → is_Some (for_loop body from i s).
Proof.
  induction n as [|n IH]; intros from s s' H i Hi.
  - replace i with 0 by lia. by eexists.
  - destruct i as [|i]; [by eexists |].
    rewrite for_loop_S in H |- *.
    destruct (body from s) as [s1|]; [|done].
    cbn [mbind option_bind] in H |- *. apply (IH _ _ _ H). lia.
Qed.


Lemma withDrawCall_spec (k : nat) (f : BatchDrawCall → BatchDrawCall) (s s' : Renderer) :
  withDrawCall k f s = Some s' →
  ∃ dc, _drawCalls s !! k = Some dc ∧
        s' = set_drawCalls (<[k := f dc]> (_drawCalls s)) s.
Proof.
  unfold withDrawCall. intros H.
  destruct (_drawCalls s !! k) as [dc|]; [|done].
  injection H as <-. by exists dc.
Qed.

(** The packer neither reads nor writes the pool of draw calls. *)
Lemma packInterleavedGeometry_drawCalls (start finish : nat) (d : list BatchDrawCall)
    (s : Renderer) :
  packInterleavedGeometry start finish (set_drawCalls d s)
  = set_drawCalls d <$> packInterleavedGeometry start finish s.
Proof.
  unfold Batch.packInterleavedGeometry. cbn.
  destruct (_attributeBuffer s) as [ab|]; [|done]. cbn.
  destruct (viewableBuffers s !! ab) as [vb|]; [|done]. cbn.
  match goal with
  | |- (for_loop ?b ?i ?n ?st ≫= _) = _ => destruct (for_loop b i n st) as [st'|]
  end; [|done].
  cbn. destruct (_indexBuffer s); [|done].
  by destruct (p_indexBuffer st').
Qed.

Lemma packDrawCall_spec (k start finish : nat) (s s' : Renderer) :
  packDrawCall k start finish s = Some s' →
  ∃ (s2 : Renderer) (d : list BatchDrawCall),
    packInterleavedGeometry start finish s = Some s2 ∧
    s' = set_drawCalls d s2 ∧
    length d = length (_drawCalls s) ∧
    (∃ dc, d !! k = Some dc ∧ dc_start dc = _iIndex s ∧
           dc_size dc = _iIndex s2 - _iIndex s).
Proof.
  unfold Batch.packDrawCall. intros H.
  destruct (withDrawCall k (set_dc_start (_iIndex s)) s) as [s1|] eqn:H1; [|done].
  cbn [mbind option_bind] in H.
  apply withDrawCall_spec in H1 as (dc & Hdc & ->).
  rewrite packInterleavedGeometry_drawCalls in H.
  destruct (packInterleavedGeometry start finish s) as [s2|] eqn:H2; [|done].
  cbn [mbind option_bind fmap option_fmap option_map] in H.
  apply withDrawCall_spec in H as (dc' & Hdc' & ->).
  cbn in Hdc'. rewrite list_lookup_insert_eq in Hdc' by by eapply lookup_lt_Some.
  injection Hdc' as <-.
  exists s2. eexists. split; [done |]. split; [done |]. split.
  - cbn. by rewrite !length_insert.
  - eexists. split.
    + cbn. apply list_lookup_insert_eq. rewrite length_insert. by eapply lookup_lt_Some.
    + cbn. done.
Qed.

(** Inside the loop of [buildDrawCalls] the test [start > i] never holds:
    [i] starts at [start] and only grows, so a turn of the loop records the
    blend mode in the current draw call and does nothing else. *)
Lemma buildDrawCallsStep_no_split (texArray i : nat) (st st' : Renderer * DrawCallLocals) :
  l_start st.2 ≤ i →
  buildDrawCallsStep texArray i st = Some st' →
  st'.2 = st.2 ∧
  ∃ (sprite : Element) (tex : BaseTexture) (dc : BatchDrawCall),
    js_get (_bufferedElements st.1) i = Some sprite ∧
    baseTextures st.1 !! baseTexture (_texture sprite) = Some tex ∧
    _drawCalls st.1 !! l_dcIndex st.2 = Some dc ∧
    st'.1 = set_drawCalls
              (<[l_dcIndex st.2 :=
                   set_dc_blend
                     (premultiplyBlendMode (if truthy (alphaMode tex) then 1 else 0)
                        (blendMode sprite)) dc]> (_drawCalls st.1)) st.1.
Proof.
  intros Hle. unfold Batch.buildDrawCallsStep. intros H.
  destruct (js_get (_bufferedElements st.1) i) as [sprite|] eqn:Hsp; [|done].
  cbn [mbind option_bind] in H.
  destruct (baseTextures st.1 !! baseTexture (_texture sprite)) as [tex|] eqn:Htex;
    [|done].
  cbn [mbind option_bind] in H.
  destruct (_drawCalls st.1 !! l_dcIndex st.2) as [dc|] eqn:Hdc; [|done].
  cbn [mbind option_bind] in H.
  rewrite (proj2 (Nat.ltb_ge i (l_start st.2))) in H by done.
  cbn [andb mbind option_bind] in H.
  destruct (withDrawCall _ _ st.1) as [s1|] eqn:H1; [|done].
  cbn [mbind option_bind] in H. injection H as <-.
  apply withDrawCall_spec in H1 as (dc' & Hdc' & ->).
  rewrite Hdc in Hdc'. injection Hdc' as <-.
  split; [done |]. by exists sprite, tex, dc.
Qed.

Lemma buildDrawCalls_loop (texArray n : nat) :
  ∀ (from : nat) (st st' : Renderer * DrawCallLocals),
    l_start st.2 ≤ from →
    for_loop (buildDrawCallsStep texArray) from n st = Some st' →
    st'.2 = st.2 ∧
    ∃ d, st'.1 = set_drawCalls d st.1 ∧ length d = length (_drawCalls st.1).
Proof.
  induction n as [|n IH]; intros from st st' Hle H.
  - simpl in H. injection H as <-. split; [done |].
    exists (_drawCalls st.1). split; [by destruct st.1 | done].
  - rewrite for_loop_S in H.
    destruct (buildDrawCallsStep texArray from st) as [st1|] eqn:H1; [|done].
    cbn [mbind option_bind] in H.
    apply buildDrawCallsStep_no_split in H1 as (Hl & sp & tx & dc & _ & _ & _ & Hs1);
      [| done].
    apply IH in H as (Hl' & d & Hs' & Hlen); [| rewrite Hl; lia].
    split; [congruence |]. exists d. rewrite Hs', Hs1. split; [done |].
    rewrite Hlen, Hs1. cbn. by rewrite length_insert.
Qed.

(** [buildDrawCalls] as a whole: it rewrites pooled draw calls and then
    either emits nothing, or packs the whole range [start, finish) into the
    single draw call at the entry cursor. *)
Lemma buildDrawCalls_spec (texArray start finish : nat) (s s' : Renderer) :
  buildDrawCalls texArray start finish s = Some s' →
  (∃ d, s' = set_dcIndex (_dcIndex s) (set_drawCalls d s) ∧
        length d = length (_drawCalls s)) ∨
  (∃ (s2 : Renderer) (d : list BatchDrawCall),
     packInterleavedGeometry start finish s = Some s2 ∧
     s' = set_dcIndex (S (_dcIndex s)) (set_drawCalls d s2) ∧
     length d = length (_drawCalls s) ∧
     (∃ dc, d !! _dcIndex s = Some dc ∧ dc_start dc = _iIndex s ∧
            dc_size dc = _iIndex s2 - _iIndex s)).
Proof.
  unfold Batch.buildDrawCalls. intros H. cbv zeta in H.
  destruct (withDrawCall (_dcIndex s) _ s) as [s1|] eqn:H1; [|done].
  cbn [mbind option_bind] in H.
  apply withDrawCall_spec in H1 as (dc0 & Hdc0 & ->).
  match type of H with
  | (for_loop ?b ?i ?n ?st ≫= _) = _ => destruct (for_loop b i n st) as [st'|] eqn:Hloop
  end; [|done].
  cbn [mbind option_bind] in H.
  apply buildDrawCalls_loop in Hloop as (Hl & d & Hs & Hlen); [| done].
  cbn [fst snd] in Hl, Hs, Hlen. rewrite Hl in H. cbn [l_dcIndex l_start] in H.
  rewrite Hs in H. cbn in Hlen. rewrite length_insert in Hlen.
  cbn [_drawCalls set_drawCalls] in H.
  destruct (d !! _dcIndex s) as [dc|]; [|done].
  cbn [mbind option_bind] in H.
  destruct (dc_start dc <? finish).
  - match type of H with
    | ((?p ≫= _) ≫= _) = _ => destruct p as [s3|] eqn:Hp
    end; [|done].
    cbn [mbind option_bind fst snd] in H. injection H as <-.
    apply packDrawCall_spec in Hp as (s2 & d' & Hpack & -> & Hlen' & Hdc).
    rewrite !packInterleavedGeometry_drawCalls in Hpack.
    destruct (packInterleavedGeometry start finish s) as [s2'|] eqn:Hp2; [|done].
    cbn [fmap option_fmap option_map] in Hpack. injection Hpack as <-.
    right. exists s2', d'. split; [done |]. split; [done |]. split.
    + rewrite Hlen'. cbn. done.
    + cbn in Hdc. done.
  - cbn [mbind option_bind fst snd] in H. injection H as <-.
    left. exists d. split; [done | done].
Qed.

(** Whatever the blend modes of the elements of the group, one call of
    [buildDrawCalls] advances the draw-call cursor by at most one. *)
Lemma buildDrawCalls_at_most_one (texArray start finish : nat) (s s' : Renderer) :
  buildDrawCalls texArray start finish s = Some s' →
  _dcIndex s' ≤ S (_dcIndex s).
Proof.
  intros H. apply buildDrawCalls_spec in H as [(d & -> & _) | (s2 & d & _ & -> & _)].
  - cbn. lia.
  - cbn. lia.
Qed.

(** ** The cursors stay within what the buffered elements account for *)

Lemma sumUpto_mono {A} (w : option A → nat) (arr : list (option A)) (n m : nat) :
  n ≤ m → sumUpto w arr n ≤ sumUpto w arr m.
Proof. induction 1; simpl; lia. Qed.

Lemma sumUpto_range {A} (w : option A → nat) (arr : list (option A)) (start : nat)
    (els : list A) :
  (∀ k e, els !! k = Some e → js_get arr (start + k) = Some e) →
  sumUpto w arr (start + length els)
  = sumUpto w arr start + sum_list ((λ e, w (Some e)) <$> els).
Proof.
  induction els as [|e els IH] using rev_ind; intros Hels.
  - simpl. rewrite Nat.add_0_r. lia.
  - rewrite length_app. cbn [length].
    replace (start + (length els + 1)) with (S (start + length els)) by lia.
    cbn [sumUpto]. rewrite IH.
    + rewrite (Hels (length els) e).
      * rewrite fmap_app, sum_list_with_app. simpl. lia.
      * rewrite lookup_app_r by lia. by rewrite Nat.sub_diag.
    + intros k e' Hk. apply Hels. by rewrite lookup_app_l by by eapply lookup_lt_Some.
Qed.

Lemma packFits_refl (s : Renderer) : packFits s 0 s.
Proof. split; try done; simpl; lia. Qed.

(** Moving [start] forward without packing. *)
Lemma packFits_skip (s0 : Renderer) (start finish : nat) (s : Renderer) :
  start ≤ finish → packFits s0 start s → packFits s0 finish s.
Proof.
  intros Hle [].
  pose proof (sumUpto_mono lanesIn (_bufferedElements s0) _ _ Hle).
  pose proof (sumUpto_mono indicesIn (_bufferedElements s0) _ _ Hle).
  split; try done; try lia.
  intros j Hj. apply pf_elements0. lia.
Qed.

(** Packing the elements [start .. finish - 1]. *)
Lemma packFits_pack (s0 : Renderer) (start finish : nat) (s s' : Renderer) :
  start ≤ finish → packFits s0 start s →
  packInterleavedGeometry start finish s = Some s' →
  packFits s0 finish s'.
Proof.
  intros Hle [] H.
  destruct (packInterleavedGeometry_spec _ _ _ _ H)
    as (els & ab & vb & vb' & el' & Hs & Hlen & Hels & Hab & Hvb & Hl & _ & Hfr).
  cbv zeta in Hs.
  assert (∀ k e, els !! k = Some e → js_get (_bufferedElements s0) (start + k) = Some e)
    as Hels0.
  { intros k e Hk. rewrite <- pf_elements0 by lia. by apply Hels. }
  assert (finish = start + length els) as Hfin by lia.
  pose proof (sumUpto_range lanesIn _ _ _ Hels0) as HA.
  pose proof (sumUpto_range indicesIn _ _ _ Hels0) as HI.
  rewrite <- Hfin in HA, HI.
  subst s'. split; cbn; try done.
  - rewrite <- pf_shapeA0. unfold shapeA. rewrite fmap_insert, Hl.
    apply insert_id. by rewrite lookup_fmap, Hvb.
  - rewrite <- pf_shapeI0. unfold shapeI.
    destruct (_indexBuffer s) as [ib|]; [|done].
    destruct (uint16Arrays s !! ib) as [d|] eqn:Hd; [|done].
    rewrite fmap_insert, length_inserts.
    apply insert_id. by rewrite lookup_fmap, Hd.
  - intros j Hj. rewrite Hfr by lia. apply pf_elements0. lia.
  - change (λ e : Element, lanesIn (Some e)) with lanesOf in HA. lia.
  - change (λ e : Element, indicesIn (Some e))
      with (λ e : Element, length (indices e)) in HI.
    rewrite remapIndices_length. lia.
Qed.

Lemma packFits_buildDrawCalls (s0 : Renderer) (texArray start finish : nat)
    (s s' : Renderer) :
  start ≤ finish → packFits s0 start s →
  buildDrawCalls texArray start finish s = Some s' →
  packFits s0 finish s'.
Proof.
  intros Hle Hfit H.
  apply buildDrawCalls_spec in H as [(d & -> & _) | (s2 & d & Hp & -> & _)].
  - apply (packFits_skip s0 start finish) in Hfit; [| done].
    destruct Hfit. by split.
  - apply (packFits_pack s0 start finish s s2) in Hp; [| done | done].
    destruct Hp. by split.
Qed.

(** [packFits] only looks at fields that the texture bookkeeping, the
    upload and the drawing leave alone. *)
Ltac packFits_frame :=
  match goal with
  | H : packFits _ _ _ |- packFits _ _ _ => destruct H; split; cbn; done
  end.

Lemma batch_boundArray_spec (k TICK : nat) (s s' : Renderer) :
  batch_boundArray k TICK s = Some s' →
  ∃ a b c, s' = set_baseTextures a (set_tempBoundTextures b (set_textureArrays c s)).
Proof.
  unfold Batch.batch_boundArray. intros H.
  destruct (_textureArrays s !! k); [|done].
  cbn [mbind option_bind] in H. injection H as <-. by eexists _, _, _.
Qed.

Lemma packFits_buildTexturesStep (s0 : Renderer) (touch i : nat)
    (st st' : Renderer * TextureLocals) :
  packFits s0 (l_tstart st.2) st.1 → l_tstart st.2 ≤ i →
  buildTexturesStep touch i st = Some st' →
  packFits s0 (l_tstart st'.2) st'.1 ∧ l_tstart st'.2 ≤ S i.
Proof.
  intros Hfit Hle. unfold Batch.buildTexturesStep. cbv zeta. intros H.
  destruct (js_get (_bufferedTextures st.1) i) as [tex|]; [|done].
  cbn [mbind option_bind] in H.
  match type of H with
  | (baseTextures ?t !! tex ≫= _) = _ =>
      set (s1 := t) in *;
      assert (packFits s0 (l_tstart st.2) s1) as Hfit1 by (subst s1; packFits_frame);
      clearbody s1
  end.
  destruct (baseTextures s1 !! tex) as [bt|]; [|done].
  cbn [mbind option_bind] in H.
  destruct (_batchEnabled bt =? l_TICK st.2).
  { injection H as <-. split; [done | cbn; lia]. }
  destruct (_textureArrays s1 !! l_countTexArrays st.2) as [texArray|]; [|done].
  cbn [mbind option_bind] in H.
  match type of H with
  | (?m ≫= _) = _ =>
      assert (∀ st1, m = Some st1 →
                packFits s0 (l_tstart st1.2) st1.1 ∧ l_tstart st1.2 ≤ S i) as Hmid
  end.
  { intros st1 Hm. destruct (MAX_TEXTURES s1 <=? ta_count texArray).
    - destruct (batch_boundArray _ _ s1) as [s2|] eqn:Hb; [|done].
      cbn [mbind option_bind] in Hm.
      apply batch_boundArray_spec in Hb as (a & b & c & ->).
      destruct (buildDrawCalls _ _ _ _) as [s3|] eqn:Hd; [|done].
      cbn [mbind option_bind] in Hm. injection Hm as <-.
      cbn [fst snd l_tstart]. split; [| lia].
      eapply packFits_buildDrawCalls; [| | exact Hd]; [done |].
      packFits_frame.
    - injection Hm as <-. cbn [fst snd]. split; [done | lia]. }
  match type of H with
  | (?m ≫= _) = _ => destruct m as [st1|]; [|done]
  end.
  destruct (Hmid st1 eq_refl) as [Hfit2 Hle2].
  cbn [mbind option_bind] in H.
  destruct (baseTextures st1.1 !! tex); [|done].
  cbn [mbind option_bind] in H.
  match type of H with
  | (?m ≫= _) = _ => destruct m; [|done]
  end.
  cbn [mbind option_bind] in H. injection H as <-. cbn [fst snd].
  split; [packFits_frame | done].
Qed.

Lemma packFits_buildTexturesAndDrawCalls (s s' : Renderer) :
  buildTexturesAndDrawCalls s = Some s' → packFits s (_bufferSize s) s'.
Proof.
  unfold Batch.buildTexturesAndDrawCalls, Batch.batch_copyBoundTextures. cbv zeta.
  intros H.
  match type of H with
  | (for_loop ?b ?i ?n ?st ≫= _) = _ => destruct (for_loop b i n st) as [st'|] eqn:Hloop
  end; [|done].
  cbn [mbind option_bind] in H.
  apply (for_loop_inv
           (λ i st, packFits s (l_tstart st.2) st.1 ∧ l_tstart st.2 ≤ i)) in Hloop.
  - cbn [_bufferSize set_baseTextures set_tempBoundTextures set_globalBatch] in Hloop.
    destruct Hloop as [Hfit Hle]. rewrite Nat.add_0_l in Hle.
    destruct (_textureArrays st'.1 !! l_countTexArrays st'.2) as [texArray|]; [|done].
    cbn [mbind option_bind] in H.
    destruct (0 <? ta_count texArray).
    + destruct (batch_boundArray _ _ st'.1) as [s2|] eqn:Hb; [|done].
      cbn [mbind option_bind] in H.
      apply batch_boundArray_spec in Hb as (a & b & c & ->).
      destruct (buildDrawCalls _ _ _ _) as [s3|] eqn:Hd; [|done].
      cbn [mbind option_bind fst snd] in H. injection H as <-.
      cbn [_bufferSize set_baseTextures set_tempBoundTextures set_textureArrays] in Hd.
      rewrite (pf_bufferSize _ _ _ Hfit) in Hd.
      eapply packFits_buildDrawCalls in Hd; [| exact Hle | packFits_frame].
      packFits_frame.
    + cbn [mbind option_bind fst snd] in H. injection H as <-.
      apply (packFits_skip s _ (_bufferSize s)) in Hfit; [| done].
      packFits_frame.
  - cbn [fst snd l_tstart]. split; [| done].
    pose proof (packFits_refl s) as Hr. packFits_frame.
  - intros i st st1 _ [Hfit Hle] Hstep.
    by eapply packFits_buildTexturesStep.
Qed.

(** The same after every turn of the loop. *)
Lemma packFits_afterTurns (s s' : Renderer) (i : nat) :
  buildTexturesAndDrawCalls s = Some s' → i ≤ _bufferSize s →
  ∃ st, afterTurns premultiplyBlendMode premultiplyTint copyBoundTextures boundArray s i
        = Some st ∧
        packFits s (l_tstart st.2) st.1 ∧ l_tstart st.2 ≤ i.
Proof.
  unfold Batch.buildTexturesAndDrawCalls, afterTurns, Batch.batch_copyBoundTextures.
  cbv zeta. intros H Hi.
  match type of H with
  | (for_loop ?b ?i ?n ?st ≫= _) = _ => destruct (for_loop b i n st) as [st'|] eqn:Hloop
  end; [|done].
  destruct (for_loop_prefix _ _ _ _ _ Hloop i Hi) as [st Hst].
  exists st. split; [exact Hst |].
  apply (for_loop_inv
           (λ i st, packFits s (l_tstart st.2) st.1 ∧ l_tstart st.2 ≤ i)) in Hst.
  - by rewrite Nat.add_0_l in Hst.
  - cbn [fst snd l_tstart]. split; [| done].
    pose proof (packFits_refl s) as Hr. packFits_frame.
  - intros j st0 st1 _ [Hfit Hle] Hstep.
    by eapply packFits_buildTexturesStep.
Qed.

Lemma packFits_updateGeometry (s0 : Renderer) (k : nat) (s s' : Renderer) :
  packFits s0 k s → Batch.updateGeometry s = Some s' → packFits s0 k s'.
Proof.
  intros Hfit. unfold Batch.updateGeometry, Batch.uploadBuffers. intros H.
  destruct (CAN_UPLOAD_SAME_BUFFER s).
  - destruct (js_get (_packedGeometries s) (_flushId s)); [|done].
    cbn [mbind option_bind] in H.
    destruct (_attributeBuffer s) as [ab|]; [|done]. cbn [mbind option_bind] in H.
    destruct (viewableBuffers s !! ab); [|done]. cbn [mbind option_bind] in H.
    injection H as <-. packFits_frame.
  - match type of H with
    | ((js_get (_packedGeometries ?t) _ ≫= _) ≫= _) = _ =>
        set (s1 := t) in *;
        assert (packFits s0 k s1) as Hfit1
          by (subst s1; destruct (_ <=? _); packFits_frame);
        clearbody s1
    end.
    destruct (js_get (_packedGeometries s1) (_flushId s1)); [|done].
    cbn [mbind option_bind] in H.
    destruct (_attributeBuffer s1) as [ab|]; [|done]. cbn [mbind option_bind] in H.
    destruct (viewableBuffers s1 !! ab); [|done]. cbn [mbind option_bind] in H.
    injection H as <-. packFits_frame.
Qed.

Lemma packFits_bindAndClearTexArray (s0 : Renderer) (k t : nat) (s s' : Renderer) :
  packFits s0 k s → Batch.bindAndClearTexArray t s = Some s' → packFits s0 k s'.
Proof.
  intros Hfit. unfold Batch.bindAndClearTexArray. intros H.
  destruct (_textureArrays s !! t) as [texArray|]; [|done].
  cbn [mbind option_bind] in H.
  destruct (for_loop (Batch.bindAndClearStep t) 0 (ta_count texArray) s) as [s1|] eqn:Hloop;
    [|done].
  cbn [mbind option_bind] in H.
  apply (for_loop_inv (λ _ st, packFits s0 k st)) in Hloop; [| done |].
  - destruct (_textureArrays s1 !! t); [|done].
    cbn [mbind option_bind] in H. injection H as <-. packFits_frame.
  - intros i st st1 _ Hst. unfold Batch.bindAndClearStep. intros Hstep.
    destruct (_textureArrays st !! t); [|done].
    cbn [mbind option_bind] in Hstep. injection Hstep as <-. packFits_frame.
Qed.

Lemma packFits_drawBatches (s0 : Renderer) (k : nat) (s s' : Renderer) :
  packFits s0 k s → Batch.drawBatches s = Some s' → packFits s0 k s'.
Proof.
  intros Hfit. unfold Batch.drawBatches. intros H.
  destruct (for_loop Batch.drawBatchesStep 0 (_dcIndex s) (s, None)) as [st|] eqn:Hloop;
    [|done].
  cbn [mbind option_bind] in H. injection H as <-.
  apply (for_loop_inv (λ _ st, packFits s0 k st.1)) in Hloop; [done | done |].
  intros i st0 st1 _ Hst. unfold Batch.drawBatchesStep. cbv zeta. intros Hstep.
  destruct (_drawCalls st0.1 !! i) as [dc|]; [|done].
  cbn [mbind option_bind] in Hstep.
  destruct (decide (st0.2 = dc_texArray dc)).
  - cbn [mbind option_bind] in Hstep. injection Hstep as <-. cbn [fst]. packFits_frame.
  - destruct (dc_texArray dc) as [t|]; [|done].
    cbn [mbind option_bind] in Hstep.
    destruct (Batch.bindAndClearTexArray t st0.1) as [s1|] eqn:Hb; [|done].
    cbn [mbind option_bind] in Hstep. injection Hstep as <-. cbn [fst].
    eapply packFits_bindAndClearTexArray in Hb; [| exact Hst]. packFits_frame.
Qed.

(** ** Capacity of the scratch buffers *)

Lemma consistent_growLength (c : BufferCache) (k : Z) (s : Renderer) :
  consistent nextPow2 log2 s → consistent nextPow2 log2 (Batch.growLength c k s).
Proof.
  intros []. unfold Batch.growLength. destruct (bc_length c); [|by split].
  destruct (_ <=? _)%Z; by split.
Qed.

Lemma new_ViewableBuffer_lanes (n : Z) :
  length (lanes (new_ViewableBuffer (n * 4))) = Z.to_nat n.
Proof.
  unfold new_ViewableBuffer. cbn [lanes]. rewrite length_replicate.
  by rewrite Z.div_mul.
Qed.

Lemma shape_fresh {A B} (f : A → B) (m : gmap bufid A) (b : bufid) (n : B) :
  (f <$> m) !! b = Some n → b ≠ fresh (dom m).
Proof.
  intros Hb ->. rewrite lookup_fmap in Hb.
  destruct (m !! fresh (dom m)) eqn:E; [|done].
  apply (is_fresh (dom m)). apply elem_of_dom. by eexists.
Qed.

(** The attribute buffer fetched for [v] vertices has the capacity of its
    size-class, and fetching it keeps the renderer consistent. *)
Lemma getAttributeBuffer_consistent (v : Q) (s : Renderer) :
  consistent nextPow2 log2 s →
  let r := getAttributeBuffer v s in
  consistent nextPow2 log2 r.2 ∧
  shapeA r.2 !! r.1
    = Some (Z.to_nat (nextPow2 (Qceiling (v / 8)) * 8 * Z.of_nat (vertexSize s))) ∧
  _bufferedElements r.2 = _bufferedElements s ∧ _bufferSize r.2 = _bufferSize s ∧
  _vertexCount r.2 = _vertexCount s ∧ _indexCount r.2 = _indexCount s ∧
  vertexSize r.2 = vertexSize s.
Proof.
  intros Hc r. subst r. unfold Batch.getAttributeBuffer. cbv zeta.
  set (k := log2 (nextPow2 (Qceiling (v / 8)))).
  set (cls := (nextPow2 (Qceiling (v / 8)) * 8)%Z).
  pose proof (consistent_growLength (_aBuffers s) k s Hc) as Hg.
  destruct (growLength_aBuffers (_aBuffers s) k s) as (Ha & Hv & Hu & Hs & Hvs).
  assert (_bufferedElements (Batch.growLength (_aBuffers s) k s) = _bufferedElements s
          ∧ _bufferSize (Batch.growLength (_aBuffers s) k s) = _bufferSize s
          ∧ _vertexCount (Batch.growLength (_aBuffers s) k s) = _vertexCount s
          ∧ _indexCount (Batch.growLength (_aBuffers s) k s) = _indexCount s)
    as (He & Hbs & Hvc & Hic).
  { unfold Batch.growLength. destruct (bc_length (_aBuffers s)); [|done].
    by destruct (_ <=? _)%Z. }
  generalize dependent (Batch.growLength (_aBuffers s) k s). intros g Hg Ha Hv Hu Hs Hvs.
  intros He Hbs Hvc Hic.
  destruct (bc_slots (_aBuffers g) !! cls) as [b|] eqn:Hhit; cbn [fst snd].
  - split; [done |]. split; [| done].
    rewrite <- Hvs. by apply (c_aBuffers _ _ _ Hg).
  - destruct Hg. split; [| split; [| done]].
    + split; cbn; try done.
      * intros k' b'. unfold shapeA. cbn. rewrite fmap_insert.
        destruct (decide (k' = cls)) as [-> | Hne].
        -- rewrite lookup_insert_eq. intros [= <-]. rewrite lookup_insert_eq.
           f_equal. by rewrite new_ViewableBuffer_lanes.
        -- rewrite lookup_insert_ne by done. intros Hk.
           specialize (c_aBuffers0 _ _ Hk).
           rewrite lookup_insert_ne; [done |].
           apply not_eq_sym. by eapply shape_fresh.
    + unfold shapeA. cbn. rewrite fmap_insert, lookup_insert_eq. f_equal.
      rewrite new_ViewableBuffer_lanes. by rewrite Hvs.
Qed.

(** The index buffer fetched for [n] indices. *)
Lemma getIndexBuffer_consistent (n : Q) (s : Renderer) :
  (∀ a b : Z, log2 (nextPow2 a) = log2 (nextPow2 b) → nextPow2 a = nextPow2 b) →
  consistent nextPow2 log2 s →
  let r := getIndexBuffer n s in
  consistent nextPow2 log2 r.2 ∧
  shapeI r.2 !! r.1 = Some (Z.to_nat (nextPow2 (Qceiling (n / 12)) * 12)) ∧
  _bufferedElements r.2 = _bufferedElements s ∧ _bufferSize r.2 = _bufferSize s ∧
  _vertexCount r.2 = _vertexCount s ∧ _indexCount r.2 = _indexCount s ∧
  vertexSize r.2 = vertexSize s ∧ shapeA r.2 = shapeA s ∧
  _attributeBuffer r.2 = _attributeBuffer s.
Proof.
  intros Hinj Hc r. subst r. unfold Batch.getIndexBuffer. cbv zeta.
  set (c0 := Qceiling (n / 12)).
  set (k := log2 (nextPow2 c0)).
  pose proof (consistent_growLength (_iBuffers s) k s Hc) as Hg.
  destruct (growLength_aBuffers (_iBuffers s) k s) as (Ha & Hv & Hu & Hs & Hvs).
  assert (_bufferedElements (Batch.growLength (_iBuffers s) k s) = _bufferedElements s
          ∧ _bufferSize (Batch.growLength (_iBuffers s) k s) = _bufferSize s
          ∧ _vertexCount (Batch.growLength (_iBuffers s) k s) = _vertexCount s
          ∧ _indexCount (Batch.growLength (_iBuffers s) k s) = _indexCount s
          ∧ _attributeBuffer (Batch.growLength (_iBuffers s) k s) = _attributeBuffer s)
    as (He & Hbs & Hvc & Hic & Hab).
  { unfold Batch.growLength. destruct (bc_length (_iBuffers s)); [|done].
    by destruct (_ <=? _)%Z. }
  assert (shapeA (Batch.growLength (_iBuffers s) k s) = shapeA s) as HsA.
  { unfold shapeA. by rewrite Hv. }
  generalize dependent (Batch.growLength (_iBuffers s) k s).
  intros g Hg Ha Hv Hu Hs Hvs He Hbs Hvc Hic Hab HsA.
  destruct (bc_slots (_iBuffers g) !! k) as [b|] eqn:Hhit; cbn [fst snd].
  - split; [done |]. split; [| done].
    destruct (c_iBuffers _ _ _ Hg _ _ Hhit) as (c & Hk & Hshape).
    rewrite Hshape. f_equal. f_equal. f_equal. apply Hinj. by rewrite <- Hk.
  - destruct Hg. split; [| split; [| done]].
    + split; cbn; try done.
      intros k' b'. unfold shapeI. cbn. rewrite fmap_insert.
      destruct (decide (k' = k)) as [-> | Hne].
      * rewrite lookup_insert_eq. intros [= <-]. rewrite lookup_insert_eq.
        exists c0. split; [done |]. f_equal. unfold new_Uint16Array.
        by rewrite length_replicate.
      * rewrite lookup_insert_ne by done. intros Hk.
        destruct (c_iBuffers0 _ _ Hk) as (c & Hkc & Hshape).
        exists c. split; [done |].
        rewrite lookup_insert_ne; [done |].
        apply not_eq_sym. by eapply shape_fresh.
    + unfold shapeI. cbn. rewrite fmap_insert, lookup_insert_eq. f_equal.
      unfold new_Uint16Array. by rewrite length_replicate.
Qed.

Lemma div2_S_even (n : nat) : Nat.even n = true → Nat.div2 (S n) = n / 2.
Proof.
  intros He. apply Nat.even_spec in He as [m ->].
  rewrite Nat.div2_succ_double.
  by rewrite (Nat.mul_comm 2 m), Nat.div_mul.
Qed.

Lemma sumUpto_lanes_vertices (arr : list (option Element)) (B : nat) :
  (∀ j, j < B → ∃ e, js_get arr j = Some e ∧ Nat.even (length (vertexData e)) = true) →
  sumUpto lanesIn arr B = 6 * sumUpto verticesIn arr B.
Proof.
  induction B as [|B IH]; intros Hev; [done |].
  cbn [sumUpto]. rewrite IH by (intros j Hj; apply Hev; lia).
  destruct (Hev B) as (e & -> & He); [lia |].
  cbn [lanesIn verticesIn from_option]. unfold lanesOf, vertexCount.
  rewrite (div2_S_even _ He). lia.
Qed.

(** [granule * nextPow2 (ceil (v / granule))] is at least [v]. *)
Lemma size_class_covers (v : Q) (granule : Z) :
  (∀ n : Z, (n ≤ nextPow2 n)%Z) → (0 < granule)%Z →
  (v <= inject_Z (nextPow2 (Qceiling (v / inject_Z granule)) * granule))%Q.
Proof.
  intros Hge Hg.
  assert (0 < inject_Z granule)%Q as Hgq.
  { change 0%Q with (inject_Z 0). rewrite <- Zlt_Qlt. lia. }
  apply Qle_trans with (v / inject_Z granule * inject_Z granule)%Q.
  { apply Qle_lteq. right. field. intros E. rewrite E in Hgq.
    by apply Qlt_irrefl in Hgq. }
  rewrite inject_Z_mult. apply Qmult_le_compat_r; [| by apply Qlt_le_weak].
  eapply Qle_trans; [apply Qle_ceiling |].
  rewrite <- Zle_Qle. apply Hge.
Qed.

(** The outcome of a flush that has something to draw, and the state after
    every turn of the loop of [buildTexturesAndDrawCalls] on the way. *)
Lemma flush_nonempty_fits (s s' : Renderer) :
  (∀ n : Z, (n ≤ nextPow2 n)%Z) →
  (∀ a b : Z, log2 (nextPow2 a) = log2 (nextPow2 b) → nextPow2 a = nextPow2 b) →
  consistent nextPow2 log2 s →
  ¬ (_vertexCount s == 0)%Q →
  flush s = Some s' →
  let v := _vertexCount s in
  let n := _indexCount s in
  ∃ (ab ib : bufid) (capA capI : nat),
    ab = (getAttributeBuffer v s).1 ∧
    _attributeBuffer s' = Some ab ∧ _indexBuffer s' = Some ib ∧
    shapeA s' !! ab = Some capA ∧ shapeI s' !! ib = Some capI ∧
    (v * Qnat (vertexSize s) <= Qnat capA)%Q ∧ n ≤ capI ∧
    (Qnat (_aIndex s') <= v * Qnat (vertexSize s))%Q ∧ _iIndex s' ≤ n ∧
    consistent nextPow2 log2 s' ∧
    (∀ i, i ≤ _bufferSize s →
       ∃ st, afterTurns premultiplyBlendMode premultiplyTint copyBoundTextures boundArray
               (flushPrepared nextPow2 log2 s) i = Some st ∧
             _attributeBuffer st.1 = Some ab ∧ _indexBuffer st.1 = Some ib ∧
             shapeA st.1 !! ab = Some capA ∧ shapeI st.1 !! ib = Some capI ∧
             (Qnat (_aIndex st.1) <= v * Qnat (vertexSize s))%Q ∧ _iIndex st.1 ≤ n).
Proof.
  intros Hge Hinj Hc Hnz H v n.
  unfold Batch.flush in H.
  destruct (Qeq_bool (_vertexCount s) 0) eqn:E.
  { exfalso. apply Hnz. by apply Qeq_bool_iff. }
  cbv zeta in H. fold v in H.
  destruct (getAttributeBuffer_consistent v s Hc)
    as (HcA & HshA & HelA & HbsA & HvcA & HicA & HvsA).
  cbv zeta in HcA, HshA, HelA, HbsA, HvcA, HicA, HvsA.
  unfold flushPrepared. cbv zeta. fold v.
  set (rA := getAttributeBuffer v s) in *.
  set (sA := set_attributeBuffer (Some rA.1) rA.2) in *.
  assert (consistent nextPow2 log2 sA) as HcA'.
  { subst sA. destruct HcA. by split. }
  change (_indexCount sA) with (_indexCount rA.2) in H |- *.
  rewrite HicA in H |- *. fold n in H |- *.
  destruct (getIndexBuffer_consistent (Qnat n) sA Hinj HcA')
    as (HcI & HshI & HelI & HbsI & HvcI & HicI & HvsI & HsAI & HabI).
  cbv zeta in HcI, HshI, HelI, HbsI, HvcI, HicI, HvsI, HsAI, HabI.
  set (rI := getIndexBuffer (Qnat n) sA) in *.
  set (sC := set_dcIndex 0 (set_iIndex 0 (set_aIndex 0
               (set_indexBuffer (Some rI.1) rI.2)))) in *.
  destruct (buildTexturesAndDrawCalls sC) as [s1|] eqn:H1; [|done].
  cbn [mbind option_bind] in H.
  destruct (Batch.updateGeometry s1) as [s2|] eqn:H2; [|done].
  cbn [mbind option_bind] in H.
  destruct (Batch.drawBatches s2) as [s3|] eqn:H3; [|done].
  cbn [mbind option_bind] in H. injection H as <-.
  pose proof H1 as Hbuilt.
  apply packFits_buildTexturesAndDrawCalls in H1.
  eapply packFits_updateGeometry in H2; [| exact H1].
  eapply packFits_drawBatches in H3; [| exact H2].
  assert (_bufferedElements sC = _bufferedElements s) as HelC.
  { subst sC sA. cbn. rewrite HelI. cbn. done. }
  assert (_bufferSize sC = _bufferSize s) as HbsC.
  { subst sC sA. cbn. rewrite HbsI. cbn. done. }
  assert (vertexSize sC = vertexSize s) as HvsC.
  { subst sC sA. cbn. rewrite HvsI. cbn. done. }
  destruct Hc as [Hvs6 Hev Hvc Hic HcaA HcaI].
  assert (0 <= v)%Q as Hv0.
  { subst v. rewrite Hvc. apply Qnat_nonneg. }
  set (capA := Z.to_nat (nextPow2 (Qceiling (v / 8)) * 8 * Z.of_nat (vertexSize s))).
  set (capI := Z.to_nat (nextPow2 (Qceiling (Qnat n / 12)) * 12)).
  (* every state that has packed no more than the buffered elements *)
  assert (∀ (k : nat) (t : Renderer), k ≤ _bufferSize s → packFits sC k t →
            _attributeBuffer t = Some rA.1 ∧ _indexBuffer t = Some rI.1 ∧
            shapeA t !! rA.1 = Some capA ∧ shapeI t !! rI.1 = Some capI ∧
            (Qnat (_aIndex t) <= v * Qnat (vertexSize s))%Q ∧ _iIndex t ≤ n) as Hany.
  { intros k t Hk [Fbs Fvs Fab Fib FaB FiB FsA FsI _ Fa Fi].
    change (_aIndex sC) with 0 in Fa. change (_iIndex sC) with 0 in Fi.
    rewrite HelC in Fa, Fi.
    pose proof (sumUpto_mono lanesIn (_bufferedElements s) _ _ Hk) as HmA.
    pose proof (sumUpto_mono indicesIn (_bufferedElements s) _ _ Hk) as HmI.
    split; [| split; [| split; [| split; [| split]]]].
    - rewrite Fab. change (_attributeBuffer sC) with (_attributeBuffer rI.2).
      by rewrite HabI.
    - by rewrite Fib.
    - rewrite FsA. change (shapeA sC) with (shapeA rI.2). by rewrite HsAI.
    - by rewrite FsI.
    - rewrite Hvs6. subst v. rewrite Hvc.
      rewrite (sumUpto_lanes_vertices _ _ Hev) in HmA.
      rewrite <- Qnat_mult. apply Qnat_le. lia.
    - subst n. rewrite Hic. lia. }
  destruct (Hany (_bufferSize s) s3) as (HabF & HibF & HshapeA & HshapeI & Ha & Hi);
    [done | by rewrite <- HbsC |].
  destruct H3 as [Fbs Fvs Fab Fib FaB FiB FsA FsI _ _ _].
  set (sF := set_indexCount 0 (set_vertexCount 0 (set_bufferSize 0 s3))).
  exists rA.1, rI.1, capA, capI.
  split; [done |]. split; [done |]. split; [done |].
  split; [done |]. split; [done |].
  split; [| split; [| split; [| split; [| split]]]].
  - pose proof (size_class_covers v 8 Hge eq_refl) as Hcov.
    change (inject_Z 8) with 8%Q in Hcov. subst capA.
    set (P := nextPow2 (Qceiling (v / 8))) in *.
    assert (0 ≤ P * 8)%Z as HP.
    { rewrite Zle_Qle. eapply Qle_trans; [exact Hv0 | exact Hcov]. }
    unfold Qnat at 2. rewrite Z2Nat.id by lia.
    rewrite inject_Z_mult. apply Qmult_le_compat_r; [done | apply Qnat_nonneg].
  - pose proof (size_class_covers (Qnat n) 12 Hge eq_refl) as Hcov.
    change (inject_Z 12) with 12%Q in Hcov. subst capI.
    set (P := nextPow2 (Qceiling (Qnat n / 12))) in *.
    unfold Qnat in Hcov at 1. rewrite <- Zle_Qle in Hcov. lia.
  - done.
  - done.
  - split.
    + change (vertexSize sF) with (vertexSize s3). by rewrite Fvs, HvsC.
    + change (_bufferSize sF) with 0. intros j Hj. lia.
    + done.
    + done.
    + intros k b. change (_aBuffers sF) with (_aBuffers s3).
      change (vertexSize sF) with (vertexSize s3).
      change (shapeA sF) with (shapeA s3).
      rewrite FaB, FsA, Fvs. change (shapeA sC) with (shapeA rI.2).
      apply (c_aBuffers _ _ _ HcI).
    + intros k b. change (_iBuffers sF) with (_iBuffers s3).
      change (shapeI sF) with (shapeI s3).
      rewrite FiB, FsI. apply (c_iBuffers _ _ _ HcI).
  - intros i Hi'. rewrite <- HbsC in Hi'.
    destruct (packFits_afterTurns sC s1 i Hbuilt Hi') as (st & Hst & Hfit & Hle).
    exists st. split; [exact Hst |].
    apply (Hany (l_tstart st.2)); [| done].
    rewrite <- HbsC. lia.
Qed.

(** ** Consistency is an invariant of the renderer *)

Lemma sumUpto_ext {A} (w : option A → nat) (a b : list (option A)) (n : nat) :
  (∀ j, j < n → js_get a j = js_get b j) → sumUpto w a n = sumUpto w b n.
Proof.
  induction n as [|n IH]; intros H; [done |].
  cbn [sumUpto]. rewrite IH by (intros j Hj; apply H; lia).
  by rewrite H by lia.
Qed.

Lemma consistent_constructor (batchSize : nat) (canUpload : bool)
    (textures : gmap texid BaseTexture) (gcCount : nat) :
  consistent nextPow2 log2 (Batch.constructor batchSize 6 canUpload textures gcCount).
Proof. split; cbn; try done; intros; lia. Qed.

Lemma consistent_contextChange (maxTextures : nat) (s : Renderer) :
  consistent nextPow2 log2 s → consistent nextPow2 log2 (Batch.contextChange maxTextures s).
Proof. intros []. by split. Qed.

Lemma consistent_buffer (element : Element) (s : Renderer) :
  Nat.even (length (vertexData element)) = true →
  consistent nextPow2 log2 s → consistent nextPow2 log2 (Batch.buffer element s).
Proof.
  intros He [Hvs Hel Hvc Hic HcA HcI]. unfold Batch.buffer. split; cbn; try done.
  - intros j Hj. destruct (decide (j = _bufferSize s)) as [-> | Hne].
    + exists element. by rewrite js_get_set_eq.
    + rewrite js_get_set_ne by done. apply Hel. lia.
  - rewrite js_get_set_eq.
    rewrite (sumUpto_ext _ _ (_bufferedElements s)) by (intros; apply js_get_set_ne; lia).
    rewrite Qnat_plus, <- Hvc. cbn. unfold vertexCount.
    by rewrite (Qnat_half _ He).
  - rewrite js_get_set_eq.
    rewrite (sumUpto_ext _ _ (_bufferedElements s)) by (intros; apply js_get_set_ne; lia).
    by rewrite Hic.
Qed.

Lemma consistent_flush (s s' : Renderer) :
  (∀ n : Z, (n ≤ nextPow2 n)%Z) →
  (∀ a b : Z, log2 (nextPow2 a) = log2 (nextPow2 b) → nextPow2 a = nextPow2 b) →
  consistent nextPow2 log2 s → flush s = Some s' → consistent nextPow2 log2 s'.
Proof.
  intros Hge Hinj Hc H.
  destruct (Qeq_bool (_vertexCount s) 0) eqn:E.
  - unfold Batch.flush in H. rewrite E in H. by injection H as <-.
  - assert (¬ (_vertexCount s == 0)%Q) as Hnz.
    { intros H0. apply Qeq_bool_iff in H0. congruence. }
    destruct (flush_nonempty_fits s s' Hge Hinj Hc Hnz H) as (? & ? & ? & ? & Hall).
    apply Hall.
Qed.

Lemma consistent_render (element : Element) (s s' : Renderer) :
  (∀ n : Z, (n ≤ nextPow2 n)%Z) →
  (∀ a b : Z, log2 (nextPow2 a) = log2 (nextPow2 b) → nextPow2 a = nextPow2 b) →
  Nat.even (length (vertexData element)) = true →
  consistent nextPow2 log2 s → render element s = Some s' → consistent nextPow2 log2 s'.
Proof.
  intros Hge Hinj He Hc. unfold Batch.render.
  destruct (valid (_texture element)); cbn [negb]; [| by intros [= <-]].
  destruct (Qgtb _ _).
  - destruct (flush s) as [s1|] eqn:Hf; [|done].
    cbn [mbind option_bind]. intros [= <-].
    apply consistent_buffer; [done |]. by eapply consistent_flush.
  - cbn [mbind option_bind]. intros [= <-]. by apply consistent_buffer.
Qed.

(** ** Geometry packer: the interleaved attribute records *)

Lemma list_inserts_front {A} (i : nat) (x : A) (k l : list A) :
  list_inserts i (x :: k) l = list_inserts (S i) k (<[i := x]> l).
Proof. cbn [list_inserts]. by rewrite list_insert_inserts_lt by lia. Qed.

Lemma join_fmap_cons {A B} (f : A → list B) (x : A) (l : list A) :
  mjoin (f <$> x :: l) = f x ++ mjoin (f <$> l).
Proof. reflexivity. Qed.

Lemma packVertex_inserts (vd uv : list Q) (c loc : Z) (k a : nat) (view : list Lane) :
  Batch.packVertex vd uv c loc k (a, view)
  = Some (a + 6, list_inserts a (vertexRecord c loc vd uv k) view).
Proof.
  unfold Batch.packVertex, vertexRecord. cbn [fst snd].
  rewrite !list_inserts_front. cbn [list_inserts].
  replace (a + 1) with (S a) by lia.
  replace (a + 2) with (S (S a)) by lia.
  replace (a + 3) with (S (S (S a))) by lia.
  replace (a + 4) with (S (S (S (S a)))) by lia.
  replace (a + 5) with (S (S (S (S (S a))))) by lia.
  done.
Qed.

Lemma for_loop_packVertex_view (vd uv : list Q) (c loc : Z) (n : nat) :
  ∀ (from a : nat) (view : list Lane),
    for_loop (Batch.packVertex vd uv c loc) from n (a, view)
    = Some (a + 6 * n,
            list_inserts a (mjoin (vertexRecord c loc vd uv <$> seq from n)) view).
Proof.
  induction n as [|n IH]; intros from a view.
  - simpl. do 2 f_equal. lia.
  - rewrite for_loop_S, packVertex_inserts. cbn [mbind option_bind].
    rewrite IH. cbn [seq]. rewrite join_fmap_cons.
    rewrite list_inserts_app_l. cbn [length vertexRecord].
    replace (6 + a) with (a + 6) by lia. do 2 f_equal. lia.
Qed.

Lemma length_vertexRecords (c loc : Z) (vd uv : list Q) (ks : list nat) :
  length (mjoin (vertexRecord c loc vd uv <$> ks)) = 6 * length ks.
Proof.
  induction ks as [|k ks IH]; [done |].
  rewrite join_fmap_cons, length_app, IH. cbn [length vertexRecord].
  lia.
Qed.

Lemma packElement_view (T : gmap texid BaseTexture) (j : nat) (st st' : PackState) :
  packElement T j st = Some st' →
  ∃ e, js_get (p_elements st) j = Some e ∧
       p_view st' = list_inserts (p_aIndex st) (elementRecords premultiplyTint T e)
                      (p_view st) ∧
       p_aIndex st' = p_aIndex st + length (elementRecords premultiplyTint T e) ∧
       p_elements st' = js_set (p_elements st) j None.
Proof.
  unfold Batch.packElement. intros H.
  destruct (js_get (p_elements st) j) as [e|] eqn:He; [|done].
  cbn [mbind option_bind] in H.
  destruct (T !! baseTexture (_texture e)) as [tex|] eqn:Htex; [|done].
  cbn [mbind option_bind] in H.
  rewrite for_loop_packVertex_view in H. cbn [mbind option_bind fst snd] in H.
  exists e. split; [done |].
  unfold elementRecords. rewrite Htex, length_vertexRecords, length_seq.
  destruct (indices e) as [|x rest].
  - cbn [mbind option_bind] in H. injection H as <-. by cbn.
  - destruct (p_indexBuffer st) as [d|]; [|done].
    cbn [mbind option_bind] in H. injection H as <-. by cbn.
Qed.

(** The attribute side of the loop of [packInterleavedGeometry]. *)
Lemma pack_loop_view (T : gmap texid BaseTexture) (n : nat) :
  ∀ (start : nat) (st st' : PackState),
    for_loop (packElement T) start n st = Some st' →
    ∃ els : list Element,
      length els = n ∧
      (∀ k e, els !! k = Some e → js_get (p_elements st) (start + k) = Some e) ∧
      p_view st' = list_inserts (p_aIndex st) (attributeLanes premultiplyTint T els)
                     (p_view st) ∧
      p_aIndex st' = p_aIndex st + length (attributeLanes premultiplyTint T els) ∧
      (∀ j, start ≤ j < start + n → js_get (p_elements st') j = None).
Proof.
  induction n as [|n IH]; intros start st st' H.
  - simpl in H. injection H as <-. exists []. cbn.
    repeat split; try done; try lia.
  - rewrite for_loop_S in H.
    destruct (packElement T start st) as [st1|] eqn:H1; [|done].
    cbn [mbind option_bind] in H.
    destruct (pack_loop_spec _ _ _ _ _ H) as (_ & _ & _ & _ & _ & _ & _ & Hfr).
    destruct (packElement_view _ _ _ _ H1) as (e & He & Hv & Ha & Hel).
    destruct (IH _ _ _ H) as (els & Hlen & Hels & Hv' & Ha' & Hnull).
    exists (e :: els). split; [cbn [length]; by rewrite Hlen |].
    unfold attributeLanes in Hv', Ha' |- *. rewrite join_fmap_cons.
    split; [| split; [| split; [| ]]].
    + intros k e' Hk. destruct k as [|k]; simpl in Hk.
      * injection Hk as <-. by rewrite Nat.add_0_r.
      * specialize (Hels k e' Hk). rewrite Hel in Hels.
        rewrite js_get_set_ne in Hels by lia.
        by replace (start + S k) with (S start + k) by lia.
    + rewrite Hv', Hv, Ha, list_inserts_app_l.
      by rewrite (Nat.add_comm (p_aIndex st)).
    + rewrite Ha', Ha, length_app. lia.
    + intros j Hj. destruct (decide (j = start)) as [-> | Hne].
      * rewrite Hfr by lia. rewrite Hel. apply js_get_set_eq.
      * apply Hnull. lia.
Qed.

Lemma packInterleavedGeometry_view (start finish : nat) (s s' : Renderer) :
  packInterleavedGeometry start finish s = Some s' →
  ∃ (els : list Element) (ab : bufid) (vb : ViewableBuffer),
    _attributeBuffer s = Some ab ∧
    viewableBuffers s !! ab = Some vb ∧
    length els = finish - start ∧
    (∀ k e, els !! k = Some e → js_get (_bufferedElements s) (start + k) = Some e) ∧
    viewableBuffers s' !! ab
      = Some {| byteLength := byteLength vb;
                lanes := list_inserts (_aIndex s)
                           (attributeLanes premultiplyTint (baseTextures s) els)
                           (lanes vb) |} ∧
    _aIndex s' = _aIndex s + length (attributeLanes premultiplyTint (baseTextures s) els) ∧
    (∀ j, start ≤ j < start + (finish - start) →
       js_get (_bufferedElements s') j = None).
Proof.
  unfold Batch.packInterleavedGeometry. intros H.
  destruct (_attributeBuffer s) as [ab|] eqn:Hab; [|done].
  cbn [mbind option_bind] in H.
  destruct (viewableBuffers s !! ab) as [vb|] eqn:Hvb; [|done].
  cbn [mbind option_bind] in H.
  match type of H with
  | (for_loop ?b ?i ?n ?st ≫= _) = _ => destruct (for_loop b i n st) as [st'|] eqn:Hloop
  end; [|done].
  cbn [mbind option_bind] in H.
  destruct (pack_loop_view _ _ _ _ _ Hloop) as (els & Hlen & Hels & Hv & Ha & Hnull).
  cbn [p_aIndex p_view p_elements] in Hels, Hv, Ha.
  exists els, ab, vb. injection H as <-.
  split; [done |]. split; [done |]. split; [done |]. split; [done |].
  split; [| split].
  - destruct (_indexBuffer _) as [ib|]; [destruct (p_indexBuffer st') |];
      cbn; rewrite lookup_insert_eq; by rewrite Hv.
  - destruct (_indexBuffer _) as [ib|]; [destruct (p_indexBuffer st') |]; by cbn.
  - intros j Hj.
    destruct (_indexBuffer _) as [ib|]; [destruct (p_indexBuffer st') |];
      cbn; by apply Hnull.
Qed.

(** Every packed element has its base texture in the heap. *)
Lemma packElement_texture (T : gmap texid BaseTexture) (j : nat) (st st' : PackState)
    (e : Element) :
  packElement T j st = Some st' → js_get (p_elements st) j = Some e →
  is_Some (T !! baseTexture (_texture e)).
Proof.
  unfold Batch.packElement. intros H He. rewrite He in H.
  cbn [mbind option_bind] in H.
  by destruct (T !! baseTexture (_texture e)).
Qed.

Lemma pack_loop_textures (T : gmap texid BaseTexture) (n : nat) :
  ∀ (start : nat) (st st' : PackState),
    for_loop (packElement T) start n st = Some st' →
    ∀ k e, k < n → js_get (p_elements st) (start + k) = Some e →
           is_Some (T !! baseTexture (_texture e)).
Proof.
  induction n as [|n IH]; intros start st st' H k e Hk He; [lia |].
  rewrite for_loop_S in H.
  destruct (packElement T start st) as [st1|] eqn:H1; [|done].
  cbn [mbind option_bind] in H.
  destruct k as [|k].
  - rewrite Nat.add_0_r in He. by eapply packElement_texture.
  - destruct (packElement_spec _ _ _ _ H1) as (_ & _ & _ & _ & _ & _ & Hel & _).
    apply (IH _ _ _ H k e); [lia |]. rewrite Hel.
    rewrite js_get_set_ne by lia.
    by replace (S start + k) with (start + S k) by lia.
Qed.

Lemma packInterleavedGeometry_textures (start finish : nat) (s s' : Renderer) :
  packInterleavedGeometry start finish s = Some s' →
  ∀ k e, k < finish - start → js_get (_bufferedElements s) (start + k) = Some e →
         is_Some (baseTextures s !! baseTexture (_texture e)).
Proof.
  unfold Batch.packInterleavedGeometry. intros H.
  destruct (_attributeBuffer s) as [ab|]; [|done].
  cbn [mbind option_bind] in H.
  destruct (viewableBuffers s !! ab) as [vb|]; [|done].
  cbn [mbind option_bind] in H.
  match type of H with
  | (for_loop ?b ?i ?n ?st ≫= _) = _ => destruct (for_loop b i n st) as [st'|] eqn:Hloop
  end; [|done].
  intros k e Hk He. by apply (pack_loop_textures _ _ _ _ _ Hloop k e).
Qed.

(** Lane [i] of the record of vertex [v]. *)
Lemma vertexRecords_lookup (c loc : Z) (vd uv : list Q) (n : nat) :
  ∀ from v i, v < n → i < 6 →
    mjoin (vertexRecord c loc vd uv <$> seq from n) !! (6 * v + i)
    = vertexRecord c loc vd uv (from + v) !! i.
Proof.
  induction n as [|n IH]; intros from v i Hv Hi; [lia |].
  cbn [seq]. rewrite join_fmap_cons. destruct v as [|v].
  - rewrite lookup_app_l by (cbn [length vertexRecord]; lia).
    by rewrite Nat.mul_0_r, Nat.add_0_r.
  - rewrite lookup_app_r by (cbn [length vertexRecord]; lia).
    cbn [length vertexRecord].
    replace (6 * S v + i - 6) with (6 * v + i) by lia.
    rewrite IH by lia. by replace (S from + v) with (from + S v) by lia.
Qed.

Lemma length_elementRecords (T : gmap texid BaseTexture) (e : Element) :
  is_Some (T !! baseTexture (_texture e)) →
  length (elementRecords premultiplyTint T e) = lanesOf e.
Proof.
  intros [tex Htex]. unfold elementRecords, lanesOf.
  by rewrite Htex, length_vertexRecords, length_seq.
Qed.

(** Where the colour of vertex [v] of element [k] lies among the lanes
    written by one call. *)
Lemma attributeLanes_color (T : gmap texid BaseTexture) (els : list Element) :
  ∀ (k v : nat) (e : Element) (tex : BaseTexture),
    (∀ j e', els !! j = Some e' → is_Some (T !! baseTexture (_texture e'))) →
    els !! k = Some e → T !! baseTexture (_texture e) = Some tex →
    v < Nat.div2 (S (length (vertexData e))) →
    attributeLanes premultiplyTint T els
      !! (sum_list (lanesOf <$> take k els) + 6 * v + 4)
    = Some (U32 (ToUint32 (argb (worldAlpha e) (_tintRGB e) (alphaMode tex)))).
Proof.
  induction els as [|e0 rest IH]; intros k v e tex Htex Hk He Hv; [done |].
  unfold attributeLanes. rewrite join_fmap_cons.
  pose proof (length_elementRecords T e0 (Htex 0 e0 eq_refl)) as Hlen.
  destruct k as [|k].
  - injection Hk as ->. cbn [take fmap list_fmap sum_list sum_list_with].
    rewrite lookup_app_l by (rewrite Hlen; unfold lanesOf; lia).
    unfold elementRecords. rewrite He. cbn [Nat.add].
    by rewrite (vertexRecords_lookup _ _ _ _ _ 0 v 4) by lia.
  - rewrite firstn_cons, fmap_cons.
    change (sum_list (lanesOf e0 :: (lanesOf <$> take k rest)))
      with (lanesOf e0 + sum_list (lanesOf <$> take k rest)).
    rewrite lookup_app_r by (rewrite Hlen; lia). rewrite Hlen.
    replace (lanesOf e0 + sum_list (lanesOf <$> take k rest) + 6 * v + 4 - lanesOf e0)
      with (sum_list (lanesOf <$> take k rest) + 6 * v + 4) by lia.
    apply (IH k v e tex); try done.
    intros j e' Hj. by apply (Htex (S j) e').
Qed.

(** C5. The colour [packInterleavedGeometry] stores for an element: in the
    lane at offset 4 of each of its vertex records (as far as the lane lies
    inside the buffer), as an unsigned 32-bit number, and computed from the
    tint and [alpha = min(worldAlpha, 1)].
    When the element's base texture is premultiplied ([alphaMode] truthy)
    and the opacity is below 1 it is [premultiplyTint(tint, alpha)].  In
    every other case, for a 24-bit tint and an opacity that is not negative,
    its low 24 bits are the tint, unchanged, and its top byte is the double
    product [alpha * 255] cut to a whole number, which lies in 0 .. 255. *)
Theorem packed_color (start finish : nat) (s s' : Renderer) (ab : bufid)
    (vb : ViewableBuffer) :
  packInterleavedGeometry start finish s = Some s' →
  _attributeBuffer s = Some ab →
  viewableBuffers s !! ab = Some vb →
  ∃ (els : list Element) (vb' : ViewableBuffer),
    length els = finish - start ∧
    (∀ k e, els !! k = Some e → js_get (_bufferedElements s) (start + k) = Some e) ∧
    viewableBuffers s' !! ab = Some vb' ∧
    ∀ k e, els !! k = Some e →
      ∃ (tex : BaseTexture) (color : Z),
        baseTextures s !! baseTexture (_texture e) = Some tex ∧
        (∀ v, v < Nat.div2 (S (length (vertexData e))) →
           let p := _aIndex s + sum_list (lanesOf <$> take k els) + 6 * v + 4 in
           p < length (lanes vb) → lanes vb' !! p = Some (U32 color)) ∧
        let alpha := js_min (worldAlpha e) 1 in
        (alphaMode tex ≠ 0%Z → (worldAlpha e < 1)%Q →
           alpha = worldAlpha e ∧
           color = ToUint32 (premultiplyTint (_tintRGB e) alpha)) ∧
        ((0 ≤ _tintRGB e < 2 ^ 24)%Z → (0 <= worldAlpha e)%Q →
         alphaMode tex = 0%Z ∨ (1 <= worldAlpha e)%Q →
           Z.land color 16777215 = _tintRGB e ∧
           Z.shiftr color 24 = Ftruncate (binary64 (alpha * 255)) ∧
           (0 ≤ Ftruncate (binary64 (alpha * 255)) ≤ 255)%Z).
Proof.
  intros H Hab Hvb.
  destruct (packInterleavedGeometry_view _ _ _ _ H)
    as (els & ab' & vb0 & Hab' & Hvb' & Hlen & Hels & Hv & Ha & _).
  rewrite Hab in Hab'. injection Hab' as <-.
  rewrite Hvb in Hvb'. injection Hvb' as <-.
  pose proof (packInterleavedGeometry_textures _ _ _ _ H) as Htexs.
  assert (∀ j e', els !! j = Some e' →
                  is_Some (baseTextures s !! baseTexture (_texture e'))) as Hall.
  { intros j e' Hj. apply (Htexs j e'); [| by apply Hels].
    apply lookup_lt_Some in Hj. lia. }
  eexists els, _. split; [done |]. split; [done |]. split; [exact Hv |].
  intros k e Hk. destruct (Hall k e Hk) as [tex Htex].
  exists tex, (ToUint32 (argb (worldAlpha e) (_tintRGB e) (alphaMode tex))).
  split; [done |]. split; [| split].
  - intros v Hlt p Hp. cbn [lanes].
    pose proof (attributeLanes_color _ els k v e tex Hall Hk Htex Hlt) as Hc.
    subst p. rewrite list_lookup_inserts.
    + rewrite <- Hc. f_equal. lia.
    + apply lookup_lt_Some in Hc. lia.
    + done.
  - intros Hm Hlt.
    destruct (argb_premultiplied (worldAlpha e) (_tintRGB e) (alphaMode tex) Hm Hlt)
      as [Ha' Hc].
    split; [done |]. by rewrite Hc, Ha'.
  - intros Ht Hw Hcase.
    by apply (argb_straight (worldAlpha e) (_tintRGB e) (alphaMode tex)).
Qed.

(** X1. [packInterleavedGeometry] writes the attribute records of the packed
    elements back to back from the attribute cursor on: six lanes per vertex
    (x, y, u, v, packed colour, texture unit), vertex after vertex, element
    after element.  Lanes that fall inside the buffer hold exactly these
    records, lanes outside the written stretch keep their contents, and the
    cursor moves on by the number of lanes of the records. *)
Theorem pack_attribute_layout (start finish : nat) (s s' : Renderer) (ab : bufid)
    (vb : ViewableBuffer) :
  packInterleavedGeometry start finish s = Some s' →
  _attributeBuffer s = Some ab →
  viewableBuffers s !! ab = Some vb →
  ∃ (els : list Element) (vb' : ViewableBuffer),
    let L := attributeLanes premultiplyTint (baseTextures s) els in
    length els = finish - start ∧
    (∀ k e, els !! k = Some e → js_get (_bufferedElements s) (start + k) = Some e) ∧
    viewableBuffers s' !! ab = Some vb' ∧
    byteLength vb' = byteLength vb ∧
    length (lanes vb') = length (lanes vb) ∧
    _aIndex s' = _aIndex s + length L ∧
    (∀ p x, L !! p = Some x → _aIndex s + p < length (lanes vb) →
       lanes vb' !! (_aIndex s + p) = Some x) ∧
    (∀ p, p < _aIndex s ∨ _aIndex s + length L ≤ p → lanes vb' !! p = lanes vb !! p).
Proof.
  intros H Hab Hvb.
  destruct (packInterleavedGeometry_view _ _ _ _ H)
    as (els & ab' & vb0 & Hab' & Hvb' & Hlen & Hels & Hv & Ha & _).
  rewrite Hab in Hab'. injection Hab' as <-.
  rewrite Hvb in Hvb'. injection Hvb' as <-.
  eexists els, _. cbv zeta.
  split; [done |]. split; [done |]. split; [exact Hv |]. cbn [byteLength lanes].
  split; [done |]. split; [by rewrite length_inserts |]. split; [done |]. split.
  - intros p x Hp Hin. rewrite list_lookup_inserts.
    + by replace (_aIndex s + p - _aIndex s) with p by lia.
    + apply lookup_lt_Some in Hp. lia.
    + done.
  - intros p [Hlt | Hge].
    + by apply list_lookup_inserts_lt.
    + by apply list_lookup_inserts_ge.
Qed.

(** X2. After [packInterleavedGeometry] every slot of [_bufferedElements] in
    the packed range is [null], and a later call whose range contains one of
    these slots throws: no element is ever packed twice. *)
Theorem pack_clears_and_never_repacks (start finish : nat) (s s' : Renderer) :
  packInterleavedGeometry start finish s = Some s' →
  (∀ j, start ≤ j < finish → js_get (_bufferedElements s') j = None) ∧
  (∀ a b j, start ≤ j < finish → a ≤ j < b →
     packInterleavedGeometry a b s' = None).
Proof.
  intros H.
  destruct (packInterleavedGeometry_view _ _ _ _ H)
    as (_ & _ & _ & _ & _ & _ & _ & _ & _ & Hnull).
  assert (∀ j, start ≤ j < finish → js_get (_bufferedElements s') j = None) as Hn.
  { intros j Hj. apply Hnull. lia. }
  split; [done |]. intros a b j Hj Hab.
  destruct (packInterleavedGeometry a b s') as [s2|] eqn:H2; [| done].
  exfalso.
  destruct (packInterleavedGeometry_spec _ _ _ _ H2)
    as (els & _ & _ & _ & _ & _ & Hlen & Hels & _).
  destruct (lookup_lt_is_Some_2 els (j - a)) as [e He]; [lia |].
  apply Hels in He. replace (a + (j - a)) with j in He by lia.
  rewrite Hn in He by done. done.
Qed.

(** X3. Edge cases of [packInterleavedGeometry]: without an attribute buffer
    it throws, whatever the range; with one, an empty range
    ([finish <= start]) leaves the renderer exactly as it was. *)
Theorem pack_empty_range (start finish : nat) (s : Renderer) :
  (_attributeBuffer s = None → packInterleavedGeometry start finish s = None) ∧
  (finish ≤ start → ∀ ab vb,
     _attributeBuffer s = Some ab → viewableBuffers s !! ab = Some vb →
     packInterleavedGeometry start finish s = Some s).
Proof.
  split.
  - intros Hab. unfold Batch.packInterleavedGeometry. by rewrite Hab.
  - intros Hle ab vb Hab Hvb. unfold Batch.packInterleavedGeometry.
    rewrite Hab. cbn [mbind option_bind]. rewrite Hvb. cbn [mbind option_bind].
    replace (finish - start) with 0 by lia. cbn [for_loop mbind option_bind].
    cbn [p_view p_indexBuffer p_elements p_aIndex p_iIndex].
    f_equal.
    assert (<[ab := {| byteLength := byteLength vb; lanes := lanes vb |}]>
              (viewableBuffers s) = viewableBuffers s) as Hid.
    { apply insert_id. rewrite Hvb. by destruct vb. }
    rewrite Hid.
    destruct (_indexBuffer s) as [ib|] eqn:Hib; cbn.
    + rewrite Hib. cbn.
      destruct (uint16Arrays s !! ib) as [d|] eqn:Hd; cbn.
      * rewrite (insert_id _ _ _ Hd). clear. by destruct s.
      * clear. by destruct s.
    + rewrite Hib. cbn. clear. by destruct s.
Qed.

(** ** Draw call builder: what one call produces *)

Lemma set_dc_blend_id (dc : BatchDrawCall) : set_dc_blend (dc_blend dc) dc = dc.
Proof. by destruct dc. Qed.

Lemma set_drawCalls_id (s : Renderer) : set_drawCalls (_drawCalls s) s = s.
Proof. by destruct s. Qed.

Lemma packDrawCall_full (k start finish : nat) (s s' : Renderer) (dc : BatchDrawCall) :
  _drawCalls s !! k = Some dc →
  packDrawCall k start finish s = Some s' →
  ∃ s2, packInterleavedGeometry start finish s = Some s2 ∧
        s' = set_drawCalls
               (<[k := set_dc_size (_iIndex s2 - _iIndex s) (set_dc_start (_iIndex s) dc)]>
                  (_drawCalls s)) s2.
Proof.
  intros Hdc. unfold Batch.packDrawCall. intros H.
  destruct (withDrawCall k (set_dc_start (_iIndex s)) s) as [s1|] eqn:H1; [|done].
  cbn [mbind option_bind] in H.
  apply withDrawCall_spec in H1 as (dc1 & Hdc1 & ->).
  rewrite Hdc in Hdc1. injection Hdc1 as <-.
  rewrite packInterleavedGeometry_drawCalls in H.
  destruct (packInterleavedGeometry start finish s) as [s2|] eqn:H2; [|done].
  cbn [mbind option_bind fmap option_fmap option_map] in H.
  apply withDrawCall_spec in H as (dc' & Hdc' & ->).
  cbn [_drawCalls set_drawCalls] in Hdc'.
  rewrite list_lookup_insert_eq in Hdc' by by eapply lookup_lt_Some.
  injection Hdc' as <-.
  exists s2. split; [done |]. cbn [_drawCalls set_drawCalls _iIndex].
  by rewrite list_insert_insert_eq.
Qed.

(** The loop of [buildDrawCalls] leaves in the current draw call the blend
    mode of the last element it has seen. *)
Lemma buildDrawCalls_loop_blend (texArray n : nat) :
  ∀ (from : nat) (st st' : Renderer * DrawCallLocals) (dc0 : BatchDrawCall),
    l_start st.2 ≤ from →
    _drawCalls st.1 !! l_dcIndex st.2 = Some dc0 →
    for_loop (buildDrawCallsStep texArray) from n st = Some st' →
    st'.2 = st.2 ∧
    ∃ b, st'.1 = set_drawCalls
                   (<[l_dcIndex st.2 := set_dc_blend b dc0]> (_drawCalls st.1)) st.1 ∧
         (n = 0 → b = dc_blend dc0) ∧
         (0 < n → ∃ e, js_get (_bufferedElements st.1) (from + n - 1) = Some e ∧
                       effectiveBlend premultiplyBlendMode (baseTextures st.1) e = Some b).
Proof.
  induction n as [|n IH]; intros from st st' dc0 Hle Hdc H.
  - simpl in H. injection H as <-. split; [done |]. exists (dc_blend dc0).
    split; [| split; [done | lia]].
    rewrite set_dc_blend_id, (list_insert_id _ _ _ Hdc). by rewrite set_drawCalls_id.
  - rewrite for_loop_S in H.
    destruct (buildDrawCallsStep texArray from st) as [st1|] eqn:H1; [|done].
    cbn [mbind option_bind] in H.
    apply buildDrawCallsStep_no_split in H1
      as (Hl & sp & tx & dc & Hsp & Htx & Hdc' & Hs1); [| done].
    rewrite Hdc in Hdc'. injection Hdc' as <-.
    set (b1 := premultiplyBlendMode (if truthy (alphaMode tx) then 1 else 0)
                 (blendMode sp)) in *.
    assert (_drawCalls st1.1 !! l_dcIndex st1.2 = Some (set_dc_blend b1 dc0)) as Hdc1.
    { rewrite Hs1, Hl. cbn [_drawCalls set_drawCalls].
      apply list_lookup_insert_eq. by eapply lookup_lt_Some. }
    eapply (IH (S from) st1 st' (set_dc_blend b1 dc0)) in H
      as (Hl' & b & Hs' & Hb0 & Hbn); [| rewrite Hl; lia | done].
    split; [congruence |]. exists b. split; [| split; [lia |]].
    + rewrite Hs', Hs1, Hl. cbn [_drawCalls set_drawCalls].
      by rewrite list_insert_insert_eq.
    + intros _. destruct n as [|n].
      * exists sp. replace (from + 1 - 1) with from by lia. split; [done |].
        unfold effectiveBlend. rewrite Htx. cbn. rewrite Hb0 by done. done.
      * destruct Hbn as (e & He & Heb); [lia |].
        exists e. rewrite Hs1 in He, Heb. cbn in He, Heb.
        replace (from + S (S n) - 1) with (S from + S n - 1) by lia. by split.
Qed.

(** X4. One call of [buildDrawCalls] on the elements [start .. finish - 1]
    never produces more than one draw call.  It stamps the pooled draw call
    at the cursor with the texture array and with the effective blend mode
    of the LAST element of the range (-1 if the range is empty).  If the
    [start] that this pooled draw call still carries from its previous use is
    below [finish], the whole range is packed into it and the cursor
    advances by one; otherwise nothing is packed, the cursor stays, and the
    elements of the range are not drawn. *)
Theorem buildDrawCalls_outcome (texArray start finish : nat) (s s' : Renderer) :
  buildDrawCalls texArray start finish s = Some s' →
  ∃ (dc0 : BatchDrawCall) (b : Z),
    _drawCalls s !! _dcIndex s = Some dc0 ∧
    (finish ≤ start → b = (-1)%Z) ∧
    (start < finish →
       ∃ e, js_get (_bufferedElements s) (finish - 1) = Some e ∧
            effectiveBlend premultiplyBlendMode (baseTextures s) e = Some b) ∧
    if dc_start dc0 <? finish
    then ∃ s2, packInterleavedGeometry start finish s = Some s2 ∧
               s' = set_dcIndex (S (_dcIndex s))
                      (set_drawCalls
                         (<[_dcIndex s :=
                              {| dc_texArray := Some texArray; dc_blend := b;
                                 dc_type := dc_type dc0; dc_start := _iIndex s;
                                 dc_size := _iIndex s2 - _iIndex s |}]>
                            (_drawCalls s)) s2)
    else s' = set_drawCalls
                (<[_dcIndex s :=
                     {| dc_texArray := Some texArray; dc_blend := b;
                        dc_type := dc_type dc0; dc_start := dc_start dc0;
                        dc_size := dc_size dc0 |}]> (_drawCalls s)) s.
Proof.
  unfold Batch.buildDrawCalls. intros H. cbv zeta in H.
  destruct (withDrawCall (_dcIndex s) _ s) as [s1|] eqn:H1; [|done].
  cbn [mbind option_bind] in H.
  apply withDrawCall_spec in H1 as (dc0 & Hdc0 & ->).
  match type of H with
  | (for_loop ?b ?i ?n ?st ≫= _) = _ => destruct (for_loop b i n st) as [st'|] eqn:Hloop
  end; [|done].
  cbn [mbind option_bind] in H.
  eapply (buildDrawCalls_loop_blend _ _ _ _ _
            (set_dc_blend (-1) (set_dc_texArray (Some texArray) dc0))) in Hloop
    as (Hl & b & Hs & Hb0 & Hbn); [| done |].
  2:{ cbn. apply list_lookup_insert_eq. by eapply lookup_lt_Some. }
  cbn [fst snd l_dcIndex l_start _drawCalls set_drawCalls] in Hl, Hs.
  rewrite list_insert_insert_eq in Hs.
  rewrite Hl in H. cbn [l_dcIndex l_start] in H. rewrite Hs in H.
  cbn [_drawCalls set_drawCalls] in H.
  rewrite list_lookup_insert_eq in H by by eapply lookup_lt_Some.
  cbn [mbind option_bind dc_start set_dc_blend set_dc_texArray] in H.
  exists dc0, b. split; [done |]. split; [| split].
  - intros Hle. rewrite Hb0 by lia. done.
  - intros Hlt. destruct Hbn as (e & He & Heb); [lia |].
    exists e. cbn in He, Heb.
    replace (start + (finish - start) - 1) with (finish - 1) in He by lia.
    by split.
  - destruct (dc_start dc0 <? finish).
    + match type of H with
      | ((?p ≫= _) ≫= _) = _ => destruct p as [s3|] eqn:Hp
      end; [|done].
      cbn [mbind option_bind fst snd] in H. injection H as <-.
      eapply packDrawCall_full in Hp as (s2 & Hpack & ->).
      2:{ cbn. apply list_lookup_insert_eq. by eapply lookup_lt_Some. }
      rewrite !packInterleavedGeometry_drawCalls in Hpack.
      destruct (packInterleavedGeometry start finish s) as [s2'|] eqn:Hp2;
        cbn [fmap option_fmap option_map] in Hpack; [|done].
      injection Hpack as <-.
      exists s2'. split; [done |]. cbn. by rewrite list_insert_insert_eq.
    + cbn [mbind option_bind fst snd] in H. injection H as <-.
      cbn. clear. by destruct s.
Qed.

(** ** Binding textures and issuing the draw calls *)

Lemma set_gl_textureArrays_id (s : Renderer) :
  set_textureArrays (_textureArrays s) (set_gl (gl s) s) = s.
Proof. by destruct s. Qed.

Lemma bindAndClearTexArray_spec (k : nat) (s s' : Renderer) :
  Batch.bindAndClearTexArray k s = Some s' →
  ∃ (ta : BatchTextureArray) (elements' : list (option texid)),
    _textureArrays s !! k = Some ta ∧
    s' = set_textureArrays
           (<[k := {| ta_elements := elements'; ta_ids := ta_ids ta; ta_count := 0 |}]>
              (_textureArrays s))
           (set_gl (gl s ++ bindEvents ta) s) ∧
    (∀ j, js_get elements' j
          = if decide (j < ta_count ta) then None else js_get (ta_elements ta) j).
Proof.
  unfold Batch.bindAndClearTexArray. intros H.
  destruct (_textureArrays s !! k) as [ta|] eqn:Hta; [|done].
  cbn [mbind option_bind] in H.
  destruct (for_loop (Batch.bindAndClearStep k) 0 (ta_count ta) s) as [s1|] eqn:Hloop;
    [|done].
  cbn [mbind option_bind] in H.
  apply (for_loop_inv
           (λ i st, ∃ E,
              st = set_textureArrays
                     (<[k := {| ta_elements := E; ta_ids := ta_ids ta;
                                ta_count := ta_count ta |}]> (_textureArrays s))
                     (set_gl (gl s ++ ((λ j, TextureBind (js_get (ta_elements ta) j)
                                                 (ta_ids ta !! j)) <$> seq 0 i)) s) ∧
              ∀ j, js_get E j = if decide (j < i) then None
                                else js_get (ta_elements ta) j)) in Hloop.
  - destruct Hloop as (E & -> & HE). rewrite Nat.add_0_l in HE.
    cbn [_textureArrays set_textureArrays] in H.
    rewrite list_lookup_insert_eq in H by by eapply lookup_lt_Some.
    cbn [mbind option_bind] in H. injection H as <-.
    exists ta, E. split; [done |]. split; [| done].
    cbn. by rewrite list_insert_insert_eq.
  - exists (ta_elements ta). split.
    + cbn [seq fmap list_fmap]. rewrite app_nil_r.
      assert ({| ta_elements := ta_elements ta; ta_ids := ta_ids ta;
                 ta_count := ta_count ta |} = ta) as -> by by destruct ta.
      rewrite (list_insert_id _ _ _ Hta). by rewrite set_gl_textureArrays_id.
    + intros j. case_decide; [lia | done].
  - intros i st st1 Hi (E & -> & HE). unfold Batch.bindAndClearStep.
    cbn [_textureArrays set_textureArrays].
    rewrite list_lookup_insert_eq by by eapply lookup_lt_Some.
    cbn [mbind option_bind]. intros [= <-].
    exists (js_set E i None). split.
    + rewrite seq_S, fmap_app. cbn. rewrite list_insert_insert_eq. rewrite HE.
      case_decide; [lia |]. by rewrite <- app_assoc.
    + intros j. destruct (decide (j = i)) as [-> | Hne].
      * rewrite js_get_set_eq. case_decide; [done | lia].
      * rewrite js_get_set_ne by done. rewrite HE.
        repeat case_decide; try done; lia.
Qed.

(** X5. [bindAndClearTexArray] binds the first [count] textures of the array,
    in order, each to the unit recorded in [ids], then empties the array:
    its [count] is zero, the slots it has bound are [null], and nothing else
    in the renderer changes. *)
Theorem bindAndClearTexArray_binds_and_empties (k : nat) (s s' : Renderer) :
  Batch.bindAndClearTexArray k s = Some s' →
  ∃ (ta ta' : BatchTextureArray),
    _textureArrays s !! k = Some ta ∧
    s' = set_textureArrays (<[k := ta']> (_textureArrays s))
           (set_gl (gl s ++ bindEvents ta) s) ∧
    ta_count ta' = 0 ∧ ta_ids ta' = ta_ids ta ∧
    (∀ j, j < ta_count ta → js_get (ta_elements ta') j = None) ∧
    (∀ j, ta_count ta ≤ j → js_get (ta_elements ta') j = js_get (ta_elements ta) j).
Proof.
  intros H. apply bindAndClearTexArray_spec in H as (ta & E & Hta & -> & HE).
  eexists ta, _. split; [done |]. split; [reflexivity |]. cbn.
  split; [done |]. split; [done |]. split.
  - intros j Hj. rewrite HE. case_decide; [done | lia].
  - intros j Hj. rewrite HE. case_decide; [lia | done].
Qed.

Lemma withoutTextureBinds_bindEvents (ta : BatchTextureArray) :
  withoutTextureBinds (bindEvents ta) = [].
Proof.
  unfold withoutTextureBinds, bindEvents.
  induction (seq 0 (ta_count ta)) as [|j l IH]; [done |].
  rewrite fmap_cons, filter_cons_False; [done |]. cbn. done.
Qed.

Lemma bindAndClearTexArray_cleared (k : nat) (s s' : Renderer) :
  Batch.bindAndClearTexArray k s = Some s' →
  cleared (_textureArrays s') k ∧
  (∀ t, cleared (_textureArrays s) t → cleared (_textureArrays s') t) ∧
  _drawCalls s' = _drawCalls s ∧
  withoutTextureBinds (gl s') = withoutTextureBinds (gl s).
Proof.
  intros H. apply bindAndClearTexArray_spec in H as (ta & E & Hta & -> & HE).
  cbn. split; [| split; [| split; [done |]]].
  - eexists. split; [apply list_lookup_insert_eq; by eapply lookup_lt_Some | done].
  - intros t (ta0 & Ht & H0). destruct (decide (t = k)) as [-> | Hne].
    + eexists. split; [apply list_lookup_insert_eq; by eapply lookup_lt_Some | done].
    + exists ta0. by rewrite list_lookup_insert_ne.
  - unfold withoutTextureBinds. rewrite filter_app.
    fold (withoutTextureBinds (bindEvents ta)).
    by rewrite withoutTextureBinds_bindEvents, app_nil_r.
Qed.

Lemma drawBatches_loop (s : Renderer) (n : nat) (st : Renderer * option nat) :
  for_loop Batch.drawBatchesStep 0 n (s, None) = Some st →
  _drawCalls st.1 = _drawCalls s ∧
  n ≤ length (_drawCalls s) ∧
  withoutTextureBinds (gl st.1)
    = withoutTextureBinds (gl s) ++ mjoin (drawEvents <$> take n (_drawCalls s)) ∧
  (∀ t, cleared (_textureArrays s) t → cleared (_textureArrays st.1) t) ∧
  (∀ i dc t, i < n → _drawCalls s !! i = Some dc → dc_texArray dc = Some t →
     cleared (_textureArrays st.1) t).
Proof.
  intros H.
  apply (for_loop_inv
           (λ i st,
              _drawCalls st.1 = _drawCalls s ∧ i ≤ length (_drawCalls s) ∧
              withoutTextureBinds (gl st.1)
                = withoutTextureBinds (gl s) ++ mjoin (drawEvents <$> take i (_drawCalls s)) ∧
              (∀ t, cleared (_textureArrays s) t → cleared (_textureArrays st.1) t) ∧
              (∀ i' dc t, i' < i → _drawCalls s !! i' = Some dc →
                 dc_texArray dc = Some t → cleared (_textureArrays st.1) t) ∧
              (∀ t, st.2 = Some t → cleared (_textureArrays st.1) t))) in H.
  - rewrite Nat.add_0_l in H. by destruct H as (? & ? & ? & ? & ? & _).
  - cbn [fst snd]. split; [done |]. split; [lia |]. split; [by rewrite app_nil_r |].
    split; [done |]. split; [intros; lia | done].
  - clear H st. intros i st st1 _ (Hdc & Hi & Hgl & Hkeep & Hcl & Hcur).
    unfold Batch.drawBatchesStep. cbv zeta.
    rewrite Hdc. destruct (_drawCalls s !! i) as [dc|] eqn:Hdci; [|done].
    cbn [mbind option_bind].
    assert (take (S i) (_drawCalls s) = take i (_drawCalls s) ++ [dc]) as Htake
      by by apply take_S_r.
    assert (S i ≤ length (_drawCalls s)) as HSi by by apply lookup_lt_Some in Hdci.
    destruct (decide (st.2 = dc_texArray dc)) as [Heq | Hne].
    + cbn [mbind option_bind fst snd]. intros [= <-]. cbn [fst snd _drawCalls set_gl gl
        _textureArrays].
      split; [done |]. split; [done |]. split; [| split; [done | split; [| done]]].
      * unfold withoutTextureBinds in *. rewrite filter_app, Hgl, Htake, fmap_app, join_app.
        cbn. rewrite ?app_nil_r. by rewrite <- app_assoc.
      * intros i' dc' t Hi' Hdc' Ht. destruct (decide (i' = i)) as [-> | Hn].
        -- rewrite Hdci in Hdc'. injection Hdc' as <-. apply Hcur. congruence.
        -- apply (Hcl i' dc' t); [lia | done | done].
    + destruct (dc_texArray dc) as [t0|] eqn:Ht0; [|done].
      cbn [mbind option_bind].
      destruct (Batch.bindAndClearTexArray t0 st.1) as [s1|] eqn:Hb; [|done].
      cbn [mbind option_bind fst snd]. intros [= <-].
      apply bindAndClearTexArray_cleared in Hb as (Hc0 & Hpres & Hdc1 & Hgl1).
      cbn [fst snd _drawCalls set_gl gl _textureArrays].
      split; [congruence |]. split; [done |]. split; [| split; [| split]].
      * unfold withoutTextureBinds in *. rewrite filter_app, Hgl1, Hgl, Htake, fmap_app,
          join_app. cbn. rewrite ?app_nil_r. by rewrite <- app_assoc.
      * intros t Ht. by apply Hpres, Hkeep.
      * intros i' dc' t Hi' Hdc' Ht. destruct (decide (i' = i)) as [-> | Hn].
        -- rewrite Hdci in Hdc'. injection Hdc' as <-.
           rewrite Ht0 in Ht. by injection Ht as <-.
        -- apply Hpres, (Hcl i' dc' t); [lia | done | done].
      * intros t [= <-]. done.
Qed.

(** X6. [drawBatches] issues, for the pooled draw calls [0 .. _dcIndex - 1]
    in order, one [setBlendMode] followed by one [drawElements] whose count
    is the draw call's size and whose byte offset is twice its start; apart
    from texture bindings nothing else reaches the graphics context, and the
    pool of draw calls is not modified.  It throws if the cursor points past
    the pool. *)
Theorem drawBatches_issues_draw_calls (s s' : Renderer) :
  Batch.drawBatches s = Some s' →
  _dcIndex s ≤ length (_drawCalls s) ∧
  _drawCalls s' = _drawCalls s ∧
  withoutTextureBinds (gl s')
    = withoutTextureBinds (gl s)
      ++ mjoin (drawEvents <$> take (_dcIndex s) (_drawCalls s)).
Proof.
  unfold Batch.drawBatches. intros H.
  destruct (for_loop Batch.drawBatchesStep 0 (_dcIndex s) (s, None)) as [st|] eqn:Hloop;
    [|done].
  cbn [mbind option_bind] in H. injection H as <-.
  apply drawBatches_loop in Hloop as (Hdc & Hn & Hgl & _). done.
Qed.

(** X7. After [drawBatches] every texture array that one of the issued draw
    calls refers to is empty again, and no texture array that was empty has
    been filled: the arrays are handed back to the pool reset. *)
Theorem drawBatches_empties_texture_arrays (s s' : Renderer) :
  Batch.drawBatches s = Some s' →
  (∀ i dc t, i < _dcIndex s → _drawCalls s !! i = Some dc → dc_texArray dc = Some t →
     cleared (_textureArrays s') t) ∧
  (∀ t, cleared (_textureArrays s) t → cleared (_textureArrays s') t).
Proof.
  unfold Batch.drawBatches. intros H.
  destruct (for_loop Batch.drawBatchesStep 0 (_dcIndex s) (s, None)) as [st|] eqn:Hloop;
    [|done].
  cbn [mbind option_bind] in H. injection H as <-.
  apply drawBatches_loop in Hloop as (_ & _ & _ & Hkeep & Hcl). done.
Qed.

(** ** Geometry slot pool *)

Lemma foldl_js_set {A} (v : option A) (n : nat) (arr : list (option A)) (j : nat) :
  js_get (foldl (λ a i, js_set a i v) arr (seq 0 n)) j
  = if decide (j < n) then v else js_get arr j.
Proof.
  induction n as [|n IH].
  - cbn [seq foldl]. destruct (decide (j < 0)); [lia | done].
  - rewrite seq_S, foldl_app. cbn [foldl]. rewrite Nat.add_0_l.
    destruct (decide (j = n)) as [-> | Hne].
    + rewrite js_get_set_eq. destruct (decide (n < S n)); [done | lia].
    + rewrite js_get_set_ne by done. rewrite IH.
      destruct (decide (j < n)), (decide (j < S n)); try done; lia.
Qed.

Lemma updateGeometry_covering (s : Renderer) (ab : bufid) (vb : ViewableBuffer) :
  geometryPoolOK s →
  _attributeBuffer s = Some ab → viewableBuffers s !! ab = Some vb →
  ∃ s', Batch.updateGeometry s = Some s' ∧
        geometryPoolOK s' ∧
        _flushId s' = (if CAN_UPLOAD_SAME_BUFFER s then _flushId s else S (_flushId s)) ∧
        gl s' = gl s ++ uploadEvents (CAN_UPLOAD_SAME_BUFFER s) (_flushId s) (lanes vb)
                          (default [] (_indexBuffer s ≫= (λ ib, uint16Arrays s !! ib))).
Proof.
  intros (Hpos & Hid & Hslots) Hab Hvb.
  unfold Batch.updateGeometry, Batch.uploadBuffers, uploadEvents.
  destruct (CAN_UPLOAD_SAME_BUFFER s) eqn:Hcan.
  - rewrite (Hslots _ Hid). cbn [mbind option_bind]. rewrite Hab.
    cbn [mbind option_bind]. rewrite Hvb. cbn [mbind option_bind].
    eexists. split; [reflexivity |]. unfold geometryPoolOK. cbn. rewrite ?Hcan.
    split; [done |]. split; [done |]. by rewrite <- app_assoc.
  - destruct (_packedGeometryPoolSize s <=? _flushId s) eqn:Hfull.
    + apply Nat.leb_le in Hfull.
      assert (_flushId s = _packedGeometryPoolSize s) as Heq by lia.
      cbn. rewrite js_get_set_eq. cbn [mbind option_bind]. rewrite Hab.
      cbn [mbind option_bind]. rewrite Hvb. cbn [mbind option_bind].
      eexists. split; [reflexivity |]. unfold geometryPoolOK. cbn. rewrite ?Hcan.
      split; [| split; [done | by rewrite <- app_assoc]].
      split; [lia |]. split; [lia |]. intros i Hi.
      destruct (decide (i = _flushId s)) as [-> | Hne].
      * apply js_get_set_eq.
      * rewrite js_get_set_ne by done. apply Hslots. lia.
    + apply Nat.leb_gt in Hfull.
      rewrite (Hslots _ Hfull). cbn [mbind option_bind]. rewrite Hab.
      cbn [mbind option_bind]. rewrite Hvb. cbn [mbind option_bind].
      eexists. split; [reflexivity |]. unfold geometryPoolOK. cbn. rewrite ?Hcan.
      split; [| split; [done | by rewrite <- app_assoc]].
      split; [done |]. split; [lia | done].
Qed.

(** X8. The geometry slot pool.  [contextChange] after the constructor
    creates the geometry objects of every slot of the pool; [contextChange]
    and [onPrerender] keep the pool covering; and on a covering pool
    [updateGeometry] never fails for want of a geometry object: with an
    attribute buffer in place it uploads both scratch buffers to the slot
    [_flushId] and, where the same buffer may not be uploaded twice in a
    frame, moves on to the next slot, growing the pool by one when it has
    used the last one. *)
Theorem geometry_pool_covers (s : Renderer) :
  (∀ batchSize vertexSize canUpload textures gcCount maxTextures,
     geometryPoolOK (Batch.contextChange maxTextures
                       (Batch.constructor batchSize vertexSize canUpload textures
                          gcCount))) ∧
  (geometryPoolOK s →
     (∀ maxTextures, geometryPoolOK (Batch.contextChange maxTextures s)) ∧
     geometryPoolOK (Batch.onPrerender s) ∧
     ∀ ab vb,
       _attributeBuffer s = Some ab → viewableBuffers s !! ab = Some vb →
       ∃ s', Batch.updateGeometry s = Some s' ∧
             geometryPoolOK s' ∧
             _flushId s' = (if CAN_UPLOAD_SAME_BUFFER s then _flushId s
                            else S (_flushId s)) ∧
             gl s' = gl s ++ uploadEvents (CAN_UPLOAD_SAME_BUFFER s) (_flushId s)
                               (lanes vb)
                               (default [] (_indexBuffer s ≫= (λ ib, uint16Arrays s !! ib)))).
Proof.
  split.
  - intros. unfold geometryPoolOK, Batch.contextChange, Batch.constructor. cbn.
    split; [lia |]. split; [destruct canUpload; lia |].
    intros i Hi. destruct i as [|[|i]]; [reflexivity | reflexivity | lia].
  - intros Hok. pose proof Hok as (Hpos & Hid & Hslots). split; [| split].
    + intros m. unfold geometryPoolOK, Batch.contextChange. cbn.
      split; [done |]. split; [done |]. intros i Hi.
      rewrite foldl_js_set. case_decide; [done | lia].
    + unfold geometryPoolOK, Batch.onPrerender. cbn.
      split; [done |]. split; [destruct (CAN_UPLOAD_SAME_BUFFER s); lia | done].
    + intros ab vb Hab Hvb. by apply (updateGeometry_covering s ab vb).
Qed.

(** ** Scratch buffer pool: what a fetch leaves alone *)

Lemma fresh_lookup_ne {A} (m : gmap bufid A) (b : bufid) (x : A) :
  m !! b = Some x → b ≠ fresh (dom m).
Proof.
  intros Hb ->. apply (is_fresh (dom m)). apply elem_of_dom. by eexists.
Qed.

(** X9. A fetch from the scratch buffer pool never evicts or replaces
    anything: every size-class already cached keeps its buffer, every
    buffer that exists keeps its contents, and fetching an attribute buffer
    leaves the index buffers and their cache alone (and the other way
    round).  A fetch only ever adds one block. *)
Theorem buffer_pool_never_evicts (C : Q) (s : Renderer) :
  let a := getAttributeBuffer C s in
  let i := getIndexBuffer C s in
  ((∀ k b, bc_slots (_aBuffers s) !! k = Some b → bc_slots (_aBuffers a.2) !! k = Some b) ∧
   (∀ b vb, viewableBuffers s !! b = Some vb → viewableBuffers a.2 !! b = Some vb) ∧
   uint16Arrays a.2 = uint16Arrays s ∧
   bc_slots (_iBuffers a.2) = bc_slots (_iBuffers s)) ∧
  ((∀ k b, bc_slots (_iBuffers s) !! k = Some b → bc_slots (_iBuffers i.2) !! k = Some b) ∧
   (∀ b ib, uint16Arrays s !! b = Some ib → uint16Arrays i.2 !! b = Some ib) ∧
   viewableBuffers i.2 = viewableBuffers s ∧
   _aBuffers i.2 = _aBuffers s).
Proof.
  intros a i. split.
  - subst a. unfold Batch.getAttributeBuffer. cbv zeta.
    set (k := log2 (nextPow2 (Qceiling (C / 8)))).
    set (cls := (nextPow2 (Qceiling (C / 8)) * 8)%Z).
    destruct (growLength_aBuffers (_aBuffers s) k s) as (Ha & Hv & Hu & Hs & _).
    generalize dependent (Batch.growLength (_aBuffers s) k s). intros g Ha Hv Hu Hs.
    destruct (bc_slots (_aBuffers g) !! cls) as [b0|] eqn:Hhit; cbn [fst snd].
    + rewrite Ha, Hv, Hu, Hs. done.
    + cbn. rewrite Hv, Hu, Hs. rewrite Ha in *.
      split; [| split; [| done]].
      * intros k' b Hk. rewrite lookup_insert_ne; [done | congruence].
      * intros b vb Hb. rewrite lookup_insert_ne; [done |].
        apply not_eq_sym. by eapply fresh_lookup_ne.
  - subst i. unfold Batch.getIndexBuffer. cbv zeta.
    set (k := log2 (nextPow2 (Qceiling (C / 12)))).
    set (cls := (nextPow2 (Qceiling (C / 12)) * 12)%Z).
    destruct (growLength_aBuffers (_iBuffers s) k s) as (Ha & Hv & Hu & Hs & _).
    generalize dependent (Batch.growLength (_iBuffers s) k s). intros g Ha Hv Hu Hs.
    destruct (bc_slots (_iBuffers g) !! k) as [b0|] eqn:Hhit; cbn [fst snd].
    + rewrite Ha, Hv, Hu, Hs. done.
    + cbn. rewrite Hv, Hu, Ha. rewrite Hs in *.
      split; [| split; [| done]].
      * intros k' b Hk. rewrite lookup_insert_ne; [done | congruence].
      * intros b ib Hb. rewrite lookup_insert_ne; [done |].
        apply not_eq_sym. by eapply fresh_lookup_ne.
Qed.

(** X10. Requests of one size-class share one buffer.  Two capacities that
    round to the same power-of-two number of granules get the same attribute
    buffer, and the second fetch allocates nothing.  Index buffers are filed
    under the exponent of their size-class, so two capacities whose classes
    have the same exponent get the same index buffer. *)
Theorem buffer_pool_shared_by_class (C C' : Q) (s : Renderer) :
  (nextPow2 (Qceiling (C' / 8)) = nextPow2 (Qceiling (C / 8)) →
   getAttributeBuffer C' (getAttributeBuffer C s).2 = getAttributeBuffer C s) ∧
  (log2 (nextPow2 (Qceiling (C' / 12))) = log2 (nextPow2 (Qceiling (C / 12))) →
   getIndexBuffer C' (getIndexBuffer C s).2 = getIndexBuffer C s).
Proof.
  split.
  - intros Hcls. unfold Batch.getAttributeBuffer, Batch.growLength. cbv zeta.
    rewrite Hcls.
    set (cls := (nextPow2 (Qceiling (C / 8)) * 8)%Z).
    set (k := log2 (nextPow2 (Qceiling (C / 8)))).
    destruct (bc_length (_aBuffers s)) as [l|] eqn:El;
      [destruct (l <=? k)%Z eqn:E|];
      destruct (bc_slots (_aBuffers s) !! cls) as [cached|] eqn:Hc;
      repeat (progress (cbn; rewrite ?El, ?E, ?Hc, ?lookup_insert_eq));
      done.
  - intros Hk. unfold Batch.getIndexBuffer, Batch.growLength. cbv zeta.
    rewrite Hk.
    set (k := log2 (nextPow2 (Qceiling (C / 12)))).
    destruct (bc_length (_iBuffers s)) as [l|] eqn:El;
      [destruct (l <=? k)%Z eqn:E|];
      destruct (bc_slots (_iBuffers s) !! k) as [cached|] eqn:Hc;
      repeat (progress (cbn; rewrite ?El, ?E, ?Hc, ?lookup_insert_eq,
                          ?(proj2 (Z.leb_gt (k + 1) k)) by lia));
      done.
Qed.

(** ** What the stages of a flush leave alone *)

Ltac keeps H := destruct H; split; cbn; first [done | congruence | lia].

Lemma buildKeeps_pack (s0 : Renderer) (start finish : nat) (s s' : Renderer) :
  buildKeeps s0 s → packInterleavedGeometry start finish s = Some s' → buildKeeps s0 s'.
Proof.
  intros Hk H.
  destruct (packInterleavedGeometry_spec _ _ _ _ H)
    as (els & ab & vb & vb' & el' & Hs & _).
  cbv zeta in Hs. subst s'. keeps Hk.
Qed.

Lemma buildKeeps_buildDrawCalls (s0 : Renderer) (texArray start finish : nat)
    (s s' : Renderer) :
  buildKeeps s0 s → buildDrawCalls texArray start finish s = Some s' → buildKeeps s0 s'.
Proof.
  intros Hk H.
  apply buildDrawCalls_spec in H as [(d & -> & Hlen) | (s2 & d & Hp & -> & Hlen & dc & Hdc & _)].
  - keeps Hk.
  - apply lookup_lt_Some in Hdc.
    apply (buildKeeps_pack s0) in Hp; [| done].
    assert (length (_drawCalls s) = length (_drawCalls s0)) by apply Hk.
    keeps Hp.
Qed.

Lemma batch_boundArray_length (k TICK : nat) (s s' : Renderer) :
  batch_boundArray k TICK s = Some s' →
  ∃ a b c, s' = set_baseTextures a (set_tempBoundTextures b (set_textureArrays c s)) ∧
           length c = length (_textureArrays s).
Proof.
  unfold Batch.batch_boundArray. intros H.
  destruct (_textureArrays s !! k); [|done].
  cbn [mbind option_bind] in H. injection H as <-. eexists _, _, _.
  split; [done |]. by rewrite length_insert.
Qed.

Lemma buildKeeps_buildTexturesStep (s0 : Renderer) (touch i : nat)
    (st st' : Renderer * TextureLocals) :
  buildKeeps s0 st.1 → buildTexturesStep touch i st = Some st' → buildKeeps s0 st'.1.
Proof.
  intros Hk. unfold Batch.buildTexturesStep. cbv zeta. intros H.
  destruct (js_get (_bufferedTextures st.1) i) as [tex|]; [|done].
  cbn [mbind option_bind] in H.
  match type of H with
  | (baseTextures ?t !! tex ≫= _) = _ =>
      set (s1 := t) in *;
      assert (buildKeeps s0 s1) as Hk1 by (subst s1; keeps Hk);
      clearbody s1
  end.
  destruct (baseTextures s1 !! tex) as [bt|]; [|done].
  cbn [mbind option_bind] in H.
  destruct (_batchEnabled bt =? l_TICK st.2).
  { by injection H as <-. }
  destruct (_textureArrays s1 !! l_countTexArrays st.2) as [texArray|]; [|done].
  cbn [mbind option_bind] in H.
  match type of H with
  | (?m ≫= _) = _ =>
      assert (∀ st1, m = Some st1 → buildKeeps s0 st1.1) as Hmid
  end.
  { intros st1 Hm. destruct (MAX_TEXTURES s1 <=? ta_count texArray).
    - destruct (batch_boundArray _ _ s1) as [s2|] eqn:Hb; [|done].
      cbn [mbind option_bind] in Hm.
      apply batch_boundArray_length in Hb as (a & b & c & -> & Hlen).
      destruct (buildDrawCalls _ _ _ _) as [s3|] eqn:Hd; [|done].
      cbn [mbind option_bind] in Hm. injection Hm as <-.
      cbn [fst snd].
      eapply buildKeeps_buildDrawCalls; [| exact Hd].
      keeps Hk1.
    - by injection Hm as <-. }
  match type of H with
  | (?m ≫= _) = _ => destruct m as [st1|]; [|done]
  end.
  pose proof (Hmid st1 eq_refl) as Hk2.
  cbn [mbind option_bind] in H.
  destruct (baseTextures st1.1 !! tex); [|done].
  cbn [mbind option_bind] in H.
  match type of H with
  | (?m ≫= _) = _ => destruct m; [|done]
  end.
  cbn [mbind option_bind] in H. injection H as <-. cbn [fst snd].
  destruct Hk2; split; cbn; rewrite ?length_insert; first [done | congruence | lia].
Qed.

Lemma buildKeeps_buildTexturesAndDrawCalls (s0 s s' : Renderer) :
  buildKeeps s0 s → buildTexturesAndDrawCalls s = Some s' → buildKeeps s0 s'.
Proof.
  intros Hk.
  unfold Batch.buildTexturesAndDrawCalls, Batch.batch_copyBoundTextures. cbv zeta.
  intros H.
  match type of H with
  | (for_loop ?b ?i ?n ?st ≫= _) = _ => destruct (for_loop b i n st) as [st'|] eqn:Hloop
  end; [|done].
  cbn [mbind option_bind] in H.
  apply (for_loop_inv (λ _ st, buildKeeps s0 st.1)) in Hloop.
  - destruct (_textureArrays st'.1 !! l_countTexArrays st'.2) as [texArray|]; [|done].
    cbn [mbind option_bind] in H.
    destruct (0 <? ta_count texArray).
    + destruct (batch_boundArray _ _ st'.1) as [s2|] eqn:Hb; [|done].
      cbn [mbind option_bind] in H.
      apply batch_boundArray_length in Hb as (a & b & c & -> & Hlen).
      destruct (buildDrawCalls _ _ _ _) as [s3|] eqn:Hd; [|done].
      cbn [mbind option_bind fst snd] in H. injection H as <-.
      eapply buildKeeps_buildDrawCalls in Hd; [| keeps Hloop].
      keeps Hd.
    + cbn [mbind option_bind fst snd] in H. injection H as <-. keeps Hloop.
  - cbn [fst snd]. keeps Hk.
  - intros i st st1 _ Hst Hstep. by eapply buildKeeps_buildTexturesStep.
Qed.

Lemma drawKeeps_bindAndClearTexArray (s0 : Renderer) (t : nat) (s s' : Renderer) :
  drawKeeps s0 s → Batch.bindAndClearTexArray t s = Some s' → drawKeeps s0 s'.
Proof.
  intros Hk H. apply bindAndClearTexArray_spec in H as (ta & E & Hta & -> & _).
  destruct Hk; split; cbn; rewrite ?length_insert; done.
Qed.

Lemma drawKeeps_drawBatches (s0 s s' : Renderer) :
  drawKeeps s0 s → Batch.drawBatches s = Some s' → drawKeeps s0 s'.
Proof.
  intros Hk. unfold Batch.drawBatches. intros H.
  destruct (for_loop Batch.drawBatchesStep 0 (_dcIndex s) (s, None)) as [st|] eqn:Hloop;
    [|done].
  cbn [mbind option_bind] in H. injection H as <-.
  apply (for_loop_inv (λ _ st, drawKeeps s0 st.1)) in Hloop; [done | done |].
  intros i st0 st1 _ Hst. unfold Batch.drawBatchesStep. cbv zeta. intros Hstep.
  destruct (_drawCalls st0.1 !! i) as [dc|]; [|done].
  cbn [mbind option_bind] in Hstep.
  destruct (decide (st0.2 = dc_texArray dc)).
  - cbn [mbind option_bind] in Hstep. injection Hstep as <-. cbn [fst]. keeps Hst.
  - destruct (dc_texArray dc) as [t|]; [|done].
    cbn [mbind option_bind] in Hstep.
    destruct (Batch.bindAndClearTexArray t st0.1) as [s1|] eqn:Hb; [|done].
    cbn [mbind option_bind] in Hstep. injection Hstep as <-. cbn [fst].
    eapply drawKeeps_bindAndClearTexArray in Hb; [| exact Hst]. keeps Hb.
Qed.

Lemma withoutTextureBinds_uploadEvents (c : bool) (slot : nat) (a : list Lane)
    (i : list Z) :
  withoutTextureBinds (uploadEvents c slot a i) = uploadEvents c slot a i.
Proof. by destruct c. Qed.

(** [updateGeometry] succeeds only with an attribute buffer in place and a
    geometry in the slot it uses; it then uploads both scratch buffers. *)
Lemma updateGeometry_spec (s s' : Renderer) :
  Batch.updateGeometry s = Some s' →
  ∃ ab vb,
    _attributeBuffer s = Some ab ∧ viewableBuffers s !! ab = Some vb ∧
    drawKeeps s s' ∧
    _flushId s' = (if CAN_UPLOAD_SAME_BUFFER s then _flushId s else S (_flushId s)) ∧
    gl s' = gl s ++ uploadEvents (CAN_UPLOAD_SAME_BUFFER s) (_flushId s) (lanes vb)
                      (default [] (_indexBuffer s ≫= (λ ib, uint16Arrays s !! ib))).
Proof.
  unfold Batch.updateGeometry, Batch.uploadBuffers, uploadEvents. intros H.
  destruct (CAN_UPLOAD_SAME_BUFFER s).
  - destruct (js_get (_packedGeometries s) (_flushId s)); [|done].
    cbn [mbind option_bind] in H.
    destruct (_attributeBuffer s) as [ab|]; [|done]. cbn [mbind option_bind] in H.
    destruct (viewableBuffers s !! ab) as [vb|] eqn:Hvb; [|done].
    cbn [mbind option_bind] in H.
    injection H as <-. exists ab, vb. split; [done |]. split; [done |].
    split; [by split |]. split; [done |]. cbn. by rewrite <- app_assoc.
  - assert (∀ t : Renderer,
              (_attributeBuffer t = _attributeBuffer s ∧
               viewableBuffers t = viewableBuffers s ∧ drawKeeps s t ∧
               _flushId t = _flushId s ∧ gl t = gl s) →
              (_ ← js_get (_packedGeometries t) (_flushId t);
               ab ← _attributeBuffer t;
               attributeBuffer ← viewableBuffers t !! ab;
               Some (set_gl (gl t ++ [BufferUpdate (_flushId t) (lanes attributeBuffer);
                                      IndexBufferUpdate (_flushId t)
                                        (default [] (_indexBuffer t ≫=
                                                       (λ ib, uint16Arrays t !! ib)))]) t))
              ≫= (λ t, Some (set_flushId (S (_flushId t))
                               (set_gl (gl t ++ [GeometryBind (_flushId t); UpdateBuffers]) t)))
              = Some s' →
              ∃ ab vb,
                _attributeBuffer s = Some ab ∧ viewableBuffers s !! ab = Some vb ∧
                drawKeeps s s' ∧ _flushId s' = S (_flushId s) ∧
                gl s' = gl s ++ [BufferUpdate (_flushId s) (lanes vb);
                                 IndexBufferUpdate (_flushId s)
                                   (default [] (_indexBuffer s ≫=
                                                  (λ ib, uint16Arrays s !! ib)))]
                             ++ [GeometryBind (_flushId s); UpdateBuffers]) as Hgen.
    { clear H. intros t (Hab & Hv & Hk & Hf & Hg) H.
      destruct (js_get (_packedGeometries t) (_flushId t)); [|done].
      cbn [mbind option_bind] in H.
      destruct (_attributeBuffer t) as [ab|] eqn:Habt; [|done].
      cbn [mbind option_bind] in H.
      destruct (viewableBuffers t !! ab) as [vb|] eqn:Hvb; [|done].
      cbn [mbind option_bind] in H. injection H as <-.
      exists ab, vb. split; [congruence |]. split; [congruence |].
      split; [keeps Hk |]. cbn. split; [congruence |].
      rewrite Hf, Hg, <- app_assoc.
      rewrite (dk_indexBuffer _ _ Hk), (dk_uint16Arrays _ _ Hk). done. }
    apply Hgen in H; [done |].
    destruct (_ <=? _); cbn; (split; [done |]); (split; [done |]); by split.
Qed.

(** The state in which [flush] starts to build the batch: scratch buffers
    fetched, cursors at zero. *)
Lemma buildKeeps_prepared (s : Renderer) :
  let r := getAttributeBuffer (_vertexCount s) s in
  let sA := set_attributeBuffer (Some r.1) r.2 in
  let r := getIndexBuffer (Qnat (_indexCount sA)) sA in
  buildKeeps s (set_dcIndex 0 (set_iIndex 0 (set_aIndex 0 (set_indexBuffer (Some r.1) r.2)))).
Proof.
  cbv zeta.
  assert (buildKeeps s (set_dcIndex 0 s)) as Hk by (split; cbn; first [done | lia]).
  assert (∀ t, buildKeeps s (set_dcIndex 0 t) →
               buildKeeps s (set_dcIndex 0 (getAttributeBuffer (_vertexCount s) t).2)) as HA.
  { intros t Ht. unfold Batch.getAttributeBuffer, Batch.growLength. cbv zeta.
    destruct (bc_length (_aBuffers t)) as [l|]; [destruct (_ <=? _)%Z |];
      match goal with
      | |- context [match ?x with _ => _ end] => destruct x
      end; keeps Ht. }
  assert (∀ v t, buildKeeps s (set_dcIndex 0 t) →
                 buildKeeps s (set_dcIndex 0 (getIndexBuffer v t).2)) as HI.
  { intros v t Ht. unfold Batch.getIndexBuffer, Batch.growLength. cbv zeta.
    destruct (bc_length (_iBuffers t)) as [l|]; [destruct (_ <=? _)%Z |];
      match goal with
      | |- context [match ?x with _ => _ end] => destruct x
      end; keeps Ht. }
  apply HA in Hk.
  set (rA := getAttributeBuffer (_vertexCount s) s) in *.
  assert (buildKeeps s (set_dcIndex 0 (set_attributeBuffer (Some rA.1) rA.2))) as HkA
    by keeps Hk.
  set (sA := set_attributeBuffer (Some rA.1) rA.2) in *.
  apply (HI (Qnat (_indexCount sA))) in HkA.
  keeps HkA.
Qed.

(** The stages of a flush that has something to draw. *)
Lemma flush_stages (s s' : Renderer) :
  Qeq_bool (_vertexCount s) 0 = false →
  flush s = Some s' →
  ∃ s1 s2 s3,
    buildKeeps s s1 ∧
    Batch.updateGeometry s1 = Some s2 ∧
    Batch.drawBatches s2 = Some s3 ∧
    s' = set_indexCount 0 (set_vertexCount 0 (set_bufferSize 0 s3)).
Proof.
  intros E H. unfold Batch.flush in H. rewrite E in H. cbv zeta in H.
  pose proof (buildKeeps_prepared s) as Hk. cbv zeta in Hk.
  match type of H with
  | (buildTexturesAndDrawCalls ?t ≫= _) = _ =>
      destruct (buildTexturesAndDrawCalls t) as [s1|] eqn:H1; [|done]
  end.
  cbn [mbind option_bind] in H.
  destruct (Batch.updateGeometry s1) as [s2|] eqn:H2; [|done].
  cbn [mbind option_bind] in H.
  destruct (Batch.drawBatches s2) as [s3|] eqn:H3; [|done].
  cbn [mbind option_bind] in H. injection H as <-.
  exists s1, s2, s3. split; [| done].
  by eapply buildKeeps_buildTexturesAndDrawCalls.
Qed.

(** ** The writes of a flush stay inside the scratch buffers *)












(** ** The flush as a whole *)

(** X11. A flush draws the batch once.  After a flush that had something to
    draw the element buffer is empty and its counters are zero, so flushing
    (or stopping) again does nothing at all: no buffer is fetched, nothing
    is uploaded and no draw call is issued. *)
Theorem flush_twice (s s' : Renderer) :
  flush s = Some s' →
  flush s' = Some s' ∧
  Batch.stop nextPow2 log2 premultiplyBlendMode premultiplyTint copyBoundTextures
    boundArray s' = Some s' ∧
  (¬ (_vertexCount s == 0)%Q →
     _vertexCount s' = 0%Q ∧ _indexCount s' = 0 ∧ _bufferSize s' = 0).
Proof.
  intros H.
  destruct (Qeq_bool (_vertexCount s) 0) eqn:E.
  - assert (s' = s) as ->.
    { unfold Batch.flush in H. rewrite E in H. by injection H. }
    split; [done |]. split; [exact H |].
    intros Hnz. exfalso. apply Hnz. by apply Qeq_bool_iff.
  - apply flush_stages in H as (s1 & s2 & s3 & _ & _ & _ & ->); [| done].
    split; [done |]. split; [done |]. done.
Qed.

(** X12. A flush never resizes the renderer: the pools of draw calls and of
    texture arrays keep the length the constructor gave them and the
    settings keep their values.  The draw calls a flush builds all lie
    inside the pool; asking [buildDrawCalls] for a draw call past the end of
    the pool throws. *)
Theorem flush_keeps_pools (s s' : Renderer) :
  (flush s = Some s' →
     length (_drawCalls s') = length (_drawCalls s) ∧
     length (_textureArrays s') = length (_textureArrays s) ∧
     size s' = size s ∧ vertexSize s' = vertexSize s ∧
     MAX_TEXTURES s' = MAX_TEXTURES s ∧
     CAN_UPLOAD_SAME_BUFFER s' = CAN_UPLOAD_SAME_BUFFER s ∧
     (¬ (_vertexCount s == 0)%Q → _dcIndex s' ≤ length (_drawCalls s'))) ∧
  (∀ texArray start finish,
     length (_drawCalls s) ≤ _dcIndex s →
     buildDrawCalls texArray start finish s = None).
Proof.
  split.
  - intros H. destruct (Qeq_bool (_vertexCount s) 0) eqn:E.
    + assert (s' = s) as ->.
      { unfold Batch.flush in H. rewrite E in H. by injection H. }
      repeat (split; [done |]).
      intros Hnz. exfalso. apply Hnz. by apply Qeq_bool_iff.
    + apply flush_stages in H as (s1 & s2 & s3 & Hk & H2 & H3 & ->); [| done].
      apply updateGeometry_spec in H2 as (ab & vb & _ & _ & Hd2 & _).
      apply (drawKeeps_drawBatches s1) in H3; [| done].
      destruct Hk, H3. cbn. repeat (split; [congruence |]).
      intros _. rewrite dk_drawCalls0, dk_dcIndex0. done.
  - intros texArray start finish Hle. unfold Batch.buildDrawCalls, withDrawCall. cbv zeta.
    by rewrite (lookup_ge_None_2 _ _ Hle).
Qed.

(** [drawBatches] writes to the graphics context and to the texture arrays,
    and to nothing else. *)
Lemma drawBatches_form (s s' : Renderer) :
  Batch.drawBatches s = Some s' →
  ∃ ta g, s' = set_textureArrays ta (set_gl g s).
Proof.
  unfold Batch.drawBatches. intros H.
  destruct (for_loop Batch.drawBatchesStep 0 (_dcIndex s) (s, None)) as [st|] eqn:Hloop;
    [|done].
  cbn [mbind option_bind] in H. injection H as <-.
  apply (for_loop_inv (λ _ st, ∃ ta g, st.1 = set_textureArrays ta (set_gl g s)))
    in Hloop; [done | |].
  - exists (_textureArrays s), (gl s). cbn [fst]. by rewrite set_gl_textureArrays_id.
  - intros i st0 st1 _ (ta & g & Hst). unfold Batch.drawBatchesStep. cbv zeta.
    intros Hstep.
    destruct (_drawCalls st0.1 !! i) as [dc|]; [|done].
    cbn [mbind option_bind] in Hstep.
    destruct (decide (st0.2 = dc_texArray dc)).
    + cbn [mbind option_bind] in Hstep. injection Hstep as <-. cbn [fst].
      rewrite Hst. by eexists _, _.
    + destruct (dc_texArray dc) as [t|]; [|done].
      cbn [mbind option_bind] in Hstep.
      destruct (Batch.bindAndClearTexArray t st0.1) as [s1|] eqn:Hb; [|done].
      cbn [mbind option_bind] in Hstep. injection Hstep as <-. cbn [fst].
      apply bindAndClearTexArray_spec in Hb as (ta0 & E & _ & -> & _).
      rewrite Hst. by eexists _, _.
Qed.

(** X13. The commands of a flush.  A flush that has something to draw sends
    to the graphics context, apart from texture bindings, exactly one upload
    of the two scratch buffers as they stand when the batch is built, to the
    geometry in slot [_flushId], followed by one [setBlendMode] and one
    [drawElements] for each draw call it built, in order.  What was sent
    before is kept.  The slot moves on by one where the same buffer may not
    be uploaded twice in a frame, and stays otherwise. *)
Theorem flush_uploads_then_draws (s s' : Renderer) :
  ¬ (_vertexCount s == 0)%Q →
  flush s = Some s' →
  ∃ ab vb,
    _attributeBuffer s' = Some ab ∧ viewableBuffers s' !! ab = Some vb ∧
    withoutTextureBinds (gl s')
    = withoutTextureBinds (gl s)
      ++ uploadEvents (CAN_UPLOAD_SAME_BUFFER s) (_flushId s) (lanes vb)
           (default [] (_indexBuffer s' ≫= (λ ib, uint16Arrays s' !! ib)))
      ++ mjoin (drawEvents <$> take (_dcIndex s') (_drawCalls s')) ∧
    _flushId s' = (if CAN_UPLOAD_SAME_BUFFER s then _flushId s else S (_flushId s)).
Proof.
  intros Hnz H.
  assert (Qeq_bool (_vertexCount s) 0 = false) as E.
  { destruct (Qeq_bool (_vertexCount s) 0) eqn:E; [| done].
    exfalso. apply Hnz. by apply Qeq_bool_iff. }
  apply flush_stages in H as (s1 & s2 & s3 & Hk & H2 & H3 & ->); [| done].
  apply updateGeometry_spec in H2 as (ab & vb & Hab & Hvb & Hd2 & Hf2 & Hg2).
  pose proof (drawKeeps_drawBatches s1 s2 s3 Hd2 H3) as Hd3.
  pose proof (drawBatches_form _ _ H3) as (ta & g & Hform).
  assert (_flushId s3 = _flushId s2) as Hf3 by (by rewrite Hform).
  unfold Batch.drawBatches in H3.
  destruct (for_loop Batch.drawBatchesStep 0 (_dcIndex s2) (s2, None)) as [st|] eqn:Hloop;
    [|done].
  cbn [mbind option_bind] in H3. injection H3 as <-.
  apply drawBatches_loop in Hloop as (Hdc & _ & Hgl & _).
  exists ab, vb.
  cbn [_attributeBuffer viewableBuffers gl _flushId _indexBuffer uint16Arrays _dcIndex
       _drawCalls set_indexCount set_vertexCount set_bufferSize].
  rewrite (dk_attributeBuffer _ _ Hd3), (dk_viewableBuffers _ _ Hd3).
  rewrite (dk_indexBuffer _ _ Hd3), (dk_uint16Arrays _ _ Hd3).
  rewrite (dk_dcIndex _ _ Hd3), (dk_drawCalls _ _ Hd3).
  split; [done |]. split; [done |]. split.
  - rewrite Hgl, Hg2, (dk_drawCalls _ _ Hd2), (dk_dcIndex _ _ Hd2).
    unfold withoutTextureBinds at 1. rewrite filter_app.
    fold (withoutTextureBinds (gl s1)).
    fold (withoutTextureBinds
            (uploadEvents (CAN_UPLOAD_SAME_BUFFER s1) (_flushId s1) (lanes vb)
               (default [] (_indexBuffer s1 ≫= (λ ib, uint16Arrays s1 !! ib))))).
    rewrite withoutTextureBinds_uploadEvents.
    rewrite (bk_gl _ _ Hk), (bk_canUpload _ _ Hk), (bk_flushId _ _ Hk).
    by rewrite <- app_assoc.
  - rewrite Hf3, Hf2. by rewrite (bk_canUpload _ _ Hk), (bk_flushId _ _ Hk).
Qed.

(** ** Texture ticks *)

Lemma relocate_lookup (locs : gmap texid Z) (h : gmap texid BaseTexture) (t : texid) :
  relocate locs h !! t
  = (λ bt, match locs !! t with Some l => set_batchLocation l bt | None => bt end)
      <$> h !! t.
Proof.
  unfold relocate. rewrite map_lookup_imap. by destruct (h !! t).
Qed.

Lemma stampedHeap_relocate (g0 touch TICK : nat) (locs : gmap texid Z)
    (h : gmap texid BaseTexture) :
  stampedHeap g0 touch TICK h → stampedHeap g0 touch TICK (relocate locs h).
Proof.
  intros Hh t bt'. rewrite relocate_lookup.
  destruct (h !! t) as [bt|] eqn:Ht; [|done].
  cbn. intros [= <-]. specialize (Hh t bt Ht). by destruct (locs !! t).
Qed.

Lemma stampedSince_relocate (g0 : nat) (locs : gmap texid Z)
    (h : gmap texid BaseTexture) (t : texid) :
  stampedSince g0 h t → stampedSince g0 (relocate locs h) t.
Proof.
  intros (bt & Ht & Hlt). unfold stampedSince. rewrite relocate_lookup, Ht. cbn.
  eexists. split; [done |]. by destruct (locs !! t).
Qed.

Lemma stampedHeap_mono (g0 touch TICK TICK' : nat) (h : gmap texid BaseTexture) :
  TICK ≤ TICK' → stampedHeap g0 touch TICK h → stampedHeap g0 touch TICK' h.
Proof.
  intros Hle Hh t bt Ht. destruct (Hh t bt Ht). split; [lia | done].
Qed.

Lemma stampedHeap_stamp (g0 touch TICK : nat) (h : gmap texid BaseTexture) (tex : texid)
    (bt : BaseTexture) :
  stampedHeap g0 touch TICK h →
  stampedHeap g0 touch TICK (<[tex := stamp TICK touch bt]> h).
Proof.
  intros Hh t bt'. destruct (decide (t = tex)) as [-> | Hne].
  - rewrite lookup_insert_eq. intros [= <-]. cbn. split; [lia | done].
  - rewrite lookup_insert_ne by done. apply Hh.
Qed.

Lemma stampedSince_stamp (g0 touch TICK : nat) (h : gmap texid BaseTexture)
    (tex t : texid) (bt : BaseTexture) :
  g0 < TICK →
  t = tex ∨ stampedSince g0 h t →
  stampedSince g0 (<[tex := stamp TICK touch bt]> h) t.
Proof.
  intros Hlt Ht. unfold stampedSince. destruct (decide (t = tex)) as [-> | Hne].
  - rewrite lookup_insert_eq. by eexists.
  - rewrite lookup_insert_ne by done. by destruct Ht.
Qed.

(** [buildDrawCalls] reads the textures and does not write to them. *)
Lemma buildDrawCalls_textures (texArray start finish : nat) (s s' : Renderer) :
  buildDrawCalls texArray start finish s = Some s' →
  baseTextures s' = baseTextures s ∧ _bufferedTextures s' = _bufferedTextures s ∧
  _textureArrays s' = _textureArrays s ∧ MAX_TEXTURES s' = MAX_TEXTURES s.
Proof.
  intros H.
  apply buildDrawCalls_spec in H as [(d & -> & _) | (s2 & d & Hp & -> & _)]; [done |].
  destruct (packInterleavedGeometry_spec _ _ _ _ Hp) as (? & ? & ? & ? & ? & Hs & _).
  cbv zeta in Hs. by subst s2.
Qed.

Lemma batch_boundArray_textures (k TICK : nat) (s s' : Renderer) :
  batch_boundArray k TICK s = Some s' →
  (∃ locs, baseTextures s' = relocate locs (baseTextures s)) ∧
  _bufferedTextures s' = _bufferedTextures s.
Proof.
  unfold Batch.batch_boundArray. intros H.
  destruct (_textureArrays s !! k); [|done].
  cbn [mbind option_bind] in H. injection H as <-. split; [by eexists | done].
Qed.

Lemma texturesLoop_step (s : Renderer) (i : nat) (st st' : Renderer * TextureLocals) :
  texturesLoop s i st →
  buildTexturesStep (textureGC_count s) i st = Some st' →
  texturesLoop s (S i) st'.
Proof.
  intros (Hlt & Hheap & Hdone & Hrest & Hnull).
  unfold Batch.buildTexturesStep. cbv zeta. intros H.
  destruct (js_get (_bufferedTextures st.1) i) as [tex|] eqn:Htex; [|done].
  cbn [mbind option_bind] in H.
  rewrite Hrest in Htex by done.
  assert (∀ j, S i ≤ j →
            js_get (js_set (_bufferedTextures st.1) i None) j
            = js_get (_bufferedTextures s) j) as Hrest'.
  { intros j Hj. rewrite js_get_set_ne by lia. apply Hrest. lia. }
  assert (∀ j, j < S i → js_get (js_set (_bufferedTextures st.1) i None) j = None)
    as Hnull'.
  { intros j Hj. destruct (decide (j = i)) as [-> | Hne].
    - apply js_get_set_eq.
    - rewrite js_get_set_ne by done. apply Hnull. lia. }
  cbn [baseTextures set_bufferedTextures] in H.
  destruct (baseTextures st.1 !! tex) as [bt|] eqn:Hbt; [|done].
  cbn [mbind option_bind] in H.
  destruct (_batchEnabled bt =? l_TICK st.2) eqn:Etick.
  { injection H as <-. apply Nat.eqb_eq in Etick. unfold texturesLoop. cbn.
    split; [done |]. split; [done |]. split; [| done].
    intros j tex' Hj Htex'. destruct (decide (j = i)) as [-> | Hne].
    - rewrite Htex in Htex'. injection Htex' as <-. exists bt. split; [done | lia].
    - apply (Hdone j); [lia | done]. }
  cbn [_textureArrays set_bufferedTextures] in H.
  destruct (_textureArrays st.1 !! l_countTexArrays st.2) as [texArray|]; [|done].
  cbn [mbind option_bind] in H.
  match type of H with
  | (?m ≫= _) = _ =>
      assert (∀ st1, m = Some st1 →
                _globalBatch s < l_TICK st1.2 ∧
                stampedHeap (_globalBatch s) (textureGC_count s) (l_TICK st1.2)
                  (baseTextures st1.1) ∧
                (∀ j tex, j < i → js_get (_bufferedTextures s) j = Some tex →
                   stampedSince (_globalBatch s) (baseTextures st1.1) tex) ∧
                _bufferedTextures st1.1 = js_set (_bufferedTextures st.1) i None) as Hmid
  end.
  { intros st1 Hm. cbn [MAX_TEXTURES set_bufferedTextures] in Hm.
    destruct (MAX_TEXTURES st.1 <=? ta_count texArray).
    - destruct (batch_boundArray _ _ _) as [s2|] eqn:Hb; [|done].
      cbn [mbind option_bind] in Hm.
      apply batch_boundArray_textures in Hb as ((locs & Hb1) & Hb2).
      destruct (buildDrawCalls _ _ _ _) as [s3|] eqn:Hd; [|done].
      cbn [mbind option_bind] in Hm. injection Hm as <-.
      apply buildDrawCalls_textures in Hd as (Hd1 & Hd2 & _).
      cbn [fst snd l_TICK]. rewrite Hd1, Hd2, Hb1, Hb2. cbn.
      split; [lia |]. split; [| split; [| done]].
      + apply stampedHeap_relocate. by apply (stampedHeap_mono _ _ (l_TICK st.2)); [lia |].
      + intros j tex' Hj Htex'. apply stampedSince_relocate. by apply (Hdone j).
    - injection Hm as <-. cbn. done. }
  match type of H with
  | (?m ≫= _) = _ => destruct m as [st1|]; [|done]
  end.
  destruct (Hmid st1 eq_refl) as (Hlt1 & Hheap1 & Hdone1 & Hbuf1).
  cbn [mbind option_bind] in H.
  destruct (baseTextures st1.1 !! tex) as [bt1|]; [|done].
  cbn [mbind option_bind] in H.
  match type of H with
  | (?m ≫= _) = _ => destruct m; [|done]
  end.
  cbn [mbind option_bind] in H. injection H as <-. unfold texturesLoop. cbn.
  rewrite Hbuf1.
  split; [done |]. split; [by apply stampedHeap_stamp |]. split; [| done].
  intros j tex' Hj Htex'. apply stampedSince_stamp; [done |].
  destruct (decide (j = i)) as [-> | Hne].
  - left. congruence.
  - right. apply (Hdone1 j); [lia | done].
Qed.

(** X14. Texture ticks.  When no texture carries a tick newer than the
    global one, [buildTexturesAndDrawCalls] moves the global tick forward,
    gives every texture of the batch a tick newer than the old global tick
    and marks it as touched for the texture collector, empties the slots of
    [_bufferedTextures] it has read, and again leaves no texture with a tick
    newer than the global one. *)
Theorem buildTexturesAndDrawCalls_stamps (s s' : Renderer) :
  ticksBounded s →
  buildTexturesAndDrawCalls s = Some s' →
  _globalBatch s < _globalBatch s' ∧
  ticksBounded s' ∧
  (∀ i tex, i < _bufferSize s → js_get (_bufferedTextures s) i = Some tex →
     ∃ bt, baseTextures s' !! tex = Some bt ∧
           _globalBatch s < _batchEnabled bt ∧ touched bt = textureGC_count s) ∧
  (∀ i, i < _bufferSize s → js_get (_bufferedTextures s') i = None).
Proof.
  intros Hb.
  unfold Batch.buildTexturesAndDrawCalls, Batch.batch_copyBoundTextures. cbv zeta.
  intros H.
  match type of H with
  | (for_loop ?b ?i ?n ?st ≫= _) = _ => destruct (for_loop b i n st) as [st'|] eqn:Hloop
  end; [|done].
  cbn [mbind option_bind] in H.
  cbn [textureGC_count _bufferSize set_baseTextures set_tempBoundTextures set_globalBatch]
    in Hloop.
  apply (for_loop_inv (texturesLoop s)) in Hloop.
  - rewrite Nat.add_0_l in Hloop. destruct Hloop as (Hlt & Hheap & Hdone & _ & Hnull).
    destruct (_textureArrays st'.1 !! l_countTexArrays st'.2) as [texArray|]; [|done].
    cbn [mbind option_bind] in H.
    assert (∀ (s1 : Renderer) (T : nat),
              l_TICK st'.2 ≤ T →
              (∃ locs, baseTextures s1 = relocate locs (baseTextures st'.1)) →
              _bufferedTextures s1 = _bufferedTextures st'.1 →
              let s2 := set_globalBatch T s1 in
              _globalBatch s < _globalBatch s2 ∧ ticksBounded s2 ∧
              (∀ i tex, i < _bufferSize s → js_get (_bufferedTextures s) i = Some tex →
                 ∃ bt, baseTextures s2 !! tex = Some bt ∧
                       _globalBatch s < _batchEnabled bt ∧ touched bt = textureGC_count s) ∧
              (∀ i, i < _bufferSize s → js_get (_bufferedTextures s2) i = None)) as Hend.
    { intros s1 T HT (locs & Hbase) Hbuf. cbn.
      assert (stampedHeap (_globalBatch s) (textureGC_count s) T (baseTextures s1)) as Hh1.
      { rewrite Hbase. apply stampedHeap_relocate. by apply (stampedHeap_mono _ _ _ _ _ HT). }
      split; [lia |]. split; [| split].
      - intros t bt Ht. cbn. by destruct (Hh1 t bt Ht).
      - intros i tex Hi Htex.
        destruct (stampedSince_relocate _ locs _ _ (Hdone i tex Hi Htex))
          as (bt & Hbt & Hnew).
        rewrite <- Hbase in Hbt. exists bt. split; [done |]. split; [done |].
        by apply (Hh1 tex bt Hbt).
      - intros i Hi. rewrite Hbuf. by apply Hnull. }
    destruct (0 <? ta_count texArray).
    + destruct (batch_boundArray _ _ st'.1) as [s2|] eqn:Hb2; [|done].
      cbn [mbind option_bind] in H.
      apply batch_boundArray_textures in Hb2 as (Hb21 & Hb22).
      destruct (buildDrawCalls _ _ _ _) as [s3|] eqn:Hd; [|done].
      cbn [mbind option_bind fst snd] in H. injection H as <-.
      apply buildDrawCalls_textures in Hd as (Hd1 & Hd2 & _).
      apply Hend; [lia | by rewrite Hd1 | congruence].
    + cbn [mbind option_bind fst snd] in H. injection H as <-.
      apply Hend; [lia | | done].
      exists ∅. apply map_eq. intros t. rewrite relocate_lookup, lookup_empty.
      by destruct (baseTextures st'.1 !! t).
  - unfold texturesLoop. cbn. split; [lia |].
    split; [| split; [intros; lia | split; [done | intros; lia]]].
    apply stampedHeap_relocate. intros t bt Ht.
    specialize (Hb t bt Ht). cbn in Hb. split; lia.
  - intros i st st1 _ Hst Hstep. by eapply texturesLoop_step.
Qed.

(** ** The capacity of the element buffer *)

Lemma flush_size (s s' : Renderer) : flush s = Some s' → size s' = size s.
Proof.
  intros H. destruct (Qeq_bool (_vertexCount s) 0) eqn:E.
  - unfold Batch.flush in H. rewrite E in H. by injection H as <-.
  - apply flush_stages in H as (s1 & s2 & s3 & Hk & H2 & H3 & ->); [| done].
    apply updateGeometry_spec in H2 as (ab & vb & _ & _ & Hd2 & _).
    apply (drawKeeps_drawBatches s1) in H3; [| done].
    cbn. by rewrite (dk_size _ _ H3), (bk_size _ _ Hk).
Qed.

(** X15. The element buffer stays within its capacity.  After [render] has
    accepted an element that on its own has no more than [size] vertices,
    the buffered vertex count is no more than [size], whatever it was
    before.  When the element did not fit beside the elements already
    buffered, these have been flushed and the new element is alone in the
    buffer, at position 0. *)
Theorem render_within_capacity (element : Element) (s s' : Renderer) :
  valid (_texture element) = true →
  render element s = Some s' →
  let n := (Qnat (length (vertexData element)) / 2)%Q in
  size s' = size s ∧
  ((n <= Qnat (size s))%Q → (_vertexCount s' <= Qnat (size s'))%Q) ∧
  ((Qnat (size s) < _vertexCount s + n)%Q → ¬ (_vertexCount s == 0)%Q →
     _bufferSize s' = 1 ∧ (_vertexCount s' == n)%Q ∧
     _indexCount s' = length (indices element) ∧
     js_get (_bufferedElements s') 0 = Some element ∧
     js_get (_bufferedTextures s') 0 = Some (baseTexture (_texture element))).
Proof.
  intros Hv H n. unfold Batch.render in H. rewrite Hv in H. cbn [negb] in H.
  fold n in H.
  destruct (Qgtb (_vertexCount s + n) (Qnat (size s))) eqn:Hgt.
  - destruct (flush s) as [s1|] eqn:Hf; [|done].
    cbn [mbind option_bind] in H. injection H as <-.
    pose proof (flush_size _ _ Hf) as Hsize.
    destruct (Qeq_bool (_vertexCount s) 0) eqn:E.
    + assert (s1 = s) as ->.
      { unfold Batch.flush in Hf. rewrite E in Hf. by injection Hf. }
      apply Qeq_bool_iff in E.
      split; [done |]. split.
      * intros Hn. unfold Batch.buffer. cbn. fold n. rewrite E. by rewrite Qplus_0_l.
      * intros _ Hnz. done.
    + apply flush_stages in Hf as (s2 & s3 & s4 & _ & _ & _ & ->); [| done].
      split; [done |]. split.
      * intros Hn. unfold Batch.buffer. cbn. fold n. rewrite Qplus_0_l.
        cbn in Hsize. by rewrite Hsize.
      * intros _ _. unfold Batch.buffer. cbn. fold n.
        rewrite !js_get_set_eq. split; [done |]. split; [apply Qplus_0_l | done].
  - cbn [mbind option_bind] in H. injection H as <-.
    split; [done |]. split.
    + intros _. unfold Batch.buffer. cbn. fold n.
      unfold Qgtb in Hgt. apply negb_false_iff, Qle_bool_iff in Hgt. done.
    + intros Hlt. apply Qgtb_gt in Hlt. fold n in Hlt. congruence.
Qed.

(** ** Invariants over the life of a renderer *)

(** X16. The bookkeeping of the element buffer is an invariant of the
    renderer.  From [contextChange] after the constructor (with the default
    layout of six lanes per vertex) onwards, through every [render] of an
    element whose positions come in pairs, every [flush], [stop] and
    [onPrerender]: [_vertexCount] and [_indexCount] equal the totals over the
    elements in the buffer, the slots below [_bufferSize] are filled, and
    every cached scratch buffer has the capacity of the size-class it is
    filed under. *)
Theorem renderer_stays_consistent :
  (∀ n : Z, (n ≤ nextPow2 n)%Z) →
  (∀ a b : Z, log2 (nextPow2 a) = log2 (nextPow2 b) → nextPow2 a = nextPow2 b) →
  (∀ batchSize canUpload textures gcCount maxTextures,
     consistent nextPow2 log2
       (Batch.contextChange maxTextures
          (Batch.constructor batchSize 6 canUpload textures gcCount))) ∧
  (∀ s, consistent nextPow2 log2 s →
     (∀ element s',
        Nat.even (length (vertexData element)) = true →
        render element s = Some s' → consistent nextPow2 log2 s') ∧
     (∀ s', flush s = Some s' → consistent nextPow2 log2 s') ∧
     consistent nextPow2 log2 (Batch.onPrerender s) ∧
     (∀ maxTextures, consistent nextPow2 log2 (Batch.contextChange maxTextures s))).
Proof.
  intros Hge Hinj. split.
  - intros. apply consistent_contextChange, consistent_constructor.
  - intros s Hc. split; [| split; [| split]].
    + intros element s' He H. by eapply consistent_render.
    + intros s' H. by eapply consistent_flush.
    + destruct Hc. by split.
    + intros m. by apply consistent_contextChange.
Qed.

Lemma geometryPoolOK_ext (s s' : Renderer) :
  CAN_UPLOAD_SAME_BUFFER s' = CAN_UPLOAD_SAME_BUFFER s →
  _packedGeometries s' = _packedGeometries s →
  _packedGeometryPoolSize s' = _packedGeometryPoolSize s →
  _flushId s' = _flushId s →
  geometryPoolOK s → geometryPoolOK s'.
Proof. unfold geometryPoolOK. by intros -> -> -> ->. Qed.

Lemma geometryPoolOK_flush (s s' : Renderer) :
  geometryPoolOK s → flush s = Some s' → geometryPoolOK s'.
Proof.
  intros Hok H. destruct (Qeq_bool (_vertexCount s) 0) eqn:E.
  - unfold Batch.flush in H. rewrite E in H. by injection H as <-.
  - apply flush_stages in H as (s1 & s2 & s3 & Hk & H2 & H3 & ->); [| done].
    assert (geometryPoolOK s1) as Hok1.
    { apply (geometryPoolOK_ext s); [apply Hk | apply Hk | apply Hk | apply Hk | done]. }
    pose proof (updateGeometry_spec _ _ H2) as (ab & vb & Hab & Hvb & _).
    destruct (updateGeometry_covering s1 ab vb Hok1 Hab Hvb) as (s2' & H2' & Hok2 & _).
    rewrite H2 in H2'. injection H2' as <-.
    apply drawBatches_form in H3 as (ta & g & ->).
    by apply (geometryPoolOK_ext s2).
Qed.

(** X17. The geometry pool stays covering over the life of a renderer:
    every [flush], [stop] and [render] keeps a geometry object in each slot
    of the pool and [_flushId] within it, so no flush of the renderer fails
    for want of a geometry to upload to. *)
Theorem geometry_pool_stays_covering (s s' : Renderer) :
  geometryPoolOK s →
  (flush s = Some s' → geometryPoolOK s') ∧
  (∀ element, render element s = Some s' → geometryPoolOK s').
Proof.
  intros Hok. split; [by apply geometryPoolOK_flush |].
  intros element. unfold Batch.render.
  destruct (valid (_texture element)); cbn [negb]; [| by intros [= <-]].
  destruct (Qgtb _ _).
  - destruct (flush s) as [s1|] eqn:Hf; [|done].
    cbn [mbind option_bind]. intros [= <-].
    apply (geometryPoolOK_ext s1); try done. by apply (geometryPoolOK_flush s).
  - cbn [mbind option_bind]. intros [= <-]. by apply (geometryPoolOK_ext s).
Qed.

(** ** Texture arrays *)

Lemma batch_boundArray_arrays (k TICK : nat) (s s' : Renderer) :
  batch_boundArray k TICK s = Some s' →
  ∃ ta ids,
    _textureArrays s !! k = Some ta ∧
    _textureArrays s' = <[k := {| ta_elements := ta_elements ta; ta_ids := ids;
                                  ta_count := ta_count ta |}]> (_textureArrays s) ∧
    MAX_TEXTURES s' = MAX_TEXTURES s.
Proof.
  unfold Batch.batch_boundArray. intros H.
  destruct (_textureArrays s !! k) as [ta|]; [|done].
  cbn [mbind option_bind] in H. injection H as <-. by eexists _, _.
Qed.

(** X18. Starting from empty texture arrays, on a device with at least one
    texture unit, [buildTexturesAndDrawCalls] never puts more textures into
    a texture array than the device has units. *)
Theorem texture_arrays_within_units (s s' : Renderer) :
  0 < MAX_TEXTURES s →
  (∀ k ta, _textureArrays s !! k = Some ta → ta_count ta = 0) →
  buildTexturesAndDrawCalls s = Some s' →
  ∀ k ta, _textureArrays s' !! k = Some ta → ta_count ta ≤ MAX_TEXTURES s.
Proof.
  intros Hmax Hempty.
  unfold Batch.buildTexturesAndDrawCalls, Batch.batch_copyBoundTextures. cbv zeta.
  intros H.
  match type of H with
  | (for_loop ?b ?i ?n ?st ≫= _) = _ => destruct (for_loop b i n st) as [st'|] eqn:Hloop
  end; [|done].
  cbn [mbind option_bind] in H.
  apply (for_loop_inv
           (λ _ st,
              MAX_TEXTURES st.1 = MAX_TEXTURES s ∧
              ∀ k ta, _textureArrays st.1 !! k = Some ta →
                ta_count ta ≤ MAX_TEXTURES s ∧
                (l_countTexArrays st.2 < k → ta_count ta = 0))) in Hloop.
  - destruct Hloop as (HM & Hinv).
    destruct (_textureArrays st'.1 !! l_countTexArrays st'.2) as [texArray|]; [|done].
    cbn [mbind option_bind] in H.
    destruct (0 <? ta_count texArray).
    + destruct (batch_boundArray _ _ st'.1) as [s2|] eqn:Hb; [|done].
      cbn [mbind option_bind] in H.
      apply batch_boundArray_arrays in Hb as (ta0 & ids & Hta0 & Hb & _).
      destruct (buildDrawCalls _ _ _ _) as [s3|] eqn:Hd; [|done].
      cbn [mbind option_bind fst snd] in H. injection H as <-.
      apply buildDrawCalls_textures in Hd as (_ & _ & Hd & _).
      cbn. rewrite Hd, Hb. intros k ta Hk.
      destruct (decide (k = l_countTexArrays st'.2)) as [-> | Hne].
      * rewrite list_lookup_insert_eq in Hk by by eapply lookup_lt_Some.
        injection Hk as <-. cbn. by apply (Hinv _ _ Hta0).
      * rewrite list_lookup_insert_ne in Hk by done. by apply (Hinv _ _ Hk).
    + cbn [mbind option_bind fst snd] in H. injection H as <-.
      cbn. intros k ta Hk. by apply (Hinv _ _ Hk).
  - cbn. split; [done |]. intros k ta Hk. rewrite (Hempty _ _ Hk). split; [lia | done].
  - clear H Hloop st'. intros i st st1 _ (HM & Hinv).
    unfold Batch.buildTexturesStep. cbv zeta. intros H.
    destruct (js_get (_bufferedTextures st.1) i) as [tex|]; [|done].
    cbn [mbind option_bind] in H.
    cbn [baseTextures _textureArrays MAX_TEXTURES set_bufferedTextures] in H.
    destruct (baseTextures st.1 !! tex) as [bt|]; [|done].
    cbn [mbind option_bind] in H.
    destruct (_batchEnabled bt =? l_TICK st.2).
    { injection H as <-. cbn. done. }
    destruct (_textureArrays st.1 !! l_countTexArrays st.2) as [texArray|] eqn:Hta; [|done].
    cbn [mbind option_bind] in H.
    match type of H with
    | (?m ≫= _) = _ =>
        assert (∀ st2, m = Some st2 →
                  MAX_TEXTURES st2.1 = MAX_TEXTURES s ∧
                  (∀ k ta, _textureArrays st2.1 !! k = Some ta →
                     ta_count ta ≤ MAX_TEXTURES s ∧
                     (l_countTexArrays st2.2 < k → ta_count ta = 0)) ∧
                  (∀ ta, _textureArrays st2.1 !! l_countTexArrays st2.2 = Some ta →
                     ta_count ta < MAX_TEXTURES s)) as Hmid
    end.
    { intros st2 Hm. destruct (MAX_TEXTURES st.1 <=? ta_count texArray) eqn:Hfull.
      - destruct (batch_boundArray _ _ _) as [s2|] eqn:Hb; [|done].
        cbn [mbind option_bind] in Hm.
        apply batch_boundArray_arrays in Hb as (ta0 & ids & Hta0 & Hb & HM2).
        destruct (buildDrawCalls _ _ _ _) as [s3|] eqn:Hd; [|done].
        cbn [mbind option_bind] in Hm. injection Hm as <-.
        apply buildDrawCalls_textures in Hd as (_ & _ & Hd & HM3).
        cbn [fst snd l_countTexArrays]. rewrite Hd, Hb, HM3, HM2.
        cbn [_textureArrays MAX_TEXTURES set_bufferedTextures] in *.
        assert (∀ k ta,
                  <[l_countTexArrays st.2 :=
                      {| ta_elements := ta_elements ta0; ta_ids := ids;
                         ta_count := ta_count ta0 |}]> (_textureArrays st.1) !! k = Some ta →
                  ∃ ta1, _textureArrays st.1 !! k = Some ta1 ∧ ta_count ta = ta_count ta1)
          as Hsame.
        { intros k ta Hk. destruct (decide (k = l_countTexArrays st.2)) as [-> | Hne].
          - rewrite list_lookup_insert_eq in Hk by by eapply lookup_lt_Some.
            injection Hk as <-. by exists ta0.
          - rewrite list_lookup_insert_ne in Hk by done. by exists ta. }
        split; [done |]. split.
        + intros k ta Hk. apply Hsame in Hk as (ta1 & Hk1 & ->).
          destruct (Hinv _ _ Hk1) as [Hle Hz]. split; [done |]. intros Hlt. apply Hz. lia.
        + intros ta Hk. apply Hsame in Hk as (ta1 & Hk1 & ->).
          destruct (Hinv _ _ Hk1) as [_ Hz]. rewrite Hz; [done | lia].
      - injection Hm as <-. cbn [fst snd _textureArrays MAX_TEXTURES set_bufferedTextures].
        split; [done |]. split; [done |].
        intros ta Hk. rewrite Hta in Hk. injection Hk as <-.
        apply Nat.leb_gt in Hfull. lia. }
    match type of H with
    | (?m ≫= _) = _ => destruct m as [st2|]; [|done]
    end.
    destruct (Hmid st2 eq_refl) as (HM2 & Hinv2 & Hroom).
    cbn [mbind option_bind] in H.
    destruct (baseTextures st2.1 !! tex); [|done].
    cbn [mbind option_bind] in H.
    cbn [_textureArrays set_baseTextures] in H.
    destruct (_textureArrays st2.1 !! l_countTexArrays st2.2) as [ta2|] eqn:Hta2; [|done].
    cbn [mbind option_bind] in H. injection H as <-. cbn.
    split; [done |]. intros k ta Hk.
    destruct (decide (k = l_countTexArrays st2.2)) as [-> | Hne].
    + rewrite list_lookup_insert_eq in Hk by by eapply lookup_lt_Some.
      injection Hk as <-. cbn. specialize (Hroom _ eq_refl). split; lia.
    + rewrite list_lookup_insert_ne in Hk by done. by apply (Hinv2 _ _ Hk).
Qed.

End Properties.

(** ** The concrete environment *)

Lemma nextPow2_ref_ge (n : Z) : (n ≤ nextPow2_ref n)%Z.
Proof.
  unfold nextPow2_ref. destruct (Z.le_gt_cases n 1) as [Hle | Hgt].
  - rewrite Z.max_r by done. simpl. done.
  - rewrite Z.max_l by lia. apply Z.log2_up_spec. lia.
Qed.

Lemma log2_ref_nextPow2_ref (a b : Z) :
  log2_ref (nextPow2_ref a) = log2_ref (nextPow2_ref b) →
  nextPow2_ref a = nextPow2_ref b.
Proof.
  unfold log2_ref, nextPow2_ref.
  rewrite !Z.log2_pow2 by apply Z.log2_up_nonneg. by intros ->.
Qed.

Lemma loaded_consistent : consistent nextPow2_ref log2_ref Run.loaded.
Proof.
  unfold Run.loaded, Run.renderer.
  do 2 (apply consistent_buffer; [reflexivity |]).
  apply consistent_contextChange, consistent_constructor.
Qed.

(** ** Runs of the renderer *)

(** C1 (the code departs from it). Two quads with the same premultiplied
    texture and the blend modes NORMAL and ADD, whose effective blend modes
    differ, are submitted and flushed: the group is turned into one draw call
    over all 12 indices, with the blend mode of the last element. *)
Theorem blend_change_single_draw_call :
  premultiplyBlendMode_ref 1 0 ≠ premultiplyBlendMode_ref 1 1 ∧
  (λ s, (_dcIndex s, _drawCalls s !! 0, drawElementsCalls (gl s)))
    <$> Run.frame [Run.quad 1 0; Run.quad 1 1] (Run.renderer 1)
  = Some (1,
          Some {| dc_texArray := Some 0; dc_blend := 1; dc_type := DRAW_MODES_TRIANGLES;
                  dc_start := 0; dc_size := 12 |},
          [(12, 0)]).
Proof. split; [done | vm_compute; reflexivity]. Qed.

(** C2 (the code departs from it). Two quads with different textures on a
    device with one texture unit, submitted and flushed twice.  The first
    flush draws both; in the second flush the pooled draw call of the second
    group still carries [start = 6] from the first flush, the test
    [drawCall.start < finish] fails, and the second quad is neither packed
    (the index cursor stops at 6 and the element stays in the buffer) nor
    drawn. *)
Theorem second_flush_drops_element :
  (λ s, drawElementsCalls (gl s)) <$> Run.frame1 = Some [(6, 0); (6, 12)] ∧
  (λ s, (_dcIndex s, _iIndex s, js_get (_bufferedElements s) 1, drawElementsCalls (gl s)))
    <$> Run.frame2
  = Some (1, 6, Some (Run.quad 2 0), [(6, 0); (6, 12); (6, 0)]).
Proof. split; vm_compute; reflexivity. Qed.

(** C3 (the code departs from it). The same submission a third time: the
    texture array of the second group was never bound and cleared after the
    second flush, and the third flush appends the same texture to it again,
    leaving two equal entries on a device with one texture unit. *)
Theorem third_flush_overfills_texture_array :
  (λ s, (MAX_TEXTURES s, _textureArrays s !! 1)) <$> Run.frame3
  = Some (1, Some {| ta_elements := [Some 2%positive; Some 2%positive];
                     ta_ids := [0%Z; 1%Z]; ta_count := 2 |}).
Proof. vm_compute. reflexivity. Qed.

(** C8 (as stated, it fails). After one frame has been flushed the buffered
    vertex count is zero; a further flush returns at once and the cursors
    are where the first flush left them, not at zero. *)
Lemma flush_empty_cursors_nonzero :
  ∃ s, Run.frame [Run.quad 1 0] (Run.renderer 1) = Some s ∧
       (_vertexCount s == 0)%Q ∧
       (λ s', (_dcIndex s', _aIndex s', _iIndex s')) <$> Run.flush s = Some (1, 24, 6).
Proof.
  eexists. split; [vm_compute; reflexivity |].
  split; [reflexivity | vm_compute; reflexivity].
Qed.



(** ** Witnesses *)

Lemma render_ready_texture_witness :
  valid (_texture (Run.quad 1 0)) = true ∧
  Run.render (Run.quad 1 0) (Run.renderer 1)
  = Some (Batch.buffer (Run.quad 1 0) (Run.renderer 1)).
Proof.
  split; [reflexivity |].
  apply (render_ready_texture nextPow2_ref log2_ref premultiplyBlendMode_ref
           premultiplyTint_ref copyBoundTextures_ref boundArray_ref
           (Run.quad 1 0) (Run.renderer 1) eq_refl).
  vm_compute. discriminate.
Defined.

Lemma flush_empty_noop_witness :
  (_vertexCount (Run.renderer 1) == 0)%Q ∧
  Run.flush (Run.renderer 1) = Some (Run.renderer 1).
Proof.
  split; [reflexivity |].
  apply (flush_empty_noop nextPow2_ref log2_ref premultiplyBlendMode_ref
           premultiplyTint_ref copyBoundTextures_ref boundArray_ref).
  reflexivity.
Defined.

Lemma packed_color_witness :
  ∃ (s' : Renderer) (vb' : ViewableBuffer) (color : Z),
    Batch.packInterleavedGeometry premultiplyTint_ref 0 1
      (flushPrepared nextPow2_ref log2_ref Run.fadedLoaded) = Some s' ∧
    _attributeBuffer (flushPrepared nextPow2_ref log2_ref Run.fadedLoaded)
    = Some 1%positive ∧
    viewableBuffers (flushPrepared nextPow2_ref log2_ref Run.fadedLoaded) !! 1%positive
    = Some (new_ViewableBuffer 192) ∧
    viewableBuffers s' !! 1%positive = Some vb' ∧
    lanes vb' !! 4 = Some (U32 color) ∧
    Z.land color 16777215 = 16744512%Z ∧
    Z.shiftr color 24 = 153%Z.
Proof.
  set (s := flushPrepared nextPow2_ref log2_ref Run.fadedLoaded).
  destruct (Batch.packInterleavedGeometry premultiplyTint_ref 0 1 s) as [s'|] eqn:Hp;
    [| vm_compute in Hp; discriminate].
  assert (_attributeBuffer s = Some 1%positive) as Hab by (vm_compute; reflexivity).
  assert (viewableBuffers s !! 1%positive = Some (new_ViewableBuffer 192)) as Hvb
    by (vm_compute; reflexivity).
  destruct (packed_color premultiplyTint_ref 0 1 s s' 1%positive _ Hp Hab Hvb)
    as (els & vb' & Hlen & Hels & Hvb' & Hcol).
  destruct els as [|e [|e2 els]]; [discriminate Hlen | | discriminate Hlen].
  pose proof (Hels 0 e eq_refl) as He. vm_compute in He. injection He as <-.
  destruct (Hcol 0 _ eq_refl) as (tex & color & Htex & Hlane & _ & Hstraight).
  vm_compute in Htex. injection Htex as <-.
  exists s', vb', color.
  split; [reflexivity |]. split; [exact Hab |]. split; [exact Hvb |].
  split; [exact Hvb' |].
  assert (0 ≤ 16744512 < 2 ^ 24)%Z as Ht by (split; [discriminate | reflexivity]).
  assert (0 <= 5404319552844595 # 9007199254740992)%Q as Hw by (vm_compute; discriminate).
  destruct (Hstraight Ht Hw (or_introl eq_refl)) as (Hl & Hh & _).
  split; [| split; [exact Hl |]].
  - apply (Hlane 0); vm_compute; lia.
  - rewrite Hh. vm_compute. reflexivity.
Defined.



Lemma render_invalid_texture_noop_witness :
  let element := {| _texture := {| valid := false; baseTexture := 1%positive |};
                    vertexData := []; uvs := []; indices := [];
                    worldAlpha := 1; _tintRGB := 0; blendMode := 0 |} in
  valid (_texture element) = false ∧
  Run.render element (Run.renderer 1) = Some (Run.renderer 1).
Proof.
  split; [reflexivity |].
  apply (render_invalid_texture_noop nextPow2_ref log2_ref premultiplyBlendMode_ref
           premultiplyTint_ref copyBoundTextures_ref boundArray_ref).
  reflexivity.
Defined.

Lemma pack_attribute_layout_witness :
  Batch.packInterleavedGeometry premultiplyTint_ref 0 2 Run.packing = Some Run.packed ∧
  _attributeBuffer Run.packing = Some 1%positive ∧
  ∃ vb vb' : ViewableBuffer,
    viewableBuffers Run.packing !! 1%positive = Some vb ∧
    viewableBuffers Run.packed !! 1%positive = Some vb' ∧
    length (lanes vb') = length (lanes vb).
Proof.
  assert (Batch.packInterleavedGeometry premultiplyTint_ref 0 2 Run.packing
          = Some Run.packed) as Hp by (vm_compute; reflexivity).
  assert (_attributeBuffer Run.packing = Some 1%positive) as Hab
    by (vm_compute; reflexivity).
  split; [exact Hp |]. split; [exact Hab |].
  destruct (viewableBuffers Run.packing !! 1%positive) as [vb|] eqn:Hvb;
    [| vm_compute in Hvb; discriminate].
  destruct (pack_attribute_layout premultiplyTint_ref 0 2 Run.packing Run.packed
              1%positive vb Hp Hab Hvb) as (els & vb' & _ & _ & Hvb' & _ & Hlen & _).
  exists vb, vb'. split; [reflexivity |]. split; [exact Hvb' | exact Hlen].
Defined.

Lemma pack_clears_and_never_repacks_witness :
  Batch.packInterleavedGeometry premultiplyTint_ref 0 2 Run.packing = Some Run.packed ∧
  js_get (_bufferedElements Run.packed) 1 = None ∧
  Batch.packInterleavedGeometry premultiplyTint_ref 1 2 Run.packed = None.
Proof.
  assert (Batch.packInterleavedGeometry premultiplyTint_ref 0 2 Run.packing
          = Some Run.packed) as Hp by (vm_compute; reflexivity).
  split; [exact Hp |].
  destruct (pack_clears_and_never_repacks premultiplyTint_ref 0 2 Run.packing Run.packed Hp)
    as [Hclear Hnever].
  split.
  - apply Hclear. lia.
  - apply (Hnever 1 2 1); lia.
Defined.

Lemma pack_empty_range_witness :
  _attributeBuffer (Run.renderer 1) = None ∧
  Batch.packInterleavedGeometry premultiplyTint_ref 0 2 (Run.renderer 1) = None.
Proof.
  split; [reflexivity |].
  apply (pack_empty_range premultiplyTint_ref 0 2 (Run.renderer 1)). reflexivity.
Defined.

Lemma buildDrawCalls_outcome_witness :
  ∃ s' : Renderer,
    Batch.buildDrawCalls premultiplyBlendMode_ref premultiplyTint_ref 0 0 2 Run.packing
    = Some s' ∧
    ∃ (dc0 : BatchDrawCall) (b : Z) (e : Element),
      _drawCalls Run.packing !! _dcIndex Run.packing = Some dc0 ∧
      js_get (_bufferedElements Run.packing) (2 - 1) = Some e ∧
      effectiveBlend premultiplyBlendMode_ref (baseTextures Run.packing) e = Some b.
Proof.
  destruct (Batch.buildDrawCalls premultiplyBlendMode_ref premultiplyTint_ref 0 0 2
              Run.packing) as [s'|] eqn:H; [| vm_compute in H; discriminate].
  exists s'. split; [reflexivity |].
  destruct (buildDrawCalls_outcome premultiplyBlendMode_ref premultiplyTint_ref 0 0 2
              Run.packing s' H) as (dc0 & b & Hdc0 & _ & Hlast & _).
  destruct Hlast as (e & He & Hb); [lia |].
  exists dc0, b, e. split; [exact Hdc0 |]. split; [exact He | exact Hb].
Defined.

Lemma bindAndClearTexArray_binds_and_empties_witness :
  ∃ s' : Renderer,
    Batch.bindAndClearTexArray 0 Run.uploaded = Some s' ∧
    ∃ ta ta' : BatchTextureArray,
      _textureArrays Run.uploaded !! 0 = Some ta ∧
      _textureArrays s' = <[0 := ta']> (_textureArrays Run.uploaded) ∧
      ta_count ta' = 0.
Proof.
  destruct (Batch.bindAndClearTexArray 0 Run.uploaded) as [s'|] eqn:H;
    [| vm_compute in H; discriminate].
  exists s'. split; [reflexivity |].
  destruct (bindAndClearTexArray_binds_and_empties 0 Run.uploaded s' H)
    as (ta & ta' & Hta & Hs' & Hcount & _).
  exists ta, ta'. split; [exact Hta |]. split; [| exact Hcount].
  rewrite Hs'. reflexivity.
Defined.

Lemma drawBatches_issues_draw_calls_witness :
  ∃ s' : Renderer,
    Batch.drawBatches Run.uploaded = Some s' ∧
    withoutTextureBinds (gl s')
    = withoutTextureBinds (gl Run.uploaded)
      ++ mjoin (drawEvents <$> take (_dcIndex Run.uploaded) (_drawCalls Run.uploaded)).
Proof.
  destruct (Batch.drawBatches Run.uploaded) as [s'|] eqn:H;
    [| vm_compute in H; discriminate].
  exists s'. split; [reflexivity |].
  apply (drawBatches_issues_draw_calls Run.uploaded s' H).
Defined.

Lemma drawBatches_empties_texture_arrays_witness :
  ∃ s' : Renderer,
    Batch.drawBatches Run.uploaded = Some s' ∧ cleared (_textureArrays s') 0.
Proof.
  destruct (Batch.drawBatches Run.uploaded) as [s'|] eqn:H;
    [| vm_compute in H; discriminate].
  exists s'. split; [reflexivity |].
  destruct (_drawCalls Run.uploaded !! 0) as [dc|] eqn:Hdc;
    [| vm_compute in Hdc; discriminate].
  assert (dc_texArray dc = Some 0) as Ht.
  { vm_compute in Hdc. injection Hdc as <-. reflexivity. }
  apply (proj1 (drawBatches_empties_texture_arrays Run.uploaded s' H) 0 dc 0);
    [vm_compute; lia | exact Hdc | exact Ht].
Defined.

Lemma geometry_pool_covers_witness :
  geometryPoolOK Run.built ∧
  ∃ s' : Renderer, Batch.updateGeometry Run.built = Some s' ∧ geometryPoolOK s'.
Proof.
  assert (geometryPoolOK Run.built) as Hok.
  { split; [vm_compute; lia |]. split; [vm_compute; lia |].
    intros i Hi. destruct i as [|[|i]]; [reflexivity | reflexivity |].
    vm_compute in Hi. lia. }
  split; [exact Hok |].
  assert (_attributeBuffer Run.built = Some 1%positive) as Hab
    by (vm_compute; reflexivity).
  destruct (viewableBuffers Run.built !! 1%positive) as [vb|] eqn:Hvb;
    [| vm_compute in Hvb; discriminate].
  destruct (proj2 (geometry_pool_covers Run.built) Hok) as (_ & _ & Hup).
  destruct (Hup 1%positive vb Hab Hvb) as (s' & Hs' & Hok' & _).
  exists s'. split; [exact Hs' | exact Hok'].
Defined.

Lemma buffer_pool_shared_by_class_witness :
  nextPow2_ref (Qceiling (5 / 8)) = nextPow2_ref (Qceiling (3 / 8)) ∧
  Batch.getAttributeBuffer nextPow2_ref log2_ref 5
    (Batch.getAttributeBuffer nextPow2_ref log2_ref 3 (Run.renderer 1)).2
  = Batch.getAttributeBuffer nextPow2_ref log2_ref 3 (Run.renderer 1).
Proof.
  assert (nextPow2_ref (Qceiling (5 / 8)) = nextPow2_ref (Qceiling (3 / 8))) as Hcls
    by reflexivity.
  split; [exact Hcls |].
  apply (proj1 (buffer_pool_shared_by_class nextPow2_ref log2_ref 3 5 (Run.renderer 1))).
  exact Hcls.
Defined.

Lemma flush_twice_witness :
  ∃ s' : Renderer, Run.flush Run.loaded = Some s' ∧ Run.flush s' = Some s'.
Proof.
  destruct (Run.flush Run.loaded) as [s'|] eqn:H; [| vm_compute in H; discriminate].
  exists s'. split; [reflexivity |].
  apply (flush_twice nextPow2_ref log2_ref premultiplyBlendMode_ref premultiplyTint_ref
           copyBoundTextures_ref boundArray_ref Run.loaded s' H).
Defined.

Lemma flush_keeps_pools_witness :
  ∃ s' : Renderer,
    Run.flush Run.loaded = Some s' ∧
    length (_drawCalls s') = length (_drawCalls Run.loaded) ∧
    length (_textureArrays s') = length (_textureArrays Run.loaded).
Proof.
  destruct (Run.flush Run.loaded) as [s'|] eqn:H; [| vm_compute in H; discriminate].
  exists s'. split; [reflexivity |].
  destruct (proj1 (flush_keeps_pools nextPow2_ref log2_ref premultiplyBlendMode_ref
                     premultiplyTint_ref copyBoundTextures_ref boundArray_ref
                     Run.loaded s') H) as (Hd & Ht & _).
  split; [exact Hd | exact Ht].
Defined.

Lemma flush_uploads_then_draws_witness :
  ¬ (_vertexCount Run.loaded == 0)%Q ∧
  ∃ s' : Renderer,
    Run.flush Run.loaded = Some s' ∧
    _flushId s' = (if CAN_UPLOAD_SAME_BUFFER Run.loaded then _flushId Run.loaded
                   else S (_flushId Run.loaded)).
Proof.
  assert (¬ (_vertexCount Run.loaded == 0)%Q) as Hnz by (vm_compute; discriminate).
  split; [exact Hnz |].
  destruct (Run.flush Run.loaded) as [s'|] eqn:H; [| vm_compute in H; discriminate].
  exists s'. split; [reflexivity |].
  destruct (flush_uploads_then_draws nextPow2_ref log2_ref premultiplyBlendMode_ref
              premultiplyTint_ref copyBoundTextures_ref boundArray_ref
              Run.loaded s' Hnz H) as (ab & vb & _ & _ & _ & Hf).
  exact Hf.
Defined.

Lemma buildTexturesAndDrawCalls_stamps_witness :
  ticksBounded Run.packing ∧
  ∃ s' : Renderer,
    Batch.buildTexturesAndDrawCalls premultiplyBlendMode_ref premultiplyTint_ref
      copyBoundTextures_ref boundArray_ref Run.packing = Some s' ∧
    _globalBatch Run.packing < _globalBatch s' ∧ ticksBounded s'.
Proof.
  assert (ticksBounded Run.packing) as Hb.
  { unfold ticksBounded.
    assert (baseTextures Run.packing
            = <[1%positive := Run.texture0]> (<[2%positive := Run.texture0]> ∅)) as ->
      by (vm_compute; reflexivity).
    apply map_Forall_insert_2; [vm_compute; lia |].
    apply map_Forall_insert_2; [vm_compute; lia |].
    apply map_Forall_empty. }
  split; [exact Hb |].
  destruct (Batch.buildTexturesAndDrawCalls premultiplyBlendMode_ref premultiplyTint_ref
              copyBoundTextures_ref boundArray_ref Run.packing) as [s'|] eqn:H;
    [| vm_compute in H; discriminate].
  exists s'. split; [reflexivity |].
  destruct (buildTexturesAndDrawCalls_stamps premultiplyBlendMode_ref premultiplyTint_ref
              copyBoundTextures_ref boundArray_ref Run.packing s' Hb H)
    as (Hlt & Hb' & _).
  split; [exact Hlt | exact Hb'].
Defined.

Lemma render_within_capacity_witness :
  valid (_texture (Run.quad 1 0)) = true ∧
  (Qnat (size Run.full)
   < _vertexCount Run.full + Qnat (length (vertexData (Run.quad 1 0))) / 2)%Q ∧
  ¬ (_vertexCount Run.full == 0)%Q ∧
  ∃ s' : Renderer,
    Run.render (Run.quad 1 0) Run.full = Some s' ∧
    _bufferSize s' = 1 ∧ (_vertexCount s' <= Qnat (size s'))%Q.
Proof.
  assert (Qnat (size Run.full)
          < _vertexCount Run.full + Qnat (length (vertexData (Run.quad 1 0))) / 2)%Q
    as Hover by (vm_compute; reflexivity).
  assert (¬ (_vertexCount Run.full == 0)%Q) as Hnz by (vm_compute; discriminate).
  split; [reflexivity |]. split; [exact Hover |]. split; [exact Hnz |].
  destruct (Run.render (Run.quad 1 0) Run.full) as [s'|] eqn:H;
    [| vm_compute in H; discriminate].
  exists s'. split; [reflexivity |].
  destruct (render_within_capacity nextPow2_ref log2_ref premultiplyBlendMode_ref
              premultiplyTint_ref copyBoundTextures_ref boundArray_ref
              (Run.quad 1 0) Run.full s' eq_refl H) as (_ & Hcap & Halone).
  split.
  - apply (Halone Hover Hnz).
  - apply Hcap. vm_compute. discriminate.
Defined.

Lemma renderer_stays_consistent_witness :
  consistent nextPow2_ref log2_ref (Run.renderer 1) ∧
  consistent nextPow2_ref log2_ref (Batch.onPrerender Run.loaded).
Proof.
  destruct (renderer_stays_consistent nextPow2_ref log2_ref premultiplyBlendMode_ref
              premultiplyTint_ref copyBoundTextures_ref boundArray_ref
              nextPow2_ref_ge log2_ref_nextPow2_ref) as [Hinit Hkeep].
  split.
  - exact (Hinit 4 true (<[1%positive := Run.texture0]> (<[2%positive := Run.texture0]> ∅))
             0 1).
  - exact (proj1 (proj2 (proj2 (Hkeep Run.loaded loaded_consistent)))).
Defined.

Lemma geometry_pool_stays_covering_witness :
  geometryPoolOK Run.loaded ∧
  ∃ s' : Renderer, Run.flush Run.loaded = Some s' ∧ geometryPoolOK s'.
Proof.
  assert (geometryPoolOK Run.loaded) as Hok.
  { split; [vm_compute; lia |]. split; [vm_compute; lia |].
    intros i Hi. destruct i as [|[|i]]; [reflexivity | reflexivity |].
    vm_compute in Hi. lia. }
  split; [exact Hok |].
  destruct (Run.flush Run.loaded) as [s'|] eqn:H; [| vm_compute in H; discriminate].
  exists s'. split; [reflexivity |].
  apply (proj1 (geometry_pool_stays_covering nextPow2_ref log2_ref premultiplyBlendMode_ref
                  premultiplyTint_ref copyBoundTextures_ref boundArray_ref
                  Run.loaded s' Hok) H).
Defined.

Lemma texture_arrays_within_units_witness :
  0 < MAX_TEXTURES Run.packing ∧
  (∀ k ta, _textureArrays Run.packing !! k = Some ta → ta_count ta = 0) ∧
  ∃ s' : Renderer,
    Batch.buildTexturesAndDrawCalls premultiplyBlendMode_ref premultiplyTint_ref
      copyBoundTextures_ref boundArray_ref Run.packing = Some s' ∧
    ∀ k ta, _textureArrays s' !! k = Some ta → ta_count ta ≤ MAX_TEXTURES Run.packing.
Proof.
  assert (0 < MAX_TEXTURES Run.packing) as Hmax by (vm_compute; lia).
  assert (∀ k ta, _textureArrays Run.packing !! k = Some ta → ta_count ta = 0) as Hempty.
  { intros k ta Hk.
    assert (_textureArrays Run.packing = replicate 4 new_BatchTextureArray) as E
      by (vm_compute; reflexivity).
    rewrite E in Hk. apply lookup_replicate in Hk as [-> _]. reflexivity. }
  split; [exact Hmax |]. split; [exact Hempty |].
  destruct (Batch.buildTexturesAndDrawCalls premultiplyBlendMode_ref premultiplyTint_ref
              copyBoundTextures_ref boundArray_ref Run.packing) as [s'|] eqn:H;
    [| vm_compute in H; discriminate].
  exists s'. split; [reflexivity |].
  apply (texture_arrays_within_units premultiplyBlendMode_ref premultiplyTint_ref
           copyBoundTextures_ref boundArray_ref Run.packing s' Hmax Hempty H).
Defined.
